(** * A queueing-network simulator: shallow embedding and verification

    Embedding of [ConsoleApplication1.cpp]: three request sources feed two
    devices through a bounded buffer; an event calendar drives the run.

    Conventions of the embedding.
    - [int] values are integers of [Z]; signed overflow is undefined in C++,
      so the counters are modelled on the executions that stay in range.
      The two sentinels the scans compare against ([INT_MAX] and [-1]) are
      kept as the code has them.
    - [double] times are rationals of [Q] (exact arithmetic).
    - [std::queue<Request*>] is a list, front first; [push] appends.
    - A [Request*] is the request's record together with its address
      [ptr]; the program never holds two live owners of one request, so
      the record travels with the pointer.
    - An operation whose behaviour is undefined in C++ (indexing a vector
      out of range, a remainder by zero, [top] of an empty calendar)
      returns [None]. *)

From Stdlib Require Import ZArith QArith Qround List Lia Lqa Permutation Bool.
Import ListNotations.

Open Scope Z_scope.

(** ** Small library: the error monad and vectors *)

Definition bind {A B : Type} (m : option A) (k : A -> option B) : option B :=
  match m with
  | Some a => k a
  | None => None
  end.

Notation "x <- m ;; k" := (bind m (fun x => k))
  (at level 61, m at next level, right associativity).
Notation "' p <- m ;; k" := (bind m (fun p => k))
  (at level 61, p pattern, m at next level, right associativity).

(** [v[i]] of a [std::vector]: defined only inside the vector. *)
Definition vec_at {A : Type} (v : list A) (i : Z) : option A :=
  if i <? 0 then None else nth_error v (Z.to_nat i).

Fixpoint update_nth {A : Type} (n : nat) (f : A -> A) (v : list A) : list A :=
  match v, n with
  | [], _ => []
  | x :: v', O => f x :: v'
  | x :: v', S n' => x :: update_nth n' f v'
  end.

(** [v[i] = f(v[i])], defined only inside the vector. *)
Definition vec_update {A : Type} (v : list A) (i : Z) (f : A -> A) : option (list A) :=
  match vec_at v i with
  | Some _ => Some (update_nth (Z.to_nat i) f v)
  | None => None
  end.

Definition Qltb (x y : Q) : bool := negb (Qle_bool y x).

Definition INT_MAX : Z := 2147483647.

(** Conversion of an [int] to [size_t] (64 bits), as the comparison of
    [buffer.size()] with [max_size] performs it. *)
Definition to_size_t (z : Z) : Z := z mod 2 ^ 64.

(** ** Request *)

Module Request.

Record t : Type := mk {
  ptr : nat;
  source_id : Z;
  request_id : Z;
  arrival_time : Q;
  start_service_time : Q;
  finish_service_time : Q
}.

Definition new (p : nat) (src_id req_id : Z) (arr_time : Q) : t :=
  mk p src_id req_id arr_time 0 0.

Definition set_start_service_time (x : Q) (r : t) : t :=
  mk (ptr r) (source_id r) (request_id r) (arrival_time r) x
     (finish_service_time r).

Definition set_finish_service_time (x : Q) (r : t) : t :=
  mk (ptr r) (source_id r) (request_id r) (arrival_time r)
     (start_service_time r) x.

End Request.

(** ** Buffer *)

Module Buffer.

Record t : Type := mk {
  buffer : list Request.t;
  max_size : Z
}.

Definition isFull (b : t) : bool :=
  to_size_t (max_size b) <=? Z.of_nat (length (buffer b)).

Definition isEmpty (b : t) : bool :=
  match buffer b with [] => true | _ => false end.

Definition getSize (b : t) : Z := Z.of_nat (length (buffer b)).

Definition addRequest (request : Request.t) (b : t) : t :=
  mk (buffer b ++ [request]) (max_size b).

(** [while (!temp.empty()) { buffer.push(temp.front()); temp.pop(); }] *)
Fixpoint refill (buffer temp : list Request.t) : list Request.t :=
  match temp with
  | [] => buffer
  | req :: temp' => refill (buffer ++ [req]) temp'
  end.

(** First loop of [getNextRequest]: the scan for the serving source. *)
Fixpoint scan_packet (current_serving_source : Z) (buffer temp : list Request.t)
         (found : option Request.t) : list Request.t * option Request.t :=
  match buffer with
  | [] => (temp, found)
  | req :: buffer' =>
      if (Request.source_id req =? current_serving_source)
         && (match found with None => true | Some _ => false end)
      then scan_packet current_serving_source buffer' temp (Some req)
      else scan_packet current_serving_source buffer' (temp ++ [req]) found
  end.

(** Second loop of [getNextRequest]: the scan for the smallest source. *)
Fixpoint scan_best (buffer temp : list Request.t) (best_request : option Request.t)
         (best_source : Z) : list Request.t * option Request.t * Z :=
  match buffer with
  | [] => (temp, best_request, best_source)
  | req :: buffer' =>
      if Request.source_id req <? best_source
      then scan_best buffer'
             (match best_request with Some b => temp ++ [b] | None => temp end)
             (Some req) (Request.source_id req)
      else scan_best buffer' (temp ++ [req]) best_request best_source
  end.

(** The part of [getNextRequest] from the second emptiness test on. *)
Definition select_best (buffer : list Request.t) (current_serving_source : Z)
  : option Request.t * list Request.t * Z :=
  match buffer with
  | [] => (None, buffer, -1)
  | _ =>
      let '(temp, best_request, best_source) := scan_best buffer [] None INT_MAX in
      let buffer' := refill [] temp in
      match best_request with
      | Some _ => (best_request, buffer', best_source)
      | None => (best_request, buffer', current_serving_source)
      end
  end.

(** [getNextRequest(current_serving_source)] on the queue: the returned
    pointer, the queue afterwards and the marker afterwards. *)
Definition getNextRequest_queue (buffer : list Request.t) (current_serving_source : Z)
  : option Request.t * list Request.t * Z :=
  match buffer with
  | [] => (None, buffer, -1)
  | _ =>
      if negb (current_serving_source =? -1)
      then
        let '(temp, found) := scan_packet current_serving_source buffer [] None in
        let buffer' := refill [] temp in
        match found with
        | Some _ => (found, buffer', current_serving_source)
        | None => select_best buffer' (-1)
        end
      else select_best buffer current_serving_source
  end.

Definition getNextRequest (b : t) (current_serving_source : Z)
  : option Request.t * t * Z :=
  let '(r, q, m) := getNextRequest_queue (buffer b) current_serving_source in
  (r, mk q (max_size b), m).

(** The loop of [findRequestToReject]. *)
Fixpoint scan_worst (buffer temp : list Request.t) (worst_request : option Request.t)
         (worst_source : Z) : list Request.t * option Request.t :=
  match buffer with
  | [] => (temp, worst_request)
  | req :: buffer' =>
      if worst_source <? Request.source_id req
      then scan_worst buffer'
             (match worst_request with Some w => temp ++ [w] | None => temp end)
             (Some req) (Request.source_id req)
      else scan_worst buffer' (temp ++ [req]) worst_request worst_source
  end.

Definition findRequestToReject_queue (buffer : list Request.t)
  : option Request.t * list Request.t :=
  match buffer with
  | [] => (None, buffer)
  | _ =>
      let '(temp, worst_request) := scan_worst buffer [] None (-1) in
      (worst_request, refill [] temp)
  end.

Definition findRequestToReject (b : t) : option Request.t * t :=
  let '(r, q) := findRequestToReject_queue (buffer b) in
  (r, mk q (max_size b)).

(** The first loop of [removeRequest]: entries are compared by address. *)
Fixpoint remove_scan (request : Request.t) (buffer temp : list Request.t) : list Request.t :=
  match buffer with
  | [] => temp
  | req :: buffer' =>
      if negb (Nat.eqb (Request.ptr req) (Request.ptr request))
      then remove_scan request buffer' (temp ++ [req])
      else remove_scan request buffer' temp
  end.

Definition removeRequest_queue (request : Request.t) (buffer : list Request.t)
  : list Request.t :=
  refill [] (remove_scan request buffer []).

Definition removeRequest (request : Request.t) (b : t) : t :=
  mk (removeRequest_queue request (buffer b)) (max_size b).

End Buffer.

(** The selection discipline in the words of the specification: a request of
    the serving source if the marker names one and the buffer holds one;
    otherwise the first request of the smallest source; nothing on an empty
    buffer. *)
Fixpoint first_smallest (q : list Request.t) : option Request.t :=
  match q with
  | [] => None
  | r :: q' =>
      match first_smallest q' with
      | Some m => if Request.source_id r <=? Request.source_id m then Some r else Some m
      | None => Some r
      end
  end.

Definition selectNext_spec (q : list Request.t) (marker : Z) : option Request.t * Z :=
  match q with
  | [] => (None, -1)
  | _ =>
      match (if marker =? -1 then None
             else find (fun r => Request.source_id r =? marker) q) with
      | Some r => (Some r, marker)
      | None =>
          match first_smallest q with
          | Some r => (Some r, Request.source_id r)
          | None => (None, -1)
          end
      end
  end.

(** ** Device and DeviceSelector *)

Module Device.

Record t : Type := mk {
  lambda : Q;            (* parameter of [dist], [1.0 / mean_time] *)
  device_id : Z;
  current_request : option Request.t
}.

Definition isFree (d : t) : bool :=
  match current_request d with None => true | Some _ => false end.

Definition startService (request : Request.t) (current_time : Q) (d : t) : t :=
  mk (lambda d) (device_id d) (Some (Request.set_start_service_time current_time request)).

Definition finishService (d : t) : option Request.t * t :=
  (current_request d, mk (lambda d) (device_id d) None).

Definition getId (d : t) : Z := device_id d.

End Device.

Module DeviceSelector.

Record t : Type := mk {
  last_used : Z;
  num_devices : Z
}.

Definition new (num_devs : Z) : t := mk (-1) num_devs.

(** [a % b] of C++: truncated, undefined for [b = 0]. *)
Definition c_rem (a b : Z) : option Z :=
  if b =? 0 then None else Some (Z.rem a b).

(** The [for] loop, [fuel] iterations left, at counter [i]. The result is
    the index of the device returned (the pointer [devices[idx]]). *)
Fixpoint scan (fuel : nat) (i start_index : Z) (sel : t) (devices : list Device.t)
  : option (option Z * t) :=
  match fuel with
  | O => Some (None, sel)
  | S fuel' =>
      idx <- c_rem (start_index + i) (num_devices sel) ;;
      d <- vec_at devices idx ;;
      if Device.isFree d
      then Some (Some idx, mk idx (num_devices sel))
      else scan fuel' (i + 1) start_index sel devices
  end.

Definition getFreeDevice (sel : t) (devices : list Device.t)
  : option (option Z * t) :=
  match devices with
  | [] => Some (None, sel)
  | _ =>
      start_index <- c_rem (last_used sel + 1) (num_devices sel) ;;
      scan (Z.to_nat (num_devices sel)) 0 start_index sel devices
  end.

End DeviceSelector.

(** Round-robin selection in the words of the specification: the indices of
    the pool in rotated order, starting just after the cursor; the first free
    one is returned and becomes the cursor. *)
Definition rotated_order (cursor : Z) (n : nat) : list Z :=
  map (fun i => (cursor + 1 + Z.of_nat i) mod Z.of_nat n) (seq 0 n).

Definition is_free_at (devices : list Device.t) (idx : Z) : bool :=
  match nth_error devices (Z.to_nat idx) with
  | Some d => Device.isFree d
  | None => false
  end.

Definition selectFree_spec (cursor : Z) (devices : list Device.t) : option Z * Z :=
  match find (is_free_at devices) (rotated_order cursor (length devices)) with
  | Some idx => (Some idx, idx)
  | None => (None, cursor)
  end.

(** ** Source, Event and the two external collaborators *)

Module Source.

Record t : Type := mk {
  min_int : Q;           (* parameters of [dist] *)
  max_int : Q;
  source_id : Z
}.

Definition getId (s : t) : Z := source_id s.

End Source.

Module Event.

Inductive Type_ : Type := ARRIVAL | DEPARTURE.

Record t : Type := mk {
  time : Q;
  type : Type_;
  entity_id : Z;
  request : option nat     (* address of the request, never read back *)
}.

End Event.

(** [std::priority_queue<Event, vector<Event>, greater<Event>>]: the
    calendar is the list of its events, [push] adds one, and [top] followed
    by [pop] splits off an event of least time. Which of several events of
    equal time comes first is left to the library, so the engine is
    verified against every calendar with these properties. *)
Class Calendar : Type := {
  top_pop : list Event.t -> option (Event.t * list Event.t);
  top_pop_nil : top_pop [] = None;
  top_pop_cons : forall c, c <> [] -> exists e rest, top_pop c = Some (e, rest);
  top_pop_perm : forall c e rest,
      top_pop c = Some (e, rest) -> Permutation c (e :: rest);
  top_pop_least : forall c e rest,
      top_pop c = Some (e, rest) ->
      Forall (fun e' => (Event.time e <= Event.time e')%Q) rest
}.

Definition push (e : Event.t) (calendar : list Event.t) : list Event.t :=
  calendar ++ [e].

(** [default_random_engine] with the two distributions drawn from it. The
    state of the generator is the number of variates drawn so far; a
    variate is any function of that state and of the distribution's
    parameters with the support of the distribution. *)
Class Variates : Type := {
  uniform_real : nat -> Q -> Q -> Q;
  exponential : nat -> Q -> Q;
  uniform_real_ge : forall g a b, (a <= b)%Q -> (a <= uniform_real g a b)%Q;
  exponential_ge_0 : forall g l, (0 <= exponential g l)%Q
}.

(** ** SimulationModel *)

Module SimulationModel.

Record t : Type := mk {
  calendar : list Event.t;
  sources : list Source.t;
  devices : list Device.t;
  buffer : Buffer.t;
  device_selector : DeviceSelector.t;
  generator : nat;
  heap : nat;                     (* next fresh address of [new Request] *)
  current_time : Q;
  current_serving_source : Z;
  requests_generated : Z;
  requests_served : Z;
  requests_rejected : Z;
  source_requests : list Z;
  source_rejections : list Z;
  source_total_time : list Q;
  source_waiting_time : list Q;
  device_busy_time : list Q
}.

Definition set_calendar x (m : t) : t :=
  mk x (sources m) (devices m) (buffer m) (device_selector m) (generator m)
     (heap m) (current_time m) (current_serving_source m)
     (requests_generated m) (requests_served m) (requests_rejected m)
     (source_requests m) (source_rejections m) (source_total_time m)
     (source_waiting_time m) (device_busy_time m).
Definition set_devices x (m : t) : t :=
  mk (calendar m) (sources m) x (buffer m) (device_selector m) (generator m)
     (heap m) (current_time m) (current_serving_source m)
     (requests_generated m) (requests_served m) (requests_rejected m)
     (source_requests m) (source_rejections m) (source_total_time m)
     (source_waiting_time m) (device_busy_time m).
Definition set_buffer x (m : t) : t :=
  mk (calendar m) (sources m) (devices m) x (device_selector m) (generator m)
     (heap m) (current_time m) (current_serving_source m)
     (requests_generated m) (requests_served m) (requests_rejected m)
     (source_requests m) (source_rejections m) (source_total_time m)
     (source_waiting_time m) (device_busy_time m).
Definition set_device_selector x (m : t) : t :=
  mk (calendar m) (sources m) (devices m) (buffer m) x (generator m)
     (heap m) (current_time m) (current_serving_source m)
     (requests_generated m) (requests_served m) (requests_rejected m)
     (source_requests m) (source_rejections m) (source_total_time m)
     (source_waiting_time m) (device_busy_time m).
Definition set_generator x (m : t) : t :=
  mk (calendar m) (sources m) (devices m) (buffer m) (device_selector m) x
     (heap m) (current_time m) (current_serving_source m)
     (requests_generated m) (requests_served m) (requests_rejected m)
     (source_requests m) (source_rejections m) (source_total_time m)
     (source_waiting_time m) (device_busy_time m).
Definition set_heap x (m : t) : t :=
  mk (calendar m) (sources m) (devices m) (buffer m) (device_selector m)
     (generator m) x (current_time m) (current_serving_source m)
     (requests_generated m) (requests_served m) (requests_rejected m)
     (source_requests m) (source_rejections m) (source_total_time m)
     (source_waiting_time m) (device_busy_time m).
Definition set_current_time x (m : t) : t :=
  mk (calendar m) (sources m) (devices m) (buffer m) (device_selector m)
     (generator m) (heap m) x (current_serving_source m)
     (requests_generated m) (requests_served m) (requests_rejected m)
     (source_requests m) (source_rejections m) (source_total_time m)
     (source_waiting_time m) (device_busy_time m).
Definition set_current_serving_source x (m : t) : t :=
  mk (calendar m) (sources m) (devices m) (buffer m) (device_selector m)
     (generator m) (heap m) (current_time m) x
     (requests_generated m) (requests_served m) (requests_rejected m)
     (source_requests m) (source_rejections m) (source_total_time m)
     (source_waiting_time m) (device_busy_time m).
Definition set_requests_generated x (m : t) : t :=
  mk (calendar m) (sources m) (devices m) (buffer m) (device_selector m)
     (generator m) (heap m) (current_time m) (current_serving_source m)
     x (requests_served m) (requests_rejected m)
     (source_requests m) (source_rejections m) (source_total_time m)
     (source_waiting_time m) (device_busy_time m).
Definition set_requests_served x (m : t) : t :=
  mk (calendar m) (sources m) (devices m) (buffer m) (device_selector m)
     (generator m) (heap m) (current_time m) (current_serving_source m)
     (requests_generated m) x (requests_rejected m)
     (source_requests m) (source_rejections m) (source_total_time m)
     (source_waiting_time m) (device_busy_time m).
Definition set_requests_rejected x (m : t) : t :=
  mk (calendar m) (sources m) (devices m) (buffer m) (device_selector m)
     (generator m) (heap m) (current_time m) (current_serving_source m)
     (requests_generated m) (requests_served m) x
     (source_requests m) (source_rejections m) (source_total_time m)
     (source_waiting_time m) (device_busy_time m).
Definition set_source_requests x (m : t) : t :=
  mk (calendar m) (sources m) (devices m) (buffer m) (device_selector m)
     (generator m) (heap m) (current_time m) (current_serving_source m)
     (requests_generated m) (requests_served m) (requests_rejected m)
     x (source_rejections m) (source_total_time m)
     (source_waiting_time m) (device_busy_time m).
Definition set_source_rejections x (m : t) : t :=
  mk (calendar m) (sources m) (devices m) (buffer m) (device_selector m)
     (generator m) (heap m) (current_time m) (current_serving_source m)
     (requests_generated m) (requests_served m) (requests_rejected m)
     (source_requests m) x (source_total_time m)
     (source_waiting_time m) (device_busy_time m).
Definition set_source_total_time x (m : t) : t :=
  mk (calendar m) (sources m) (devices m) (buffer m) (device_selector m)
     (generator m) (heap m) (current_time m) (current_serving_source m)
     (requests_generated m) (requests_served m) (requests_rejected m)
     (source_requests m) (source_rejections m) x
     (source_waiting_time m) (device_busy_time m).
Definition set_source_waiting_time x (m : t) : t :=
  mk (calendar m) (sources m) (devices m) (buffer m) (device_selector m)
     (generator m) (heap m) (current_time m) (current_serving_source m)
     (requests_generated m) (requests_served m) (requests_rejected m)
     (source_requests m) (source_rejections m) (source_total_time m)
     x (device_busy_time m).
Definition set_device_busy_time x (m : t) : t :=
  mk (calendar m) (sources m) (devices m) (buffer m) (device_selector m)
     (generator m) (heap m) (current_time m) (current_serving_source m)
     (requests_generated m) (requests_served m) (requests_rejected m)
     (source_requests m) (source_rejections m) (source_total_time m)
     (source_waiting_time m) x.

Section Engine.

Context {cal : Calendar} {var : Variates}.

(** [Source::getNextInterval] and [Device::getServiceTime]: one draw
    each, the generator advances. *)
Definition getNextInterval (s : Source.t) (m : t) : Q * t :=
  (uniform_real (generator m) (Source.min_int s) (Source.max_int s),
   set_generator (S (generator m)) m).

Definition getServiceTime (d : Device.t) (m : t) : Q * t :=
  (exponential (generator m) (Device.lambda d),
   set_generator (S (generator m)) m).

(** The block shared by both handlers: draw a service time on the
    free device, start the service and schedule the departure. *)
Definition dispatch (idx : Z) (request : Request.t) (m : t) : option t :=
  free_device <- vec_at (devices m) idx ;;
  let '(service_time, m) := getServiceTime free_device m in
  devices' <- vec_update (devices m) idx
                (Device.startService request (current_time m)) ;;
  Some (set_calendar
          (push (Event.mk (current_time m + service_time) Event.DEPARTURE
                          (Device.getId free_device) (Some (Request.ptr request)))
                (calendar m))
          (set_devices devices' m)).

Definition processArrival (source_id : Z) (m : t) : option t :=
  let m := set_requests_generated (requests_generated m + 1) m in
  source_requests' <- vec_update (source_requests m) source_id Z.succ ;;
  let m := set_source_requests source_requests' m in
  request_id <- vec_at (source_requests m) source_id ;;
  let request := Request.new (heap m) source_id request_id (current_time m) in
  let m := set_heap (S (heap m)) m in
  source <- vec_at (sources m) source_id ;;
  let '(interval, m) := getNextInterval source m in
  let next_time := (current_time m + interval)%Q in
  let m := set_calendar
             (push (Event.mk next_time Event.ARRIVAL source_id None) (calendar m))
             m in
  '(free_device, selector') <-
     DeviceSelector.getFreeDevice (device_selector m) (devices m) ;;
  let m := set_device_selector selector' m in
  match free_device with
  | Some idx => dispatch idx request m
  | None =>
      if negb (Buffer.isFull (buffer m))
      then Some (set_buffer (Buffer.addRequest request (buffer m)) m)
      else
        let '(rejected_request, buffer') :=
          Buffer.findRequestToReject (buffer m) in
        let m := set_buffer buffer' m in
        m <- match rejected_request with
             | Some rejected =>
                 source_rejections' <-
                   vec_update (source_rejections m) (Request.source_id rejected) Z.succ ;;
                 let m := set_source_rejections source_rejections' m in
                 let m := set_requests_rejected (requests_rejected m + 1) m in
                 Some (set_buffer (Buffer.removeRequest rejected (buffer m)) m)
             | None => Some m
             end ;;
        Some (set_buffer (Buffer.addRequest request (buffer m)) m)
  end.

Definition total_time (finished_request : Request.t) : Q :=
  Request.finish_service_time finished_request - Request.arrival_time finished_request.

Definition waiting_time (finished_request : Request.t) : Q :=
  Request.start_service_time finished_request - Request.arrival_time finished_request.

(** The statistics of a finished request, first half of
    [processDeparture]. *)
Definition account (device_id : Z) (finished : Request.t) (m : t) : option t :=
  let m := set_requests_served (requests_served m + 1) m in
  let finished_request := Request.set_finish_service_time (current_time m) finished in
  source_total_time' <-
    vec_update (source_total_time m) (Request.source_id finished_request)
               (fun x => Qplus x (total_time finished_request)) ;;
  source_waiting_time' <-
    vec_update (source_waiting_time m) (Request.source_id finished_request)
               (fun x => Qplus x (waiting_time finished_request)) ;;
  device_busy_time' <-
    vec_update (device_busy_time m) device_id
               (fun x => Qplus x (Request.finish_service_time finished_request
                                  - Request.start_service_time finished_request)) ;;
  Some (set_device_busy_time device_busy_time'
          (set_source_waiting_time source_waiting_time'
             (set_source_total_time source_total_time' m))).

(** The second half of [processDeparture]: the next request of the
    buffer goes to a free device. *)
Definition serve_next (m : t) : option t :=
  if negb (Buffer.isEmpty (buffer m))
  then
    let '(next_request, buffer', marker') :=
      Buffer.getNextRequest (buffer m) (current_serving_source m) in
    let m := set_current_serving_source marker' (set_buffer buffer' m) in
    match next_request with
    | Some next =>
        let m := set_buffer (Buffer.removeRequest next (buffer m)) m in
        '(free_device, selector') <-
           DeviceSelector.getFreeDevice (device_selector m) (devices m) ;;
        let m := set_device_selector selector' m in
        match free_device with
        | Some idx => dispatch idx next m
        | None => Some m
        end
    | None => Some m
    end
  else Some m.

Definition processDeparture (device_id : Z) (m : t) : option t :=
  device <- vec_at (devices m) device_id ;;
  let '(finished_request, _) := Device.finishService device in
  devices' <- vec_update (devices m) device_id
                (fun d => snd (Device.finishService d)) ;;
  let m := set_devices devices' m in
  m <- match finished_request with
       | Some finished => account device_id finished m
       | None => Some m
       end ;;
  serve_next m.

(** The condition of the [while] loop of [run]. *)
Definition running (max_time : Q) (max_requests : Z) (m : t) : bool :=
  match calendar m with [] => false | _ => true end
  && Qltb (current_time m) max_time
  && (requests_served m <? max_requests).

(** One iteration of the loop. *)
Definition iteration (m : t) : option t :=
  '(event, calendar') <- top_pop (calendar m) ;;
  let m := set_calendar calendar' m in
  let m := set_current_time (Event.time event) m in
  match Event.type event with
  | Event.ARRIVAL => processArrival (Event.entity_id event) m
  | Event.DEPARTURE => processDeparture (Event.entity_id event) m
  end.

Inductive Outcome : Type :=
| Returned (m : t)        (* the loop was left in state [m] *)
| Undefined               (* undefined behaviour was met *)
| OutOfFuel.              (* more iterations are needed *)

(** [run(max_time, max_requests)]: the loop, at most [fuel]
    iterations; the report that follows prints the final state. *)
Fixpoint run (fuel : nat) (max_time : Q) (max_requests : Z) (m : t) : Outcome :=
  if running max_time max_requests m
  then match fuel with
       | O => OutOfFuel
       | S fuel' =>
           match iteration m with
           | Some m' => run fuel' max_time max_requests m'
           | None => Undefined
           end
       end
  else Returned m.

(** The constructor. The numbers of sources and devices and the size
    of the buffer are local constants there (3, 2 and 3); here they are
    parameters, and [new] below is the constructor itself. *)
Definition make_sources (num_sources : nat) : list Source.t :=
  map (fun i => Source.mk ((3 # 2) + inject_Z (Z.of_nat i) * (1 # 2))
                          ((5 # 2) + inject_Z (Z.of_nat i) * (1 # 2))
                          (Z.of_nat i))
      (seq 0 num_sources).

Definition make_devices (num_devices : nat) : list Device.t :=
  map (fun i => Device.mk (1 / (2 + inject_Z (Z.of_nat i) * 1))
                          (Z.of_nat i) None)
      (seq 0 num_devices).

(** The last loop of the constructor: the first arrival of each
    source. *)
Fixpoint first_arrivals (srcs : list Source.t) (m : t) : t :=
  match srcs with
  | [] => m
  | s :: srcs' =>
      let '(first_time, m) := getNextInterval s m in
      first_arrivals srcs'
        (set_calendar
           (push (Event.mk first_time Event.ARRIVAL (Source.getId s) None)
                 (calendar m)) m)
  end.

Definition construct (num_sources num_devices : nat) (buffer_size : Z) : t :=
  let srcs := make_sources num_sources in
  first_arrivals srcs
    (mk [] srcs (make_devices num_devices) (Buffer.mk [] buffer_size)
        (DeviceSelector.new (Z.of_nat num_devices)) 0 0 0 (-1) 0 0 0
        (repeat 0 num_sources) (repeat 0 num_sources)
        (repeat 0%Q num_sources) (repeat 0%Q num_sources)
        (repeat 0%Q num_devices)).

Definition new : t := construct 3 2 3.

(** The states the loop of [run] can be in, whatever the bounds. *)
Inductive reachable_from (m0 : t) : t -> Prop :=
| reach_init : reachable_from m0 m0
| reach_step : forall m m',
    reachable_from m0 m -> iteration m = Some m' -> reachable_from m0 m'.

Definition reachable : t -> Prop := reachable_from new.

(** [n] iterations in a row. *)
Fixpoint iterate (n : nat) (m : t) : option t :=
  match n with
  | O => Some m
  | S n' => m' <- iteration m ;; iterate n' m'
  end.

End Engine.

End SimulationModel.

(** ** A concrete calendar and concrete variates

    A calendar that takes the first of the events of least time, uniform
    variates at the lower end of their interval and service times of 7
    (slow enough to fill the buffer). They instantiate the two
    collaborators wherever a statement is evaluated. *)

Fixpoint pop_first_least (c : list Event.t) : option (Event.t * list Event.t) :=
  match c with
  | [] => None
  | e :: c' =>
      match pop_first_least c' with
      | None => Some (e, [])
      | Some (e', rest) =>
          if Qle_bool (Event.time e) (Event.time e')
          then Some (e, c')
          else Some (e', e :: rest)
      end
  end.

Definition lowest_uniform (g : nat) (a b : Q) : Q := a.

Definition slow_exponential (g : nat) (l : Q) : Q := 7.

(** [q] without its first entry that satisfies [p]. *)
Fixpoint remove_first (p : Request.t -> bool) (q : list Request.t) : list Request.t :=
  match q with
  | [] => []
  | r :: q' => if p r then q' else r :: remove_first p q'
  end.

Definition opt_list {A : Type} (o : option A) : list A :=
  match o with Some a => [a] | None => [] end.

Definition from_source (s : Z) (r : Request.t) : bool := Request.source_id r =? s.

(** A request of source [s] at address [p], for the examples. *)
Definition request_of_source (p : nat) (s : Z) : Request.t := Request.new p s 1 0.

(** ** The invariants of the loop *)

Definition busy (devices : list Device.t) : Z :=
  Z.of_nat (length (filter (fun d => negb (Device.isFree d)) devices)).

Section EngineInvariant.

Context {cal : Calendar} {var : Variates}.
Import SimulationModel.

Definition event_ok (now : Q) (S D : Z) (e : Event.t) : Prop :=
  (now <= Event.time e)%Q
  /\ match Event.type e with
     | Event.ARRIVAL => 0 <= Event.entity_id e < S
     | Event.DEPARTURE => 0 <= Event.entity_id e < D
     end.

Definition pending_ok (now : Q) (S : Z) (h : nat) (r : Request.t) : Prop :=
  0 <= Request.source_id r < S
  /\ (Request.arrival_time r <= now)%Q
  /\ (Request.ptr r < h)%nat.

Definition device_ok (now : Q) (S : Z) (d : Device.t) : Prop :=
  match Device.current_request d with
  | Some r =>
      0 <= Request.source_id r < S
      /\ (Request.arrival_time r <= Request.start_service_time r)%Q
      /\ (Request.start_service_time r <= now)%Q
  | None => True
  end.

Definition source_ok (s : Source.t) : Prop :=
  (3 # 2 <= Source.min_int s)%Q /\ (Source.min_int s <= Source.max_int s)%Q.

Definition num_sources (m : t) : Z := Z.of_nat (length (sources m)).
Definition num_devices (m : t) : Z := Z.of_nat (length (devices m)).

(** The shape of a state of the loop: vectors of the right sizes, ids in
    range, times in order, the buffer within its capacity. *)
Record Structural (m : t) : Prop := {
  st_selector :
    DeviceSelector.num_devices (device_selector m) = num_devices m
    /\ -1 <= DeviceSelector.last_used (device_selector m)
          < Z.max 0 (DeviceSelector.num_devices (device_selector m));
  st_device_ids :
    forall i d, nth_error (devices m) i = Some d -> Device.device_id d = Z.of_nat i;
  st_vectors :
    length (source_requests m) = length (sources m)
    /\ length (source_rejections m) = length (sources m)
    /\ length (source_total_time m) = length (sources m)
    /\ length (source_waiting_time m) = length (sources m)
    /\ length (device_busy_time m) = length (devices m);
  st_sources : Forall source_ok (sources m);
  st_calendar :
    Forall (event_ok (current_time m) (num_sources m) (num_devices m)) (calendar m);
  st_buffer :
    Forall (pending_ok (current_time m) (num_sources m) (heap m))
           (Buffer.buffer (buffer m));
  st_ptrs : NoDup (map Request.ptr (Buffer.buffer (buffer m)));
  st_devices : Forall (device_ok (current_time m) (num_sources m)) (devices m);
  st_capacity :
    0 < Buffer.max_size (buffer m) < 2 ^ 64
    /\ Z.of_nat (length (Buffer.buffer (buffer m))) <= Buffer.max_size (buffer m)
}.

(** Requests generated and not yet served, rejected, buffered or in
    service: none, in a state of the loop. *)
Definition balance (m : t) : Z :=
  requests_generated m
  - (requests_served m + requests_rejected m
     + Z.of_nat (length (Buffer.buffer (buffer m))) + busy (devices m)).

(** The measure of the loop under the bound [max_time]: a source whose
    next arrival is at time [x] has at most [credit x] arrivals left
    before [max_time], inter-arrival times being 3/2 at least; each
    brings one request, which enters the buffer at most once (weight 2)
    and departs at most once (weight 1). *)
Definition credit (max_time x : Q) : nat :=
  Z.to_nat (Qceiling ((max_time - x) / (3 # 2))).

Definition weight (max_time : Q) (e : Event.t) : nat :=
  match Event.type e with
  | Event.ARRIVAL => 3 * credit max_time (Event.time e)
  | Event.DEPARTURE => 1
  end.

Definition potential (max_time : Q) (m : t) : nat :=
  list_sum (map (weight max_time) (calendar m))
  + 2 * length (Buffer.buffer (buffer m)).

(** What an operation keeps: the clock, the capacity and the
    configuration. *)
Definition same_frame (m m' : t) : Prop :=
  current_time m' = current_time m
  /\ Buffer.max_size (buffer m') = Buffer.max_size (buffer m)
  /\ sources m' = sources m
  /\ length (devices m') = length (devices m).

End EngineInvariant.

(** A state in which no device is free and a buffer of capacity 0 is
    empty: it reports full and has no eviction candidate. *)
Definition saturated : SimulationModel.t :=
  SimulationModel.mk
    [] (SimulationModel.make_sources 3)
    [Device.mk (1 # 2) 0 (Some (request_of_source 0 0));
     Device.mk (1 # 3) 1 (Some (request_of_source 1 1))]
    (Buffer.mk [] 0) (DeviceSelector.mk 1 2) 0 2 0 (-1) 2 0 0
    [1; 1; 0] [0; 0; 0] [0%Q; 0%Q; 0%Q] [0%Q; 0%Q; 0%Q] [0%Q; 0%Q].

(** ** The shapes of a step and the ledger of the loop

    The states the two handlers produce, written out, and the further
    invariants of the loop: the books the engine keeps agree with the
    calendar, the buffer and the devices. *)

Definition count {A : Type} (p : A -> bool) (l : list A) : nat :=
  length (filter p l).

Definition sum_Z (l : list Z) : Z := fold_right Z.add 0 l.

Definition arrival_of (i : Z) (e : Event.t) : bool :=
  match Event.type e with
  | Event.ARRIVAL => Event.entity_id e =? i
  | Event.DEPARTURE => false
  end.

Definition departure_of (i : Z) (e : Event.t) : bool :=
  match Event.type e with
  | Event.ARRIVAL => false
  | Event.DEPARTURE => Event.entity_id e =? i
  end.

Section EngineLedger.

Context {cal : Calendar} {var : Variates}.
Import SimulationModel.

(** [processArrival] up to the choice of a device. *)
Definition arrival_base (s : Z) (interval : Q) (sel' : DeviceSelector.t) (m : t) : t :=
  set_device_selector sel'
    (set_calendar
       (push (Event.mk (current_time m + interval) Event.ARRIVAL s None)
             (calendar m))
       (set_generator (S (generator m))
          (set_heap (S (heap m))
             (set_source_requests
                (update_nth (Z.to_nat s) Z.succ (source_requests m))
                (set_requests_generated (requests_generated m + 1) m))))).

(** [dispatch] on the device [d] at index [idx]. *)
Definition started (idx : Z) (d : Device.t) (r : Request.t) (m : t) : t :=
  set_calendar
    (push (Event.mk (current_time m + exponential (generator m) (Device.lambda d))
                    Event.DEPARTURE (Device.getId d) (Some (Request.ptr r)))
          (calendar m))
    (set_devices
       (update_nth (Z.to_nat idx) (Device.startService r (current_time m)) (devices m))
       (set_generator (S (generator m)) m)).

Definition inserted (r : Request.t) (m : t) : t :=
  set_buffer (Buffer.addRequest r (buffer m)) m.

(** The eviction of [rejected], which leaves the queue [q']. *)
Definition evicted (rejected : Request.t) (q' : list Request.t) (m : t) : t :=
  set_buffer (Buffer.mk q' (Buffer.max_size (buffer m)))
    (set_requests_rejected (requests_rejected m + 1)
       (set_source_rejections
          (update_nth (Z.to_nat (Request.source_id rejected)) Z.succ
                      (source_rejections m))
          m)).

Definition released (dv : Z) (m : t) : t :=
  set_devices
    (update_nth (Z.to_nat dv) (fun d => snd (Device.finishService d)) (devices m)) m.

(** [account] with its three vector updates in range. *)
Definition accounted (dv : Z) (finished : Request.t) (m : t) : t :=
  let finished_request := Request.set_finish_service_time (current_time m) finished in
  set_device_busy_time
    (update_nth (Z.to_nat dv)
       (fun x => Qplus x (Request.finish_service_time finished_request
                          - Request.start_service_time finished_request))
       (device_busy_time m))
    (set_source_waiting_time
       (update_nth (Z.to_nat (Request.source_id finished))
          (fun x => Qplus x (waiting_time finished_request))
          (source_waiting_time m))
       (set_source_total_time
          (update_nth (Z.to_nat (Request.source_id finished))
             (fun x => Qplus x (total_time finished_request))
             (source_total_time m))
          (set_requests_served (requests_served m + 1) m))).

Definition settled (dv : Z) (device : Device.t) (m : t) : t :=
  match Device.current_request device with
  | Some finished => accounted dv finished (released dv m)
  | None => released dv m
  end.

(** [getNextRequest] has left the queue [q'] and the marker [marker']. *)
Definition taken (q' : list Request.t) (marker' : Z) (m : t) : t :=
  set_current_serving_source marker'
    (set_buffer (Buffer.mk q' (Buffer.max_size (buffer m))) m).

Definition at_time (e : Event.t) (rest : list Event.t) (m : t) : t :=
  set_current_time (Event.time e) (set_calendar rest m).

(** The three ways of an arrival. *)
Inductive arrival_shape (s : Z) (m : t) : t -> Prop :=
| arrives_on_device : forall n src idx d,
    vec_at (update_nth (Z.to_nat s) Z.succ (source_requests m)) s = Some n ->
    vec_at (sources m) s = Some src ->
    0 <= idx -> nth_error (devices m) (Z.to_nat idx) = Some d ->
    Device.isFree d = true ->
    arrival_shape s m
      (started idx d (Request.new (heap m) s n (current_time m))
         (arrival_base s
            (uniform_real (generator m) (Source.min_int src) (Source.max_int src))
            (DeviceSelector.mk idx (DeviceSelector.num_devices (device_selector m)))
            m))
| arrives_in_buffer : forall n src,
    vec_at (update_nth (Z.to_nat s) Z.succ (source_requests m)) s = Some n ->
    vec_at (sources m) s = Some src ->
    Forall (fun d => Device.isFree d = false) (devices m) ->
    Buffer.isFull (buffer m) = false ->
    arrival_shape s m
      (inserted (Request.new (heap m) s n (current_time m))
         (arrival_base s
            (uniform_real (generator m) (Source.min_int src) (Source.max_int src))
            (device_selector m) m))
| arrives_and_evicts : forall n src rejected q',
    vec_at (update_nth (Z.to_nat s) Z.succ (source_requests m)) s = Some n ->
    vec_at (sources m) s = Some src ->
    Forall (fun d => Device.isFree d = false) (devices m) ->
    Buffer.isFull (buffer m) = true ->
    Buffer.findRequestToReject_queue (Buffer.buffer (buffer m)) = (Some rejected, q') ->
    arrival_shape s m
      (inserted (Request.new (heap m) s n (current_time m))
         (evicted rejected q'
            (arrival_base s
               (uniform_real (generator m) (Source.min_int src) (Source.max_int src))
               (device_selector m) m))).

(** The three ways of [serve_next]. *)
Inductive serve_shape (m : t) : t -> Prop :=
| serves_nothing :
    Buffer.buffer (buffer m) = [] -> serve_shape m m
| serves_none : forall marker',
    Buffer.buffer (buffer m) <> [] ->
    Buffer.getNextRequest_queue (Buffer.buffer (buffer m)) (current_serving_source m)
    = (None, Buffer.buffer (buffer m), marker') ->
    serve_shape m (taken (Buffer.buffer (buffer m)) marker' m)
| serves_next : forall next q' marker' idx d,
    Buffer.getNextRequest_queue (Buffer.buffer (buffer m)) (current_serving_source m)
    = (Some next, q', marker') ->
    0 <= idx -> nth_error (devices m) (Z.to_nat idx) = Some d ->
    Device.isFree d = true ->
    serve_shape m
      (started idx d next
         (set_device_selector
            (DeviceSelector.mk idx (DeviceSelector.num_devices (device_selector m)))
            (taken q' marker' m))).

(** What the busy time of a device cannot exceed: the start of the
    service under way, or the clock when the device is free. *)
Definition busy_time_bound (now : Q) (d : Device.t) : Q :=
  match Device.current_request d with
  | Some r => Request.start_service_time r
  | None => now
  end.

(** The books of the engine. *)
Record Ledger (m : t) : Prop := {
  lg_arrivals :
    forall i, 0 <= i < num_sources m -> count (arrival_of i) (calendar m) = 1%nat;
  lg_departures :
    forall i d, nth_error (devices m) i = Some d ->
      count (departure_of (Z.of_nat i)) (calendar m)
      = if Device.isFree d then 0%nat else 1%nat;
  lg_generated : sum_Z (source_requests m) = requests_generated m;
  lg_rejected : sum_Z (source_rejections m) = requests_rejected m;
  lg_per_source :
    forall i a b,
      nth_error (source_requests m) i = Some a ->
      nth_error (source_rejections m) i = Some b ->
      0 <= b
      /\ b + Z.of_nat (count (from_source (Z.of_nat i)) (Buffer.buffer (buffer m))) <= a;
  lg_times :
    Forall2 (fun total waiting => (0 <= waiting)%Q /\ (waiting <= total)%Q)
            (source_total_time m) (source_waiting_time m);
  lg_busy_time :
    forall i d x,
      nth_error (devices m) i = Some d ->
      nth_error (device_busy_time m) i = Some x ->
      (0 <= x)%Q /\ (x <= busy_time_bound (current_time m) d)%Q;
  lg_marker :
    current_serving_source m = -1
    \/ 0 <= current_serving_source m < num_sources m;
  lg_clock : (0 <= current_time m)%Q;
  lg_served : 0 <= requests_served m
}.

(** No device idles while a request waits. *)
Definition work_conserving (m : t) : Prop :=
  Buffer.buffer (buffer m) <> [] ->
  Forall (fun d => Device.isFree d = false) (devices m).

(** The numbers [printResults] computes for source [i] and for device
    [i]; the layout of the report is left out. *)
Definition served_requests (m : t) (i : Z) : option Z :=
  requests <- vec_at (source_requests m) i ;;
  rejections <- vec_at (source_rejections m) i ;;
  Some (requests - rejections).

Definition reject_prob (m : t) (i : Z) : option Q :=
  requests <- vec_at (source_requests m) i ;;
  rejections <- vec_at (source_rejections m) i ;;
  Some (if 0 <? requests then inject_Z rejections / inject_Z requests else 0)%Q.

Definition avg_total_time (m : t) (i : Z) : option Q :=
  served <- served_requests m i ;;
  total <- vec_at (source_total_time m) i ;;
  Some (if 0 <? served then total / inject_Z served else 0)%Q.

Definition avg_waiting_time (m : t) (i : Z) : option Q :=
  served <- served_requests m i ;;
  waiting <- vec_at (source_waiting_time m) i ;;
  Some (if 0 <? served then waiting / inject_Z served else 0)%Q.

Definition utilization (m : t) (i : Z) : option Q :=
  busy_time <- vec_at (device_busy_time m) i ;;
  Some (if Qltb 0 (current_time m) then busy_time / current_time m else 0)%Q.

End EngineLedger.

(** * Verification *)

(** ** The buffer's scans *)

Lemma refill_app buffer temp : Buffer.refill buffer temp = buffer ++ temp.
Proof.
  revert buffer. induction temp as [|x temp IH]; intros buffer; simpl.
  - now rewrite app_nil_r.
  - rewrite IH, <- app_assoc. reflexivity.
Qed.

Lemma scan_packet_found s q : forall temp f,
  Buffer.scan_packet s q temp (Some f) = (temp ++ q, Some f).
Proof.
  induction q as [|r q IH]; intros temp f; simpl.
  - now rewrite app_nil_r.
  - rewrite andb_false_r, IH, <- app_assoc. reflexivity.
Qed.

Lemma scan_packet_spec s q : forall temp,
  Buffer.scan_packet s q temp None
  = (temp ++ remove_first (from_source s) q, find (from_source s) q).
Proof.
  induction q as [|r q IH]; intros temp; simpl.
  - now rewrite app_nil_r.
  - unfold from_source at 1 3. rewrite andb_true_r.
    destruct (Request.source_id r =? s).
    + apply scan_packet_found.
    + rewrite IH, <- app_assoc. reflexivity.
Qed.

Lemma remove_first_perm p q r :
  find p q = Some r -> Permutation q (r :: remove_first p q).
Proof.
  induction q as [|x q IH]; simpl; [discriminate|].
  destruct (p x); intros H.
  - inversion H; subst. reflexivity.
  - rewrite (IH H) at 1. apply perm_swap.
Qed.

Lemma remove_first_none p q : find p q = None -> remove_first p q = q.
Proof.
  induction q as [|x q IH]; simpl; [reflexivity|].
  destruct (p x); [discriminate|]. intros H. now rewrite IH.
Qed.

Lemma first_smallest_least q : forall m,
  first_smallest q = Some m ->
  Forall (fun x => Request.source_id m <= Request.source_id x) q.
Proof.
  induction q as [|r q IH]; intros m H; [constructor|].
  simpl in H. destruct (first_smallest q) as [m'|] eqn:E.
  - specialize (IH _ eq_refl).
    destruct (Request.source_id r <=? Request.source_id m') eqn:L;
      inversion H; subst; clear H.
    + apply Z.leb_le in L. constructor; [lia|].
      eapply Forall_impl; [|exact IH]. simpl. intros; lia.
    + apply Z.leb_gt in L. constructor; [lia|exact IH].
  - inversion H; subst. destruct q as [|y q]; [repeat constructor; lia|].
    simpl in E. destruct (first_smallest q); [destruct (_ <=? _)|]; discriminate.
Qed.

Lemma first_smallest_cons r q : exists m, first_smallest (r :: q) = Some m.
Proof.
  simpl. destruct (first_smallest q); [destruct (_ <=? _)|]; eauto.
Qed.

(** The first of the entries of least source: strictly larger sources
    before it, none smaller after it. *)
Lemma first_smallest_split q : forall m,
  first_smallest q = Some m ->
  exists l1 l2, q = l1 ++ m :: l2
    /\ Forall (fun x => Request.source_id m < Request.source_id x) l1
    /\ Forall (fun x => Request.source_id m <= Request.source_id x) l2.
Proof.
  induction q as [|r q IH]; intros m H; [discriminate|].
  pose proof (first_smallest_least _ _ H) as Hall.
  simpl in H. destruct (first_smallest q) as [m'|] eqn:E.
  - destruct (Request.source_id r <=? Request.source_id m') eqn:L;
      inversion H; subst; clear H.
    + exists [], q. repeat split; [constructor|now inversion Hall].
    + apply Z.leb_gt in L.
      destruct (IH _ eq_refl) as (l1 & l2 & -> & H1 & H2).
      exists (r :: l1), l2. repeat split; [constructor; [lia|exact H1]|exact H2].
  - inversion H; subst. exists [], q. repeat split; [constructor|now inversion Hall].
Qed.

Lemma first_smallest_skip b r q :
  Request.source_id b <= Request.source_id r ->
  first_smallest (b :: r :: q) = first_smallest (b :: q).
Proof.
  intros Hbr. simpl. destruct (first_smallest q) as [m|]; simpl.
  - destruct (Request.source_id r <=? Request.source_id m) eqn:L1.
    + apply Z.leb_le in L1.
      replace (Request.source_id b <=? Request.source_id r) with true
        by (symmetry; apply Z.leb_le; lia).
      replace (Request.source_id b <=? Request.source_id m) with true
        by (symmetry; apply Z.leb_le; lia).
      reflexivity.
    + reflexivity.
  - replace (Request.source_id b <=? Request.source_id r) with true
      by (symmetry; apply Z.leb_le; lia).
    reflexivity.
Qed.

Lemma first_smallest_replace b r q :
  Request.source_id r < Request.source_id b ->
  first_smallest (b :: r :: q) = first_smallest (r :: q).
Proof.
  intros Hrb. destruct (first_smallest_cons r q) as [m E].
  pose proof (first_smallest_least _ _ E) as Hall. inversion Hall; subst.
  change (first_smallest (b :: r :: q))
    with (match first_smallest (r :: q) with
          | Some m => if Request.source_id b <=? Request.source_id m
                      then Some b else Some m
          | None => Some b
          end).
  rewrite E.
  replace (Request.source_id b <=? Request.source_id m) with false
    by (symmetry; apply Z.leb_gt; lia).
  reflexivity.
Qed.

Lemma scan_best_spec q : forall temp b,
  exists temp' m,
    Buffer.scan_best q temp (Some b) (Request.source_id b)
    = (temp', Some m, Request.source_id m)
    /\ first_smallest (b :: q) = Some m.
Proof.
  induction q as [|r q IH]; intros temp b.
  - exists temp, b. split; reflexivity.
  - cbn [Buffer.scan_best].
    destruct (Request.source_id r <? Request.source_id b) eqn:L.
    + apply Z.ltb_lt in L.
      destruct (IH (temp ++ [b]) r) as (temp' & m & E & F).
      exists temp', m. split; [exact E|].
      now rewrite first_smallest_replace.
    + apply Z.ltb_ge in L.
      destruct (IH (temp ++ [r]) b) as (temp' & m & E & F).
      exists temp', m. split; [exact E|].
      now rewrite first_smallest_skip.
Qed.

Lemma push_back_opt (temp : list Request.t) best :
  match best with Some b => temp ++ [b] | None => temp end = temp ++ opt_list best.
Proof. destruct best; simpl; [reflexivity|now rewrite app_nil_r]. Qed.

Lemma perm_rotate (r : Request.t) ob temp q :
  Permutation (r :: (temp ++ ob) ++ q) (ob ++ temp ++ r :: q).
Proof.
  transitivity (r :: (ob ++ temp) ++ q).
  - apply perm_skip, Permutation_app_tail, Permutation_app_comm.
  - rewrite (app_assoc ob temp (r :: q)). apply Permutation_middle.
Qed.

(** What a scan leaves: the entries it went through, the candidate apart. *)
Lemma scan_best_perm q : forall temp best bs temp' best' bs',
  Buffer.scan_best q temp best bs = (temp', best', bs') ->
  Permutation (opt_list best' ++ temp') (opt_list best ++ temp ++ q).
Proof.
  induction q as [|r q IH]; intros temp best bs temp' best' bs' H; simpl in H.
  - inversion H; subst. now rewrite app_nil_r.
  - destruct (Request.source_id r <? bs).
    + apply IH in H. rewrite H, push_back_opt. simpl. apply perm_rotate.
    + apply IH in H. rewrite H, <- app_assoc. reflexivity.
Qed.

Lemma scan_best_some q : forall temp x s,
  snd (fst (Buffer.scan_best q temp (Some x) s)) <> None.
Proof.
  induction q as [|y q IH]; intros temp x s; simpl; [discriminate|].
  destruct (_ <? _); apply IH.
Qed.

Lemma scan_best_none q : forall temp bs temp' bs',
  Buffer.scan_best q temp None bs = (temp', None, bs') -> temp' = temp ++ q.
Proof.
  induction q as [|r q IH]; intros temp bs temp' bs' H; simpl in H.
  - inversion H. now rewrite app_nil_r.
  - destruct (Request.source_id r <? bs).
    + exfalso. apply (scan_best_some q temp r (Request.source_id r)).
      now rewrite H.
    + apply IH in H. now rewrite <- app_assoc in H.
Qed.

Lemma scan_worst_perm q : forall temp worst ws temp' worst',
  Buffer.scan_worst q temp worst ws = (temp', worst') ->
  Permutation (opt_list worst' ++ temp') (opt_list worst ++ temp ++ q).
Proof.
  induction q as [|r q IH]; intros temp worst ws temp' worst' H; simpl in H.
  - inversion H; subst. now rewrite app_nil_r.
  - destruct (ws <? Request.source_id r).
    + apply IH in H. rewrite H, push_back_opt. simpl. apply perm_rotate.
    + apply IH in H. rewrite H, <- app_assoc. reflexivity.
Qed.

Lemma scan_worst_some q : forall temp x s,
  snd (Buffer.scan_worst q temp (Some x) s) <> None.
Proof.
  induction q as [|y q IH]; intros temp x s; simpl; [discriminate|].
  destruct (_ <? _); apply IH.
Qed.

Lemma scan_worst_none q : forall temp ws temp',
  Buffer.scan_worst q temp None ws = (temp', None) -> temp' = temp ++ q.
Proof.
  induction q as [|r q IH]; intros temp ws temp' H; simpl in H.
  - inversion H. now rewrite app_nil_r.
  - destruct (ws <? Request.source_id r).
    + exfalso. apply (scan_worst_some q temp r (Request.source_id r)).
      now rewrite H.
    + apply IH in H. now rewrite <- app_assoc in H.
Qed.

(** The candidate of the eviction scan is of the largest source. *)
Lemma scan_worst_spec q : forall temp w,
  exists temp' m,
    Buffer.scan_worst q temp (Some w) (Request.source_id w) = (temp', Some m)
    /\ In m (w :: q)
    /\ Forall (fun x => Request.source_id x <= Request.source_id m) (w :: q).
Proof.
  induction q as [|r q IH]; intros temp w.
  - exists temp, w. repeat split; [now left|repeat constructor; lia].
  - cbn [Buffer.scan_worst].
    destruct (Request.source_id w <? Request.source_id r) eqn:L.
    + apply Z.ltb_lt in L.
      destruct (IH (temp ++ [w]) r) as (temp' & m & E & Hin & Hall).
      exists temp', m. repeat split; [exact E|now right|].
      inversion Hall; subst. constructor; [lia|assumption].
    + apply Z.ltb_ge in L.
      destruct (IH (temp ++ [r]) w) as (temp' & m & E & Hin & Hall).
      exists temp', m. split; [exact E|]. split.
      * destruct Hin as [->|Hin]; [now left|now right; right].
      * inversion Hall; subst. repeat constructor; [assumption|lia|assumption].
Qed.

Lemma remove_scan_spec request q : forall temp,
  Buffer.remove_scan request q temp
  = temp ++ filter (fun req => negb (Nat.eqb (Request.ptr req) (Request.ptr request))) q.
Proof.
  induction q as [|r q IH]; intros temp; simpl.
  - now rewrite app_nil_r.
  - destruct (negb _); rewrite IH; [now rewrite <- app_assoc|reflexivity].
Qed.

(** Removing a request whose address is not in the queue changes nothing. *)
Lemma removeRequest_absent request q :
  ~ In (Request.ptr request) (map Request.ptr q) ->
  Buffer.removeRequest_queue request q = q.
Proof.
  unfold Buffer.removeRequest_queue. rewrite refill_app, remove_scan_spec. simpl.
  induction q as [|r q IH]; simpl; intros H; [reflexivity|].
  destruct (Nat.eqb_spec (Request.ptr r) (Request.ptr request)) as [e|n]; simpl.
  - exfalso. apply H. now left.
  - rewrite IH; [reflexivity|]. intros Hin. apply H. now right.
Qed.

(** [getNextRequest] takes the request it returns out of the queue, and
    keeps every other entry. *)
Lemma getNextRequest_queue_perm q marker r q' marker' :
  Buffer.getNextRequest_queue q marker = (Some r, q', marker') ->
  Permutation q (r :: q').
Proof.
  assert (B : forall q m r q' m',
             Buffer.select_best q m = (Some r, q', m') -> Permutation q (r :: q')).
  { clear. intros q m r q' m'. unfold Buffer.select_best.
    destruct q as [|x q]; [discriminate|].
    destruct (Buffer.scan_best (x :: q) [] None INT_MAX) as [[temp best] bs] eqn:E.
    apply scan_best_perm in E. rewrite refill_app, app_nil_l.
    destruct best; intros H; inversion H; subst. simpl in E. now symmetry. }
  unfold Buffer.getNextRequest_queue. destruct q as [|x q]; [discriminate|].
  destruct (negb (marker =? -1)); [|apply B].
  rewrite scan_packet_spec, refill_app, !app_nil_l.
  destruct (find (from_source marker) (x :: q)) as [f|] eqn:F.
  - intros [= <- <- <-]. exact (remove_first_perm _ (x :: q) _ F).
  - rewrite (remove_first_none _ _ F). apply B.
Qed.

Lemma getNextRequest_queue_none q marker q' marker' :
  Buffer.getNextRequest_queue q marker = (None, q', marker') -> q' = q.
Proof.
  assert (B : forall q m q' m',
             Buffer.select_best q m = (None, q', m') -> q' = q).
  { clear. intros q m q' m'. unfold Buffer.select_best.
    destruct q as [|x q]; [now intros H; inversion H|].
    destruct (Buffer.scan_best (x :: q) [] None INT_MAX) as [[temp best] bs] eqn:E.
    rewrite refill_app, app_nil_l.
    destruct best; intros H; inversion H; subst.
    now apply scan_best_none in E. }
  unfold Buffer.getNextRequest_queue.
  destruct q as [|x q]; [now intros H; inversion H|].
  destruct (negb (marker =? -1)); [|apply B].
  rewrite scan_packet_spec, refill_app, !app_nil_l.
  destruct (find (from_source marker) (x :: q)) as [f|] eqn:F.
  - discriminate.
  - rewrite (remove_first_none _ _ F). apply B.
Qed.

Lemma findRequestToReject_queue_perm q r q' :
  Buffer.findRequestToReject_queue q = (Some r, q') -> Permutation q (r :: q').
Proof.
  unfold Buffer.findRequestToReject_queue. destruct q as [|x q]; [discriminate|].
  destruct (Buffer.scan_worst (x :: q) [] None (-1)) as [temp worst] eqn:E.
  apply scan_worst_perm in E. rewrite refill_app, app_nil_l.
  intros H; inversion H; subst. simpl in E. now symmetry.
Qed.

Lemma findRequestToReject_queue_none q q' :
  Buffer.findRequestToReject_queue q = (None, q') -> q' = q.
Proof.
  unfold Buffer.findRequestToReject_queue.
  destruct q as [|x q]; [now intros H; inversion H|].
  destruct (Buffer.scan_worst (x :: q) [] None (-1)) as [temp worst] eqn:E.
  rewrite refill_app, app_nil_l.
  intros H; inversion H; subst. now apply scan_worst_none in E.
Qed.

(** With sources from 0 on, a non-empty queue has an eviction candidate,
    and it is of the largest source. *)
Lemma findRequestToReject_queue_spec q :
  q <> [] -> Forall (fun r => 0 <= Request.source_id r) q ->
  exists r q', Buffer.findRequestToReject_queue q = (Some r, q')
    /\ In r q
    /\ Forall (fun x => Request.source_id x <= Request.source_id r) q.
Proof.
  destruct q as [|x q]; [congruence|]. intros _ H. inversion H; subst.
  unfold Buffer.findRequestToReject_queue. cbn [Buffer.scan_worst].
  replace (-1 <? Request.source_id x) with true by (symmetry; apply Z.ltb_lt; lia).
  destruct (scan_worst_spec q [] x) as (temp' & m & E & Hin & Hall).
  rewrite E. eauto.
Qed.

Lemma select_best_selected q m :
  Forall (fun r => Request.source_id r < INT_MAX) q ->
  exists q',
    Buffer.select_best q m
    = (first_smallest q, q',
       match first_smallest q with Some r => Request.source_id r | None => -1 end).
Proof.
  intros H. destruct q as [|x q]; [now exists []|].
  inversion H; subst. unfold Buffer.select_best. cbn [Buffer.scan_best].
  replace (Request.source_id x <? INT_MAX) with true
    by (symmetry; now apply Z.ltb_lt).
  destruct (scan_best_spec q [] x) as (temp' & r & E & F).
  rewrite E, F. eauto.
Qed.

Lemma getNextRequest_queue_selected q marker :
  Forall (fun r => Request.source_id r < INT_MAX) q ->
  exists q',
    Buffer.getNextRequest_queue q marker
    = (fst (selectNext_spec q marker), q', snd (selectNext_spec q marker)).
Proof.
  intros H. unfold Buffer.getNextRequest_queue, selectNext_spec.
  destruct q as [|x q]; [now exists []|].
  destruct (marker =? -1) eqn:M; cbn [negb].
  - destruct (select_best_selected (x :: q) marker H) as [q' E]. rewrite E.
    exists q'. destruct (first_smallest (x :: q)); reflexivity.
  - rewrite scan_packet_spec, refill_app, !app_nil_l.
    fold (from_source marker).
    destruct (find (from_source marker) (x :: q)) as [f|] eqn:F; [eauto|].
    rewrite (remove_first_none _ _ F).
    destruct (select_best_selected (x :: q) (-1) H) as [q' E]. rewrite E.
    exists q'. destruct (first_smallest (x :: q)); reflexivity.
Qed.

(** C1. [getNextRequest] follows the selection discipline of the
    specification ([selectNext_spec]): nothing and no marker on an empty
    buffer; a request of the serving source, marker unchanged, when the
    marker names a source and the buffer holds a request of it; otherwise
    the first of the requests of the smallest source, whose source becomes
    the marker. Source ids are below [INT_MAX], the initial bound of the
    scan. *)
Theorem getNextRequest_discipline (b : Buffer.t) (marker : Z) :
  Forall (fun r => Request.source_id r < INT_MAX) (Buffer.buffer b) ->
  let q := Buffer.buffer b in
  let res := Buffer.getNextRequest b marker in
  (fst (fst res), snd res) = selectNext_spec q marker
  /\ (q = [] -> fst (fst res) = None /\ snd res = -1)
  /\ (marker <> -1 ->
      (exists r, In r q /\ Request.source_id r = marker) ->
      exists r, fst (fst res) = Some r /\ In r q
                /\ Request.source_id r = marker /\ snd res = marker)
  /\ (q <> [] ->
      marker = -1 \/ (forall r, In r q -> Request.source_id r <> marker) ->
      exists l1 r l2,
        q = l1 ++ r :: l2
        /\ Forall (fun x => Request.source_id r < Request.source_id x) l1
        /\ Forall (fun x => Request.source_id r <= Request.source_id x) l2
        /\ fst (fst res) = Some r /\ snd res = Request.source_id r).
Proof.
  intros H q res.
  assert (E : (fst (fst res), snd res) = selectNext_spec q marker).
  { subst res. unfold Buffer.getNextRequest. fold q.
    destruct (getNextRequest_queue_selected q marker H) as [q' ->].
    simpl. now destruct (selectNext_spec q marker). }
  split; [exact E|]. rewrite (surjective_pairing (selectNext_spec q marker)) in E.
  injection E as -> ->. clearbody q. clear res H. repeat split.
  - now subst q.
  - now subst q.
  - intros Hm (r & Hin & Hr). unfold selectNext_spec.
    destruct q as [|x q]; [contradiction|].
    replace (marker =? -1) with false by (symmetry; now apply Z.eqb_neq).
    destruct (find (fun r => Request.source_id r =? marker) (x :: q)) as [f|] eqn:F.
    + apply find_some in F as [Hf Hs]. apply Z.eqb_eq in Hs.
      exists f. now repeat split.
    + exfalso. apply (find_none _ _ F) in Hin. apply Z.eqb_neq in Hin. contradiction.
  - intros Hq Hm. unfold selectNext_spec.
    destruct q as [|x q]; [congruence|].
    assert (F : (if marker =? -1 then None
                 else find (fun r => Request.source_id r =? marker) (x :: q)) = None).
    { destruct (marker =? -1) eqn:M; [reflexivity|].
      destruct Hm as [->|Hm]; [discriminate|].
      destruct (find _ (x :: q)) as [f|] eqn:F; [|reflexivity].
      apply find_some in F as [Hf Hs]. apply Z.eqb_eq in Hs.
      now apply Hm in Hf. }
    rewrite F. destruct (first_smallest_cons x q) as [m Em]. rewrite Em.
    destruct (first_smallest_split _ _ Em) as (l1 & l2 & Hs & H1 & H2).
    exists l1, m, l2. now repeat split.
Qed.

(** C8, as the code has it. [getNextRequest] itself takes the request it
    returns out of the buffer: the buffer is left with every other entry
    (in some order), so the [removeRequest] that follows in the engine
    finds nothing to remove when addresses are distinct. When nothing is
    returned the buffer is unchanged. *)
Theorem getNextRequest_removes (b : Buffer.t) (marker : Z) :
  let res := Buffer.getNextRequest b marker in
  let b' := snd (fst res) in
  Buffer.max_size b' = Buffer.max_size b
  /\ match fst (fst res) with
     | Some r =>
         Permutation (Buffer.buffer b) (r :: Buffer.buffer b')
         /\ (NoDup (map Request.ptr (Buffer.buffer b)) ->
             Buffer.removeRequest r b' = b')
     | None => Buffer.buffer b' = Buffer.buffer b
     end.
Proof.
  unfold Buffer.getNextRequest.
  destruct (Buffer.getNextRequest_queue (Buffer.buffer b) marker) as [[r q'] m'] eqn:E.
  simpl. split; [reflexivity|]. destruct r as [r|].
  - pose proof (getNextRequest_queue_perm _ _ _ _ _ E) as P.
    split; [exact P|]. intros N. unfold Buffer.removeRequest. simpl. f_equal.
    apply removeRequest_absent.
    apply (Permutation_map Request.ptr) in P.
    apply (Permutation_NoDup P) in N. simpl in N. now inversion N.
  - now apply getNextRequest_queue_none in E.
Qed.

(** The claim C8 as stated fails: a buffer holding one request no longer
    holds it after [getNextRequest] returned it. *)
Lemma getNextRequest_keeps_buffer_fails :
  ~ (forall b marker,
        Buffer.buffer (snd (fst (Buffer.getNextRequest b marker))) = Buffer.buffer b).
Proof.
  intros H.
  specialize (H (Buffer.mk [request_of_source 0 0] 3) (-1)).
  vm_compute in H. discriminate.
Qed.

(** C2. On a non-empty buffer (of sources from 0 on, the scan's initial
    bound being -1) [findRequestToReject] returns a request of the buffer
    whose source is the largest there; on the buffer of sources 1, 2, 0 it
    returns the request of source 2. *)
Theorem findRequestToReject_largest :
  (forall b : Buffer.t,
      Buffer.buffer b <> [] ->
      Forall (fun r => 0 <= Request.source_id r) (Buffer.buffer b) ->
      exists r, fst (Buffer.findRequestToReject b) = Some r
        /\ In r (Buffer.buffer b)
        /\ Forall (fun x => Request.source_id x <= Request.source_id r)
                  (Buffer.buffer b))
  /\ fst (Buffer.findRequestToReject
            (Buffer.mk [request_of_source 0 1; request_of_source 1 2;
                        request_of_source 2 0] 3))
     = Some (request_of_source 1 2).
Proof.
  split; [|reflexivity].
  intros b Hne Hpos. unfold Buffer.findRequestToReject.
  destruct (findRequestToReject_queue_spec _ Hne Hpos) as (r & q' & E & Hin & Hall).
  rewrite E. exists r. now repeat split.
Qed.

(** The general statement at a buffer of sources 0, 2, 2, 1. *)
Lemma findRequestToReject_largest_witness :
  let b := Buffer.mk [request_of_source 0 0; request_of_source 1 2;
                      request_of_source 2 2; request_of_source 3 1] 4 in
  exists r, fst (Buffer.findRequestToReject b) = Some r
    /\ In r (Buffer.buffer b)
    /\ Forall (fun x => Request.source_id x <= Request.source_id r) (Buffer.buffer b).
Proof.
  intros b. apply (proj1 findRequestToReject_largest b).
  - discriminate.
  - repeat constructor; discriminate.
Defined.

(** The selection discipline at the buffer of sources 1 and 0 with the
    marker at 1: the hypothesis of C1 holds there. *)
Lemma getNextRequest_discipline_witness :
  let b := Buffer.mk [request_of_source 0 1; request_of_source 1 0] 3 in
  let res := Buffer.getNextRequest b 1 in
  (fst (fst res), snd res) = (Some (request_of_source 0 1), 1)
  /\ (fst (fst res), snd res) = selectNext_spec (Buffer.buffer b) 1.
Proof.
  intros b res. split; [reflexivity|].
  apply (getNextRequest_discipline b 1).
  repeat constructor.
Defined.

(** ** The device selector *)

Lemma c_rem_pos a n : 0 <= a -> 0 < n -> DeviceSelector.c_rem a n = Some (a mod n).
Proof.
  intros Ha Hn. unfold DeviceSelector.c_rem.
  replace (n =? 0) with false by (symmetry; apply Z.eqb_neq; lia).
  now rewrite Z.rem_mod_nonneg by lia.
Qed.

Lemma vec_at_nth {A} (v : list A) i :
  0 <= i -> vec_at v i = nth_error v (Z.to_nat i).
Proof.
  intros Hi. unfold vec_at.
  now replace (i <? 0) with false by (symmetry; apply Z.ltb_ge; lia).
Qed.

Lemma vec_at_Some {A} (v : list A) i :
  0 <= i < Z.of_nat (length v) -> exists x, vec_at v i = Some x.
Proof.
  intros Hi. rewrite vec_at_nth by lia.
  destruct (nth_error v (Z.to_nat i)) as [x|] eqn:E; [eauto|].
  apply nth_error_None in E. lia.
Qed.

Lemma vec_at_In {A} (v : list A) i x : vec_at v i = Some x -> In x v.
Proof.
  unfold vec_at. destruct (i <? 0); [discriminate|]. apply nth_error_In.
Qed.

(** The loop of [getFreeDevice] finds the first free device among the
    [fuel] indices that follow [start_index + i]. *)
Lemma scan_find devices sel start : forall fuel i,
  let n := Z.of_nat (length devices) in
  DeviceSelector.num_devices sel = n -> 0 < n -> 0 <= start -> 0 <= i ->
  DeviceSelector.scan fuel i start sel devices
  = Some match find (is_free_at devices)
                    (map (fun k => (start + i + Z.of_nat k) mod n) (seq 0 fuel)) with
         | Some idx => (Some idx, DeviceSelector.mk idx n)
         | None => (None, sel)
         end.
Proof.
  intros fuel i n Hn Hpos Hs. revert i.
  induction fuel as [|fuel IH]; intros i Hi; [reflexivity|].
  cbn [DeviceSelector.scan seq map find]. rewrite Hn.
  rewrite c_rem_pos by lia. cbn [bind].
  assert (Hr : 0 <= (start + i) mod n < n) by (apply Z.mod_pos_bound; lia).
  destruct (vec_at_Some devices ((start + i) mod n)) as [d Ed]; [lia|].
  rewrite Ed. cbn [bind]. rewrite Z.add_0_r.
  unfold is_free_at at 1. rewrite vec_at_nth in Ed by lia. rewrite Ed.
  destruct (Device.isFree d); [reflexivity|].
  assert (EQ : map (fun k => (start + (i + 1) + Z.of_nat k) mod n) (seq 0 fuel)
               = map (fun k => (start + i + Z.of_nat k) mod n) (seq 1 fuel)).
  { rewrite <- seq_shift, map_map. apply map_ext. intros k. f_equal. lia. }
  rewrite IH by lia. now rewrite EQ.
Qed.

Lemma getFreeDevice_selectFree (sel : DeviceSelector.t) (devices : list Device.t) :
  DeviceSelector.num_devices sel = Z.of_nat (length devices) ->
  -1 <= DeviceSelector.last_used sel < Z.max 0 (DeviceSelector.num_devices sel) ->
  DeviceSelector.getFreeDevice sel devices
  = Some (fst (selectFree_spec (DeviceSelector.last_used sel) devices),
          DeviceSelector.mk
            (snd (selectFree_spec (DeviceSelector.last_used sel) devices))
            (DeviceSelector.num_devices sel)).
Proof.
  intros Hn Hc. unfold DeviceSelector.getFreeDevice, selectFree_spec.
  destruct devices as [|d devices].
  - simpl. now destruct sel.
  - set (ds := d :: devices) in *.
    assert (Hpos : 0 < Z.of_nat (length ds)) by (subst ds; simpl; lia).
    rewrite c_rem_pos by lia. cbn [bind].
    rewrite scan_find; try lia.
    2: { apply Z.mod_pos_bound. lia. }
    rewrite Hn, Nat2Z.id. unfold rotated_order.
    replace (map (fun k => ((DeviceSelector.last_used sel + 1) mod Z.of_nat (length ds)
                            + 0 + Z.of_nat k) mod Z.of_nat (length ds))
                 (seq 0 (length ds)))
      with (map (fun i => (DeviceSelector.last_used sel + 1 + Z.of_nat i)
                          mod Z.of_nat (length ds)) (seq 0 (length ds))).
    + destruct (find _ _); [reflexivity|]. simpl. now destruct sel; simpl in *; subst.
    + apply map_ext. intros k. rewrite Z.add_0_r.
      now rewrite Zplus_mod_idemp_l.
Qed.

(** C5. Given a selector built for the pool (its [num_devices] is the
    pool's size, its cursor is -1 or an index of the pool),
    [getFreeDevice] returns the first free device in the rotated order
    that starts just after the cursor, and moves the cursor there; when
    all devices are busy it returns none and the cursor stays. With two
    free devices, three calls in a row return device 0, 1 and 0. *)
Theorem getFreeDevice_round_robin :
  (forall (sel : DeviceSelector.t) (devices : list Device.t),
      DeviceSelector.num_devices sel = Z.of_nat (length devices) ->
      -1 <= DeviceSelector.last_used sel < Z.max 0 (DeviceSelector.num_devices sel) ->
      DeviceSelector.getFreeDevice sel devices
      = Some (fst (selectFree_spec (DeviceSelector.last_used sel) devices),
              DeviceSelector.mk
                (snd (selectFree_spec (DeviceSelector.last_used sel) devices))
                (DeviceSelector.num_devices sel)))
  /\ (let devices := [Device.mk (1 # 2) 0 None; Device.mk (1 # 3) 1 None] in
      exists s1 s2 s3,
        DeviceSelector.getFreeDevice (DeviceSelector.new 2) devices = Some (Some 0, s1)
        /\ DeviceSelector.getFreeDevice s1 devices = Some (Some 1, s2)
        /\ DeviceSelector.getFreeDevice s2 devices = Some (Some 0, s3)).
Proof.
  split; [exact getFreeDevice_selectFree|].
  do 3 eexists. repeat split.
Qed.

(** The general statement at a pool of three devices, the second one
    busy, with the cursor on the first one: the third device is returned. *)
Lemma getFreeDevice_round_robin_witness :
  let devices := [Device.mk (1 # 2) 0 None;
                  Device.mk (1 # 3) 1 (Some (request_of_source 0 0));
                  Device.mk (1 # 4) 2 None] in
  DeviceSelector.getFreeDevice (DeviceSelector.mk 0 3) devices
  = Some (Some 2, DeviceSelector.mk 2 3).
Proof.
  intros devices.
  apply (proj1 getFreeDevice_round_robin (DeviceSelector.mk 0 3) devices).
  - reflexivity.
  - simpl. lia.
Defined.

Lemma rotated_order_range cursor n idx :
  In idx (rotated_order cursor n) -> 0 <= idx < Z.of_nat n.
Proof.
  unfold rotated_order. rewrite in_map_iff. intros (k & <- & Hk).
  apply in_seq in Hk. apply Z.mod_pos_bound. lia.
Qed.

Lemma rotated_order_complete cursor n i :
  (i < n)%nat -> In (Z.of_nat i) (rotated_order cursor n).
Proof.
  intros Hi. unfold rotated_order. rewrite in_map_iff.
  exists (Z.to_nat ((Z.of_nat i - cursor - 1) mod Z.of_nat n)).
  assert (Hr : 0 <= (Z.of_nat i - cursor - 1) mod Z.of_nat n < Z.of_nat n)
    by (apply Z.mod_pos_bound; lia).
  split; [|apply in_seq; lia].
  rewrite Z2Nat.id by lia. rewrite Zplus_mod_idemp_r.
  replace (cursor + 1 + (Z.of_nat i - cursor - 1)) with (Z.of_nat i) by lia.
  apply Z.mod_small. lia.
Qed.

(** What the engine needs of [getFreeDevice]: a free device of the pool
    is returned whenever there is one. *)
Lemma getFreeDevice_cases (sel : DeviceSelector.t) (devices : list Device.t) :
  DeviceSelector.num_devices sel = Z.of_nat (length devices) ->
  -1 <= DeviceSelector.last_used sel < Z.max 0 (DeviceSelector.num_devices sel) ->
  (exists idx d,
      DeviceSelector.getFreeDevice sel devices
      = Some (Some idx, DeviceSelector.mk idx (DeviceSelector.num_devices sel))
      /\ 0 <= idx < Z.of_nat (length devices)
      /\ nth_error devices (Z.to_nat idx) = Some d
      /\ Device.isFree d = true)
  \/ (DeviceSelector.getFreeDevice sel devices = Some (None, sel)
      /\ Forall (fun d => Device.isFree d = false) devices).
Proof.
  intros Hn Hc. rewrite (getFreeDevice_selectFree sel devices Hn Hc).
  unfold selectFree_spec.
  destruct (find _ _) as [idx|] eqn:F.
  - left. apply find_some in F as [Hin Hfree].
    apply rotated_order_range in Hin. unfold is_free_at in Hfree.
    destruct (nth_error devices (Z.to_nat idx)) as [d|] eqn:E; [|discriminate].
    exists idx, d. now repeat split.
  - right. split; [now destruct sel|].
    apply Forall_forall. intros d Hd. apply In_nth_error in Hd as [i Hi].
    assert (Hlt : (i < length devices)%nat) by (apply nth_error_Some; congruence).
    pose proof (find_none _ _ F _ (rotated_order_complete
                  (DeviceSelector.last_used sel) _ _ Hlt)) as Hb.
    unfold is_free_at in Hb. now rewrite Nat2Z.id, Hi in Hb.
Qed.

(** ** Vectors *)

Lemma update_nth_length {A} (f : A -> A) v : forall n,
  length (update_nth n f v) = length v.
Proof.
  induction v as [|x v IH]; intros [|n]; simpl; auto.
Qed.

Lemma update_nth_Forall {A} (P : A -> Prop) (f : A -> A) v : forall n x,
  nth_error v n = Some x -> Forall P v -> P (f x) -> Forall P (update_nth n f v).
Proof.
  induction v as [|y v IH]; intros [|n] x E H Hf; simpl in *; try discriminate.
  - inversion E; subst. inversion H; subst. now constructor.
  - inversion H; subst. constructor; [assumption|]. eapply IH; eassumption.
Qed.

Lemma update_nth_nth_error {A} (f : A -> A) v : forall n i,
  nth_error (update_nth n f v) i
  = if Nat.eqb n i then option_map f (nth_error v i) else nth_error v i.
Proof.
  induction v as [|y v IH]; intros [|n] [|i]; simpl; auto;
    now destruct (Nat.eqb n i).
Qed.

Lemma vec_update_Some {A} (v : list A) i (f : A -> A) :
  0 <= i < Z.of_nat (length v) ->
  vec_update v i f = Some (update_nth (Z.to_nat i) f v).
Proof.
  intros Hi. unfold vec_update. now destruct (vec_at_Some v i Hi) as [x ->].
Qed.

Lemma busy_update_nth (f : Device.t -> Device.t) devices : forall n d,
  nth_error devices n = Some d ->
  busy (update_nth n f devices)
  = busy devices
    - (if Device.isFree d then 0 else 1) + (if Device.isFree (f d) then 0 else 1).
Proof.
  unfold busy.
  induction devices as [|x devices IH]; intros [|n] d E;
    cbn [nth_error update_nth filter] in *; try discriminate.
  - inversion E; subst.
    destruct (Device.isFree d), (Device.isFree (f d)); cbn [negb length]; lia.
  - specialize (IH _ _ E). destruct (Device.isFree x); cbn [negb length]; lia.
Qed.

Lemma list_sum_perm l l' : Permutation l l' -> list_sum l = list_sum l'.
Proof.
  induction 1; simpl; lia.
Qed.

Lemma credit_step max_time x y :
  (x < max_time)%Q -> (x + (3 # 2) <= y)%Q ->
  (credit max_time y + 1 <= credit max_time x)%nat.
Proof.
  intros Hx Hy. unfold credit.
  set (a := ((max_time - x) / (3 # 2))%Q).
  set (b := ((max_time - y) / (3 # 2))%Q).
  assert (Ha : (0 < a)%Q).
  { subst a. unfold Qdiv. change (/ (3 # 2))%Q with (2 # 3)%Q. lra. }
  assert (Hb : (b <= a - 1)%Q).
  { subst a b. unfold Qdiv. change (/ (3 # 2))%Q with (2 # 3)%Q. lra. }
  pose proof (Qle_ceiling a) as Ua. pose proof (Qceiling_lt b) as Lb.
  clearbody a b.
  assert (H1 : (inject_Z (Qceiling b - 1) < inject_Z (Qceiling a + -1))%Q).
  { rewrite (inject_Z_plus (Qceiling a) (-1)). change (inject_Z (-1)) with (-1 # 1)%Q.
    revert Ua Lb. generalize (inject_Z (Qceiling a)), (inject_Z (Qceiling b - 1)).
    intros. lra. }
  assert (H0 : (inject_Z 0 < inject_Z (Qceiling a))%Q).
  { change (inject_Z 0) with 0%Q. revert Ua. generalize (inject_Z (Qceiling a)).
    intros. lra. }
  rewrite <- Zlt_Qlt in H1, H0. lia.
Qed.

(** ** The engine: the loop keeps its invariants *)

Section EngineProofs.

Context {cal : Calendar} {var : Variates}.
Import SimulationModel.

Ltac fields :=
  unfold num_sources, num_devices in *;
  cbn [set_calendar set_devices set_buffer set_device_selector set_generator
       set_heap set_current_time set_current_serving_source
       set_requests_generated set_requests_served set_requests_rejected
       set_source_requests set_source_rejections set_source_total_time
       set_source_waiting_time set_device_busy_time
       calendar sources devices buffer device_selector generator heap
       current_time current_serving_source requests_generated
       requests_served requests_rejected source_requests source_rejections
       source_total_time source_waiting_time device_busy_time
       Buffer.buffer Buffer.max_size Buffer.addRequest Buffer.removeRequest
       DeviceSelector.last_used DeviceSelector.num_devices] in *.

Lemma event_ok_later now now' S D e :
  (now' <= Event.time e)%Q -> event_ok now S D e -> event_ok now' S D e.
Proof. intros H [_ Hid]. now split. Qed.

Lemma pending_ok_later now now' S h h' r :
  (now <= now')%Q -> (h <= h')%nat -> pending_ok now S h r -> pending_ok now' S h' r.
Proof. intros H Hh (Hs & Ha & Hp). repeat split; try lia; lra. Qed.

Lemma device_ok_later now now' S d :
  (now <= now')%Q -> device_ok now S d -> device_ok now' S d.
Proof.
  unfold device_ok. intros H. destruct (Device.current_request d); [|trivial].
  intros (Hs & Ha & Hp). repeat split; try lia; lra.
Qed.

(** The head of an iteration: the earliest event leaves the calendar
    and the clock moves to its time. *)
Lemma advance_clock m e rest :
  Structural m -> top_pop (calendar m) = Some (e, rest) ->
  Structural (set_current_time (Event.time e) (set_calendar rest m))
  /\ event_ok (current_time m) (num_sources m) (num_devices m) e.
Proof.
  intros H E. pose proof (top_pop_perm _ _ _ E) as P.
  pose proof (top_pop_least _ _ _ E) as L.
  pose proof (Permutation_Forall P (st_calendar m H)) as Hc.
  inversion Hc as [|? ? He Hrest]; subst. split; [|exact He].
  destruct He as [Hnow _].
  destruct H. constructor; fields; try assumption.
  - apply Forall_forall. intros e' He'.
    rewrite Forall_forall in L, Hrest.
    apply (event_ok_later (current_time m)); auto.
  - eapply Forall_impl; [|eassumption]. intros r.
    now apply pending_ok_later.
  - eapply Forall_impl; [|eassumption]. intros d.
    now apply device_ok_later.
Qed.

Lemma potential_pop max_time m e rest :
  top_pop (calendar m) = Some (e, rest) ->
  potential max_time m
  = (weight max_time e
     + potential max_time (set_current_time (Event.time e) (set_calendar rest m)))%nat.
Proof.
  intros E. apply top_pop_perm in E. unfold potential. fields.
  rewrite (list_sum_perm _ _ (Permutation_map (weight max_time) E)). simpl. lia.
Qed.

Lemma same_frame_trans m1 m2 m3 :
  same_frame m1 m2 -> same_frame m2 m3 -> same_frame m1 m3.
Proof.
  unfold same_frame. intros (A1 & A2 & A3 & A4) (B1 & B2 & B3 & B4).
  repeat split; congruence.
Qed.

Lemma list_sum_push max_time e c :
  list_sum (map (weight max_time) (push e c))
  = (list_sum (map (weight max_time) c) + weight max_time e)%nat.
Proof.
  unfold push. rewrite map_app, list_sum_app. simpl. lia.
Qed.

(** Starting a service on a free device of the pool. *)
Lemma dispatch_ok m idx d r :
  Structural m ->
  0 <= idx -> nth_error (devices m) (Z.to_nat idx) = Some d ->
  Device.isFree d = true ->
  0 <= Request.source_id r < num_sources m ->
  (Request.arrival_time r <= current_time m)%Q ->
  exists m',
    dispatch idx r m = Some m'
    /\ Structural m'
    /\ balance m' = balance m - 1
    /\ (forall max_time, potential max_time m' = S (potential max_time m))
    /\ same_frame m m'.
Proof.
  intros H Hidx Ed Hfree Hsrc Harr.
  assert (Hlt : (Z.to_nat idx < length (devices m))%nat)
    by (apply nth_error_Some; congruence).
  unfold dispatch. rewrite vec_at_nth, Ed by assumption. cbn [bind].
  unfold getServiceTime. fields.
  rewrite vec_update_Some by lia. cbn [bind].
  eexists. split; [reflexivity|].
  pose proof (st_device_ids m H _ _ Ed) as Hid.
  split; [|split; [|split]].
  - destruct H. constructor; fields; rewrite ?update_nth_length; try assumption.
    + intros i d'. rewrite update_nth_nth_error.
      destruct (Nat.eqb_spec (Z.to_nat idx) i) as [<-|_]; [|now auto].
      rewrite Ed. simpl. intros [= <-]. simpl. exact Hid.
    + apply Forall_app. split; [assumption|]. constructor; [|constructor]. split.
      * cbn [Event.time]. pose proof (exponential_ge_0 (generator m) (Device.lambda d)).
        lra.
      * cbn [Event.type Event.entity_id]. unfold Device.getId. rewrite Hid. lia.
    + eapply update_nth_Forall; [eassumption|assumption|].
      unfold device_ok, Device.startService. simpl. repeat split; try lia; lra.
  - unfold balance. fields.
    rewrite (busy_update_nth _ _ _ _ Ed), Hfree.
    unfold Device.startService, Device.isFree. simpl. lia.
  - intros max_time. unfold potential. fields. rewrite list_sum_push.
    unfold weight at 2. simpl. lia.
  - unfold same_frame. fields. now rewrite update_nth_length.
Qed.

(** The first part of [processArrival], up to the choice of a device:
    one more request generated, the next arrival of the source
    scheduled. *)
Lemma arrival_prefix_ok m s interval sel' :
  Structural m -> 0 <= s < num_sources m -> (3 # 2 <= interval)%Q ->
  DeviceSelector.num_devices sel' = num_devices m
  /\ -1 <= DeviceSelector.last_used sel' < Z.max 0 (DeviceSelector.num_devices sel') ->
  let m2 :=
    set_device_selector sel'
      (set_calendar
         (push (Event.mk (current_time m + interval) Event.ARRIVAL s None)
               (calendar m))
         (set_generator (S (generator m))
            (set_heap (S (heap m))
               (set_source_requests
                  (update_nth (Z.to_nat s) Z.succ (source_requests m))
                  (set_requests_generated (requests_generated m + 1) m))))) in
  Structural m2
  /\ balance m2 = balance m + 1
  /\ (forall max_time,
         potential max_time m2
         = (potential max_time m + 3 * credit max_time (current_time m + interval))%nat)
  /\ same_frame m m2.
Proof.
  intros H Hs Hi Hsel m2. subst m2. split; [|split; [|split]].
  - destruct H. constructor; fields; rewrite ?update_nth_length; try assumption.
    + apply Forall_app. split; [assumption|]. constructor; [|constructor]. split.
      * cbn [Event.time]. lra.
      * cbn [Event.type Event.entity_id]. lia.
    + eapply Forall_impl; [|eassumption]. intros r.
      apply pending_ok_later; [lra|lia].
  - unfold balance. fields. lia.
  - intros max_time. unfold potential. fields. rewrite list_sum_push.
    unfold weight at 2. cbn [Event.type Event.time]. lia.
  - unfold same_frame. fields. auto.
Qed.

(** A request with a fresh address enters a buffer that has room. *)
Lemma insert_ok m r :
  Structural m ->
  pending_ok (current_time m) (num_sources m) (heap m) r ->
  ~ In (Request.ptr r) (map Request.ptr (Buffer.buffer (buffer m))) ->
  Z.of_nat (length (Buffer.buffer (buffer m))) < Buffer.max_size (buffer m) ->
  let m' := set_buffer (Buffer.addRequest r (buffer m)) m in
  Structural m'
  /\ balance m' = balance m - 1
  /\ (forall max_time, potential max_time m' = (potential max_time m + 2)%nat)
  /\ same_frame m m'.
Proof.
  intros H Hr Hfresh Hroom m'. subst m'. split; [|split; [|split]].
  - destruct H. constructor; fields; try assumption.
    + apply Forall_app. split; [assumption|]. constructor; [assumption|constructor].
    + rewrite map_app. simpl.
      apply (Permutation_NoDup (Permutation_cons_append _ _)).
      now constructor.
    + rewrite length_app. simpl. lia.
  - unfold balance. fields. rewrite length_app. simpl. lia.
  - intros max_time. unfold potential. fields. rewrite length_app. simpl. lia.
  - unfold same_frame. fields. auto.
Qed.

(** The eviction of [processArrival] on a full buffer: the request of
    the largest source leaves (in [findRequestToReject] itself) and is
    counted as rejected. *)
Lemma evict_ok m :
  Structural m -> Buffer.isFull (buffer m) = true ->
  exists rejected buffer' rejections',
    Buffer.findRequestToReject (buffer m) = (Some rejected, buffer')
    /\ vec_update (source_rejections m) (Request.source_id rejected) Z.succ
       = Some rejections'
    /\ let m' :=
         set_buffer (Buffer.removeRequest rejected buffer')
           (set_requests_rejected (requests_rejected m + 1)
              (set_source_rejections rejections' (set_buffer buffer' m))) in
       Structural m'
       /\ balance m' = balance m
       /\ (forall max_time, potential max_time m' = (potential max_time m - 2)%nat)
       /\ same_frame m m'
       /\ Z.of_nat (length (Buffer.buffer (buffer m')))
          < Buffer.max_size (buffer m')
       /\ (forall p, In p (map Request.ptr (Buffer.buffer (buffer m'))) ->
                     In p (map Request.ptr (Buffer.buffer (buffer m)))).
Proof.
  intros H Hfull.
  pose proof H as [_ _ (V1 & V2 & V3 & V4 & V5) _ _ Hbuf Hptr _ [Hmax Hcap]].
  unfold Buffer.isFull, to_size_t in Hfull.
  rewrite Z.mod_small in Hfull by lia. apply Z.leb_le in Hfull.
  assert (Hne : Buffer.buffer (buffer m) <> []).
  { intros E. rewrite E in Hfull. simpl in Hfull. lia. }
  assert (Hpos : Forall (fun r => 0 <= Request.source_id r) (Buffer.buffer (buffer m))).
  { eapply Forall_impl; [|exact Hbuf]. intros r (Hs & _). lia. }
  destruct (findRequestToReject_queue_spec _ Hne Hpos) as (rej & q' & E & Hin & _).
  pose proof (findRequestToReject_queue_perm _ _ _ E) as P.
  rewrite Forall_forall in Hbuf. destruct (Hbuf _ Hin) as (Hs & _).
  exists rej, (Buffer.mk q' (Buffer.max_size (buffer m))),
    (update_nth (Z.to_nat (Request.source_id rej)) Z.succ (source_rejections m)).
  split; [unfold Buffer.findRequestToReject; now rewrite E|].
  split; [apply vec_update_Some; unfold num_sources in Hs; lia|].
  assert (N : NoDup (map Request.ptr (rej :: q'))).
  { eapply Permutation_NoDup; [|exact Hptr]. now apply Permutation_map. }
  assert (R : Buffer.removeRequest_queue rej q' = q').
  { apply removeRequest_absent. simpl in N. now inversion N. }
  assert (L : length (Buffer.buffer (buffer m)) = S (length q')).
  { now rewrite (Permutation_length P). }
  cbv zeta. split; [|split; [|split; [|split; [|split]]]].
  - destruct H. constructor; fields; rewrite ?update_nth_length, ?R; try assumption.
    + apply Forall_forall. intros r Hr. apply Hbuf.
      apply (Permutation_in _ (Permutation_sym P)). now right.
    + simpl in N. now inversion N.
    + lia.
  - unfold balance. fields. rewrite R, L. lia.
  - intros max_time. unfold potential. fields. rewrite R, L. lia.
  - unfold same_frame. fields. auto.
  - fields. rewrite R. lia.
  - fields. rewrite R. intros p Hp.
    apply (Permutation_in _ (Permutation_sym (Permutation_map Request.ptr P))).
    now right.
Qed.

Lemma processArrival_ok m s :
  Structural m -> 0 <= s < num_sources m ->
  exists m',
    processArrival s m = Some m'
    /\ Structural m'
    /\ balance m' = balance m
    /\ (exists x, (current_time m + (3 # 2) <= x)%Q
         /\ forall max_time,
             (potential max_time m'
              <= potential max_time m + 3 * credit max_time x + 2)%nat)
    /\ same_frame m m'.
Proof.
  intros H Hs.
  pose proof H as [[Hn Hc] Hids (V1 & V2 & V3 & V4 & V5) Hsrc Hcal Hbuf Hptr Hdev Hcap].
  unfold processArrival. fields.
  rewrite vec_update_Some by lia. cbn [bind]. fields.
  destruct (vec_at_Some (update_nth (Z.to_nat s) Z.succ (source_requests m)) s)
    as [n En]; [rewrite update_nth_length; lia|].
  rewrite En. cbn [bind].
  destruct (vec_at_Some (sources m) s) as [src Esrc]; [lia|].
  rewrite Esrc. cbn [bind]. unfold getNextInterval. fields.
  set (interval := uniform_real (generator m) (Source.min_int src) (Source.max_int src)).
  assert (Hi : (3 # 2 <= interval)%Q).
  { apply vec_at_In in Esrc. rewrite Forall_forall in Hsrc.
    destruct (Hsrc _ Esrc) as [Hmin Hle].
    pose proof (uniform_real_ge (generator m) _ _ Hle). subst interval. lra. }
  set (request := Request.new (heap m) s n (current_time m)).
  assert (Hfresh : ~ In (Request.ptr request) (map Request.ptr (Buffer.buffer (buffer m)))).
  { rewrite in_map_iff. intros (r & Hp & Hr). rewrite Forall_forall in Hbuf.
    destruct (Hbuf _ Hr) as (_ & _ & Hlt). subst request. simpl in Hp. lia. }
  destruct (getFreeDevice_cases (device_selector m) (devices m) Hn Hc)
    as [(idx & d & E & Hr & Ed & Hf)|[E Hbusy]]; rewrite E; cbn [bind]; fields.
  - match goal with |- context [dispatch idx request ?m2] => set (m2' := m2) end.
    destruct (arrival_prefix_ok m s interval
                (DeviceSelector.mk idx (DeviceSelector.num_devices (device_selector m)))
                H Hs Hi) as (S2 & B2 & P2 & F2); [fields; lia|].
    fold m2' in S2, B2, P2, F2.
    destruct (dispatch_ok m2' idx d request S2) as (m' & Em & S3 & B3 & P3 & F3);
      try (subst m2' request; fields; simpl; first [lia|lra|assumption]).
    exists m'. split; [exact Em|]. split; [exact S3|]. split; [lia|]. split.
    + exists (current_time m + interval)%Q. split; [lra|].
      intros max_time. rewrite P3, P2. lia.
    + exact (same_frame_trans _ _ _ F2 F3).
  - match goal with
    | |- context [Buffer.isFull (buffer m)] => idtac
    end.
    pose proof (arrival_prefix_ok m s interval (device_selector m) H Hs Hi
                  (conj Hn Hc)) as (S2 & B2 & P2 & F2).
    match type of S2 with Structural ?m2 => set (m2' := m2) in * end.
    assert (Hpend : pending_ok (current_time m2') (num_sources m2') (heap m2') request).
    { subst m2' request. unfold pending_ok. fields. simpl. repeat split; try lia; lra. }
    destruct (Buffer.isFull (buffer m)) eqn:Full; cbn [negb].
    + destruct (evict_ok m2' S2) as (rej & b' & rj' & Ef & Er & S3 & B3 & P3 & F3 & Hroom & Hsub);
        [subst m2'; fields; exact Full|].
      subst m2'. fields. rewrite Ef. fields. rewrite Er. cbn [bind]. fields.
      match type of S3 with Structural ?m3 => set (m3' := m3) in * end.
      destruct (insert_ok m3' request S3) as (S4 & B4 & P4 & F4).
      * subst m3'. fields. exact Hpend.
      * intros Hp. apply Hsub in Hp. fields. contradiction.
      * exact Hroom.
      * subst m3'. fields. eexists. split; [reflexivity|].
        split; [exact S4|]. split; [lia|]. split.
        -- exists (current_time m + interval)%Q. split; [lra|].
           intros max_time. rewrite P4, P3, P2. lia.
        -- exact (same_frame_trans _ _ _ F2 (same_frame_trans _ _ _ F3 F4)).
    + destruct (insert_ok m2' request S2 Hpend) as (S4 & B4 & P4 & F4).
      * subst m2'. fields. exact Hfresh.
      * subst m2'. fields. unfold Buffer.isFull, to_size_t in Full.
        rewrite Z.mod_small in Full by lia. apply Z.leb_gt in Full. lia.
      * subst m2'. fields. eexists. split; [reflexivity|].
        split; [exact S4|]. split; [lia|]. split.
        -- exists (current_time m + interval)%Q. split; [lra|].
           intros max_time. rewrite P4, P2. lia.
        -- exact (same_frame_trans _ _ _ F2 F4).
Qed.

(** The head of [processDeparture]: the device is free again. *)
Lemma release_ok m dev device :
  Structural m -> nth_error (devices m) (Z.to_nat dev) = Some device ->
  let m' :=
    set_devices
      (update_nth (Z.to_nat dev) (fun d => snd (Device.finishService d)) (devices m))
      m in
  Structural m'
  /\ balance m' = balance m + (if Device.isFree device then 0 else 1)
  /\ (forall max_time, potential max_time m' = potential max_time m)
  /\ same_frame m m'
  /\ exists d', nth_error (devices m') (Z.to_nat dev) = Some d'
                /\ Device.isFree d' = true.
Proof.
  intros H Ed m'. subst m'. split; [|split; [|split; [|split]]].
  - destruct H. constructor; fields; rewrite ?update_nth_length; try assumption.
    + intros i d'. rewrite update_nth_nth_error.
      destruct (Nat.eqb_spec (Z.to_nat dev) i) as [<-|_]; [|now auto].
      rewrite Ed. simpl. intros [= <-]. simpl. now apply st_device_ids0 in Ed.
    + eapply update_nth_Forall; [eassumption|assumption|]. exact I.
  - unfold balance. fields. rewrite (busy_update_nth _ _ _ _ Ed).
    unfold Device.finishService, Device.isFree at 2. simpl. lia.
  - intros max_time. reflexivity.
  - unfold same_frame. fields. now rewrite update_nth_length.
  - fields. rewrite update_nth_nth_error, Nat.eqb_refl, Ed. simpl. eauto.
Qed.

(** The statistics of the finished request. *)
Lemma account_ok m dev r :
  Structural m -> 0 <= dev < num_devices m -> 0 <= Request.source_id r < num_sources m ->
  exists m',
    account dev r m = Some m'
    /\ Structural m'
    /\ balance m' = balance m - 1
    /\ (forall max_time, potential max_time m' = potential max_time m)
    /\ same_frame m m'
    /\ devices m' = devices m.
Proof.
  intros H Hd Hs.
  pose proof H as [_ _ (V1 & V2 & V3 & V4 & V5) _ _ _ _ _ _].
  unfold account. fields. cbn [Request.set_finish_service_time Request.source_id].
  rewrite !vec_update_Some by lia. cbn [bind].
  eexists. split; [reflexivity|]. split; [|split; [|split; [|split]]].
  - destruct H. constructor; fields; rewrite ?update_nth_length; assumption.
  - unfold balance. fields. lia.
  - intros max_time. reflexivity.
  - unfold same_frame. fields. auto.
  - reflexivity.
Qed.

(** The request chosen by [getNextRequest] has left the buffer. *)
Lemma take_ok m next q' marker' sel' :
  Structural m -> Permutation (Buffer.buffer (buffer m)) (next :: q') ->
  DeviceSelector.num_devices sel' = num_devices m
  /\ -1 <= DeviceSelector.last_used sel' < Z.max 0 (DeviceSelector.num_devices sel') ->
  let b' := Buffer.mk q' (Buffer.max_size (buffer m)) in
  let m' :=
    set_device_selector sel'
      (set_buffer b' (set_current_serving_source marker' (set_buffer b' m))) in
  Structural m'
  /\ balance m' = balance m + 1
  /\ (forall max_time, potential max_time m' = (potential max_time m - 2)%nat)
  /\ same_frame m m'.
Proof.
  intros H P Hsel b' m'. subst b' m'.
  assert (L : length (Buffer.buffer (buffer m)) = S (length q'))
    by now rewrite (Permutation_length P).
  split; [|split; [|split]].
  - destruct H. constructor; fields; try assumption.
    + apply (Permutation_Forall P) in st_buffer0. now inversion st_buffer0.
    + apply (Permutation_map Request.ptr) in P.
      apply (Permutation_NoDup P) in st_ptrs0. simpl in st_ptrs0.
      now inversion st_ptrs0.
    + lia.
  - unfold balance. fields. rewrite L. lia.
  - intros max_time. unfold potential. fields. rewrite L. lia.
  - unfold same_frame. fields. auto.
Qed.

(** The second half of [processDeparture], when some device is free. *)
Lemma serve_next_ok m :
  Structural m ->
  (exists i d, nth_error (devices m) i = Some d /\ Device.isFree d = true) ->
  exists m',
    serve_next m = Some m'
    /\ Structural m'
    /\ balance m' = balance m
    /\ (forall max_time, (potential max_time m' <= potential max_time m)%nat)
    /\ same_frame m m'.
Proof.
  intros H (i & d0 & Ei & Hfree0).
  pose proof H as [[Hn Hc] Hids (V1 & V2 & V3 & V4 & V5) Hsrc Hcal Hbuf Hptr Hdev Hcap].
  unfold serve_next.
  destruct (Buffer.isEmpty (buffer m)); cbn [negb].
  { exists m. split; [reflexivity|]. split; [assumption|]. split; [reflexivity|].
    split; [intros; lia|]. now unfold same_frame. }
  unfold Buffer.getNextRequest.
  destruct (Buffer.getNextRequest_queue (Buffer.buffer (buffer m))
              (current_serving_source m)) as [[next q'] marker'] eqn:E.
  fields. destruct next as [next|].
  - pose proof (getNextRequest_queue_perm _ _ _ _ _ E) as P.
    assert (N : NoDup (map Request.ptr (next :: q'))).
    { eapply Permutation_NoDup; [|exact Hptr]. now apply Permutation_map. }
    assert (R : Buffer.removeRequest_queue next q' = q').
    { apply removeRequest_absent. simpl in N. now inversion N. }
    unfold Buffer.removeRequest. fields. rewrite R.
    assert (Hnext : pending_ok (current_time m) (num_sources m) (heap m) next).
    { apply (Permutation_Forall P) in Hbuf. now inversion Hbuf. }
    destruct Hnext as (Hs & Ha & _).
    destruct (getFreeDevice_cases (device_selector m) (devices m) Hn Hc)
      as [(idx & d & Eg & Hr & Ed & Hf)|[Eg Hbusy]]; rewrite Eg; cbn [bind].
    + destruct (take_ok m next q' marker'
                  (DeviceSelector.mk idx (DeviceSelector.num_devices (device_selector m)))
                  H P) as (S2 & B2 & P2 & F2); [fields; lia|].
      match type of S2 with Structural ?m2 => set (m2' := m2) in * end.
      destruct (dispatch_ok m2' idx d next S2) as (m' & Em & S3 & B3 & P3 & F3);
        try (subst m2'; fields; first [lia|lra|assumption]).
      exists m'. split; [exact Em|]. split; [exact S3|]. split; [lia|]. split.
      * intros max_time. rewrite P3, P2. unfold potential.
        apply Permutation_length in P. rewrite P. simpl. lia.
      * exact (same_frame_trans _ _ _ F2 F3).
    + exfalso. rewrite Forall_forall in Hbusy.
      apply nth_error_In in Ei. apply Hbusy in Ei. congruence.
  - apply getNextRequest_queue_none in E. subst q'.
    eexists. split; [reflexivity|]. split; [|split; [|split]].
    + destruct H. constructor; fields; assumption.
    + reflexivity.
    + intros max_time. unfold potential. fields. lia.
    + unfold same_frame. fields. auto.
Qed.

Lemma processDeparture_ok m dev :
  Structural m -> 0 <= dev < num_devices m ->
  exists m',
    processDeparture dev m = Some m'
    /\ Structural m'
    /\ balance m' = balance m
    /\ (forall max_time, (potential max_time m' <= potential max_time m)%nat)
    /\ same_frame m m'.
Proof.
  intros H Hd. unfold processDeparture.
  destruct (vec_at_Some (devices m) dev) as [device Ed]; [exact Hd|].
  rewrite Ed. cbn [bind]. rewrite vec_at_nth in Ed by lia.
  unfold Device.finishService at 1.
  rewrite vec_update_Some by exact Hd. cbn [bind].
  destruct (release_ok m dev device H Ed) as (S1 & B1 & P1 & F1 & d' & Ed' & Hfree).
  match type of S1 with Structural ?m1 => set (m1' := m1) in * end.
  assert (Hdev : device_ok (current_time m) (num_sources m) device).
  { pose proof (st_devices m H) as Hall. rewrite Forall_forall in Hall.
    apply Hall. eapply nth_error_In; eassumption. }
  unfold device_ok in Hdev. unfold Device.isFree in B1.
  destruct (Device.current_request device) as [finished|].
  - destruct (account_ok m1' dev finished S1) as (m2 & E2 & S2 & B2 & P2 & F2 & D2);
      try (subst m1'; fields; rewrite ?update_nth_length; lia).
    rewrite E2. cbn [bind].
    destruct (serve_next_ok m2 S2) as (m3 & E3 & S3 & B3 & P3 & F3).
    { rewrite D2. eauto. }
    exists m3. split; [exact E3|]. split; [exact S3|]. split; [lia|]. split.
    + intros max_time. rewrite P3, P2, P1. lia.
    + exact (same_frame_trans _ _ _ F1 (same_frame_trans _ _ _ F2 F3)).
  - cbn [bind].
    destruct (serve_next_ok m1' S1) as (m3 & E3 & S3 & B3 & P3 & F3); [eauto|].
    exists m3. split; [exact E3|]. split; [exact S3|]. split; [lia|]. split.
    + intros max_time. rewrite P3, P1. lia.
    + exact (same_frame_trans _ _ _ F1 F3).
Qed.

(** One iteration of the loop, from a state of the loop with a
    non-empty calendar. *)
Lemma iteration_ok m e rest :
  Structural m -> top_pop (calendar m) = Some (e, rest) ->
  exists m',
    iteration m = Some m'
    /\ Structural m'
    /\ balance m' = balance m
    /\ current_time m' = Event.time e
    /\ Buffer.max_size (buffer m') = Buffer.max_size (buffer m)
    /\ (forall max_time,
           (Event.time e < max_time)%Q ->
           (potential max_time m' < potential max_time m)%nat).
Proof.
  intros H E. unfold iteration. rewrite E. cbn [bind].
  destruct (advance_clock m e rest H E) as [S1 [Hnow Hid]].
  pose proof (potential_pop) as PP. specialize (fun M => PP M m e rest E).
  match type of S1 with Structural ?m1 => set (m1' := m1) in * end.
  assert (B1 : balance m1' = balance m) by reflexivity.
  unfold weight in PP.
  destruct (Event.type e).
  - destruct (processArrival_ok m1' (Event.entity_id e) S1)
      as (m' & Em & S2 & B2 & (x & Hx & P2) & F2 & F2' & _); [exact Hid|].
    exists m'. split; [exact Em|]. split; [exact S2|]. split; [lia|].
    split; [exact F2|]. split; [exact F2'|].
    intros max_time Hlt. rewrite PP. specialize (P2 max_time).
    pose proof (credit_step max_time (Event.time e) x Hlt Hx). lia.
  - destruct (processDeparture_ok m1' (Event.entity_id e) S1)
      as (m' & Em & S2 & B2 & P2 & F2 & F2' & _); [exact Hid|].
    exists m'. split; [exact Em|]. split; [exact S2|]. split; [lia|].
    split; [exact F2|]. split; [exact F2'|].
    intros max_time Hlt. rewrite PP. specialize (P2 max_time). lia.
Qed.

(** *** The constructor *)

Lemma first_arrivals_ok srcs : forall m,
  Structural m -> (current_time m <= 3 # 2)%Q ->
  Forall (fun s => source_ok s /\ 0 <= Source.source_id s < num_sources m) srcs ->
  let m' := first_arrivals srcs m in
  Structural m' /\ balance m' = balance m /\ same_frame m m'
  /\ requests_served m' = requests_served m.
Proof.
  induction srcs as [|s srcs IH]; intros m H Hnow Hs; cbn [first_arrivals].
  - split; [assumption|]. split; [reflexivity|].
    split; [now unfold same_frame|reflexivity].
  - inversion Hs as [|? ? [[Hmin Hle] Hid] Hs']; subst.
    unfold getNextInterval.
    match goal with |- context [first_arrivals srcs ?m1] => set (m1' := m1) end.
    assert (S1 : Structural m1').
    { subst m1'. destruct H. constructor; fields; try assumption.
      apply Forall_app. split; [assumption|]. constructor; [|constructor]. split.
      - cbn [Event.time].
        pose proof (uniform_real_ge (generator m) _ _ Hle). lra.
      - cbn [Event.type Event.entity_id]. exact Hid. }
    destruct (IH m1' S1) as (S2 & B2 & F2 & R2); [exact Hnow|exact Hs'|].
    split; [exact S2|]. split; [exact B2|]. split; [|exact R2].
    refine (same_frame_trans _ m1' _ _ F2). unfold same_frame. subst m1'. fields. auto.
Qed.

Lemma make_sources_ok n :
  Forall (fun s => source_ok s /\ 0 <= Source.source_id s < Z.of_nat n)
         (make_sources n).
Proof.
  unfold make_sources. apply Forall_forall. intros s Hs.
  apply in_map_iff in Hs as (i & <- & Hi). apply in_seq in Hi.
  unfold source_ok. cbn [Source.min_int Source.max_int Source.source_id].
  assert (0 <= inject_Z (Z.of_nat i))%Q.
  { change 0%Q with (inject_Z 0). rewrite <- Zle_Qle. lia. }
  repeat split; try lia; lra.
Qed.

Lemma make_devices_nth n i d :
  nth_error (make_devices n) i = Some d ->
  Device.device_id d = Z.of_nat i /\ Device.current_request d = None.
Proof.
  unfold make_devices. intros E.
  rewrite nth_error_map, nth_error_seq in E.
  destruct (i <? n)%nat; [|discriminate].
  simpl in E. now inversion E.
Qed.

Lemma busy_all_free devices :
  Forall (fun d => Device.current_request d = None) devices -> busy devices = 0.
Proof.
  unfold busy. induction 1 as [|d devices Hd _ IH]; [reflexivity|].
  cbn [filter]. unfold Device.isFree. now rewrite Hd.
Qed.

(** The constructed model is a state of the loop, with nothing
    generated yet. *)
Lemma construct_ok ns nd buffer_size :
  0 < buffer_size <= INT_MAX ->
  let m := construct ns nd buffer_size in
  Structural m /\ balance m = 0
  /\ Buffer.max_size (buffer m) = buffer_size
  /\ requests_served m = 0.
Proof.
  intros HC m. subst m. unfold construct.
  match goal with |- context [first_arrivals _ ?m0] => set (m0' := m0) end.
  assert (S0 : Structural m0').
  { subst m0'. constructor; fields.
    - unfold make_devices. rewrite length_map, length_seq. simpl. lia.
    - intros i d E. now apply make_devices_nth in E.
    - unfold make_sources, make_devices.
      rewrite !repeat_length, !length_map, !length_seq. auto.
    - eapply Forall_impl; [|apply make_sources_ok]. now intros s [Hs _].
    - constructor.
    - constructor.
    - constructor.
    - apply Forall_forall. intros d Hd. apply In_nth_error in Hd as [i Hi].
      apply make_devices_nth in Hi as [_ Hi]. unfold device_ok. now rewrite Hi.
    - unfold INT_MAX in HC. simpl. lia. }
  destruct (first_arrivals_ok (make_sources ns) m0' S0)
    as (S1 & B1 & (_ & F1 & _) & R1).
  - subst m0'. fields. lra.
  - subst m0'. fields.
    replace (length (make_sources ns)) with ns
      by (unfold make_sources; now rewrite length_map, length_seq).
    apply make_sources_ok.
  - split; [exact S1|]. split; [|split].
    + rewrite B1. subst m0'. unfold balance. fields. simpl.
      assert (Hb : busy (make_devices nd) = 0).
      { apply busy_all_free. apply Forall_forall.
        intros d Hd. apply In_nth_error in Hd as [i Hi].
        now apply make_devices_nth in Hi as [_ Hi]. }
      rewrite Hb. lia.
    + rewrite F1. reflexivity.
    + rewrite R1. reflexivity.
Qed.

(** Every state the loop can be in keeps the shape, the balance and the
    capacity. *)
Lemma reachable_ok m0 m :
  reachable_from m0 m -> Structural m0 ->
  Structural m /\ balance m = balance m0
  /\ Buffer.max_size (buffer m) = Buffer.max_size (buffer m0).
Proof.
  induction 1 as [|m m' R IH E]; intros H0; [auto|].
  destruct (IH H0) as (S1 & B1 & C1).
  destruct (top_pop (calendar m)) as [[e rest]|] eqn:P.
  - destruct (iteration_ok m e rest S1 P) as (m'' & E' & S2 & B2 & _ & C2 & _).
    assert (m'' = m') by congruence. subst m''.
    split; [exact S2|]. split; congruence.
  - unfold iteration in E. rewrite P in E. discriminate.
Qed.

Lemma run_reachable fuel max_time max_requests : forall m0 m,
  run fuel max_time max_requests m0 = Returned m -> reachable_from m0 m.
Proof.
  induction fuel as [|fuel IH]; intros m0 m; cbn [run].
  - destruct (running _ _ _); [discriminate|]. intros [= <-]. constructor.
  - destruct (running _ _ _); [|intros [= <-]; constructor].
    destruct (iteration m0) as [m1|] eqn:E; [|discriminate].
    intros R. apply IH in R. clear IH.
    induction R as [|a b R' IH' Eb]; [econstructor; [constructor|exact E]|].
    econstructor; eassumption.
Qed.

Lemma Qltb_lt x y : Qltb x y = true <-> (x < y)%Q.
Proof.
  unfold Qltb. rewrite negb_true_iff. split; intros H.
  - destruct (Qlt_le_dec x y) as [?|Hle]; [assumption|].
    apply Qle_bool_iff in Hle. congruence.
  - destruct (Qle_bool y x) eqn:L; [|reflexivity].
    apply Qle_bool_iff in L. lra.
Qed.

(** Once the loop has been left, more fuel changes nothing. *)
Lemma run_more_fuel max_time max_requests : forall fuel fuel' m m',
  run fuel max_time max_requests m = Returned m' -> (fuel <= fuel')%nat ->
  run fuel' max_time max_requests m = Returned m'.
Proof.
  induction fuel as [|fuel IH]; intros fuel' m m' R Hle.
  - cbn [run] in R. destruct (running max_time max_requests m) eqn:Hr; [discriminate|].
    destruct fuel'; cbn [run]; now rewrite Hr.
  - destruct fuel' as [|fuel']; [lia|]. cbn [run] in *.
    destruct (running max_time max_requests m); [|exact R].
    destruct (iteration m) as [m1|]; [|discriminate].
    apply (IH fuel' m1 m' R). lia.
Qed.

(** When the loop is left, one of the three conditions of [run] holds. *)
Lemma run_stopped fuel max_time max_requests : forall m0 m,
  run fuel max_time max_requests m0 = Returned m ->
  calendar m = [] \/ (max_time <= current_time m)%Q
  \/ max_requests <= requests_served m.
Proof.
  assert (Stop : forall m, running max_time max_requests m = false ->
                 calendar m = [] \/ (max_time <= current_time m)%Q
                 \/ max_requests <= requests_served m).
  { intros m. unfold running. rewrite !andb_false_iff.
    intros [[Hc|Ht]|Hs].
    - left. now destruct (calendar m).
    - right. left. destruct (Qlt_le_dec (current_time m) max_time) as [Hlt|]; [|assumption].
      apply Qltb_lt in Hlt. congruence.
    - right. right. apply Z.ltb_ge in Hs. exact Hs. }
  induction fuel as [|fuel IH]; intros m0 m; cbn [run].
  - destruct (running _ _ _) eqn:R; [discriminate|]. intros [= <-]. auto.
  - destruct (running _ _ _) eqn:R; [|intros [= <-]; auto].
    destruct (iteration m0) as [m1|]; [|discriminate]. apply IH.
Qed.

(** The loop runs out: from a state of the loop, [potential] bounds the
    number of iterations still to come. *)
Lemma run_terminates max_time max_requests : forall fuel m,
  Structural m -> (potential max_time m < fuel)%nat ->
  exists m', run fuel max_time max_requests m = Returned m'.
Proof.
  induction fuel as [|fuel IH]; intros m H Hp; [lia|].
  cbn [run]. destruct (running max_time max_requests m) eqn:R; [|eauto].
  destruct (calendar m) as [|e0 c] eqn:C; [unfold running in R; now rewrite C in R|].
  destruct (top_pop_cons (calendar m)) as (e & rest & P); [congruence|].
  destruct (iteration_ok m e rest H P) as (m' & E & S' & _ & T & _ & Dec).
  rewrite E.
  destruct (Qlt_le_dec (Event.time e) max_time) as [Hlt|Hge].
  - apply IH; [exact S'|]. specialize (Dec max_time Hlt). lia.
  - exists m'. destruct fuel; cbn [run]; unfold running;
      replace (Qltb (current_time m') max_time) with false;
      rewrite ?andb_false_r; try reflexivity.
    all: symmetry; apply not_true_iff_false; rewrite Qltb_lt, T; lra.
Qed.

(** *** The claims about the engine *)

(** C3. In every state the loop reaches from the constructed model, the
    buffer holds at most as many requests as its capacity, which never
    changes; this holds in particular after an iteration that starts
    with a full buffer. *)
Theorem buffer_within_capacity (ns nd : nat) (buffer_size : Z) (m : t) :
  0 < buffer_size <= INT_MAX ->
  reachable_from (construct ns nd buffer_size) m ->
  Buffer.max_size (buffer m) = buffer_size
  /\ Buffer.getSize (buffer m) <= buffer_size
  /\ (forall m', Buffer.isFull (buffer m) = true -> iteration m = Some m' ->
                 Buffer.getSize (buffer m') <= buffer_size).
Proof.
  intros HC R.
  destruct (construct_ok ns nd buffer_size HC) as (S0 & _ & C0 & _).
  assert (G : forall m, reachable_from (construct ns nd buffer_size) m ->
              Buffer.max_size (buffer m) = buffer_size
              /\ Buffer.getSize (buffer m) <= buffer_size).
  { intros x Rx. destruct (reachable_ok _ _ Rx S0) as (Sx & _ & Cx).
    split; [congruence|]. unfold Buffer.getSize.
    destruct (st_capacity x Sx) as [_ Hle]. rewrite Cx, C0 in Hle. exact Hle. }
  destruct (G m R) as [G1 G2]. split; [exact G1|]. split; [exact G2|].
  intros m' _ E. apply G. econstructor; eassumption.
Qed.

(** C4. In every state the loop reaches from the constructed model, and
    so in the state [run] returns, the requests generated are the
    requests served, rejected, held in the buffer and in service. *)
Theorem conservation (ns nd : nat) (buffer_size : Z) :
  0 < buffer_size <= INT_MAX ->
  (forall m,
      reachable_from (construct ns nd buffer_size) m ->
      requests_generated m
      = requests_served m + requests_rejected m
        + Buffer.getSize (buffer m) + busy (devices m))
  /\ (forall fuel max_time max_requests m,
         run fuel max_time max_requests (construct ns nd buffer_size) = Returned m ->
         requests_generated m
         = requests_served m + requests_rejected m
           + Buffer.getSize (buffer m) + busy (devices m)).
Proof.
  intros HC.
  destruct (construct_ok ns nd buffer_size HC) as (S0 & B0 & _ & _).
  assert (G : forall m, reachable_from (construct ns nd buffer_size) m ->
              requests_generated m
              = requests_served m + requests_rejected m
                + Buffer.getSize (buffer m) + busy (devices m)).
  { intros m R. destruct (reachable_ok _ _ R S0) as (_ & B & _).
    rewrite B0 in B. unfold balance in B. unfold Buffer.getSize. lia. }
  split; [exact G|].
  intros fuel max_time max_requests m R. apply G.
  eapply run_reachable; eassumption.
Qed.

(** C6. From the constructed model the loop of [run] comes to an end;
    the state it returns has an empty calendar, or a clock at or past
    [max_time], or at least [max_requests] requests served; with
    [max_requests = 0] no iteration takes place and nothing is served. *)
Theorem run_stops (ns nd : nat) (buffer_size : Z) (max_time : Q) (max_requests : Z) :
  0 < buffer_size <= INT_MAX ->
  let m0 := construct ns nd buffer_size in
  (exists fuel0 m,
      forall fuel, (fuel0 <= fuel)%nat ->
                   run fuel max_time max_requests m0 = Returned m)
  /\ (forall fuel m,
         run fuel max_time max_requests m0 = Returned m ->
         calendar m = [] \/ (max_time <= current_time m)%Q
         \/ max_requests <= requests_served m)
  /\ (max_requests = 0 ->
      forall fuel, run fuel max_time max_requests m0 = Returned m0
                   /\ requests_served m0 = 0).
Proof.
  intros HC m0.
  destruct (construct_ok ns nd buffer_size HC) as (S0 & _ & _ & R0).
  fold m0 in S0, R0. split; [|split].
  - exists (S (potential max_time m0)).
    destruct (run_terminates max_time max_requests (S (potential max_time m0)) m0 S0)
      as [m E]; [lia|].
    exists m. intros fuel Hle. exact (run_more_fuel _ _ _ _ _ _ E Hle).
  - intros fuel m. apply run_stopped.
  - intros -> fuel. split; [|exact R0].
    assert (Hr : running max_time 0 m0 = false).
    { unfold running. rewrite R0. simpl. now rewrite andb_false_r. }
    destruct fuel; cbn [run]; now rewrite Hr.
Qed.

(** C7. Whenever the loop takes a departure from the calendar, the
    request that finishes on the device has waited a time that is not
    negative and not more than its total time: it arrived no later
    than its service started, which is no later than now. The clock
    never goes back. *)
Theorem sojourn_ge_waiting (ns nd : nat) (buffer_size : Z) (m : t)
        (e : Event.t) (rest : list Event.t) (device : Device.t)
        (finished : Request.t) :
  0 < buffer_size <= INT_MAX ->
  reachable_from (construct ns nd buffer_size) m ->
  top_pop (calendar m) = Some (e, rest) ->
  Event.type e = Event.DEPARTURE ->
  vec_at (devices m) (Event.entity_id e) = Some device ->
  Device.current_request device = Some finished ->
  let finished_request := Request.set_finish_service_time (Event.time e) finished in
  (0 <= waiting_time finished_request)%Q
  /\ (waiting_time finished_request <= total_time finished_request)%Q
  /\ (Request.arrival_time finished <= Request.start_service_time finished)%Q
  /\ (Request.start_service_time finished <= Event.time e)%Q
  /\ (current_time m <= Event.time e)%Q.
Proof.
  intros HC R P _ Ed Ef fr.
  destruct (construct_ok ns nd buffer_size HC) as (S0 & _ & _ & _).
  destruct (reachable_ok _ _ R S0) as (Sm & _ & _).
  destruct (advance_clock m e rest Sm P) as [_ [Hnow _]].
  pose proof (st_devices m Sm) as Hall. rewrite Forall_forall in Hall.
  apply vec_at_In in Ed. apply Hall in Ed. unfold device_ok in Ed.
  rewrite Ef in Ed. destruct Ed as (_ & Ha & Hs).
  subst fr. unfold waiting_time, total_time. simpl. repeat split; lra.
Qed.

(** C9, as the code has it. When no device is free, the buffer reports
    full and [findRequestToReject] returns no candidate, the arriving
    request is appended to the buffer all the same, and nothing is
    counted as rejected. *)
Theorem arrival_inserted_without_candidate (source_id : Z) (m m' : t) :
  fst (Buffer.findRequestToReject (buffer m)) = None ->
  Buffer.isFull (buffer m) = true ->
  (exists selector',
      DeviceSelector.getFreeDevice (device_selector m) (devices m)
      = Some (None, selector')) ->
  processArrival source_id m = Some m' ->
  exists request,
    Buffer.buffer (buffer m') = Buffer.buffer (buffer m) ++ [request]
    /\ Request.source_id request = source_id
    /\ Request.arrival_time request = current_time m
    /\ requests_rejected m' = requests_rejected m.
Proof.
  intros Hnone Hfull [selector' Hsel]. unfold processArrival. fields.
  destruct (vec_update (source_requests m) source_id Z.succ) as [sr|]; [|discriminate].
  cbn [bind]. fields.
  destruct (vec_at sr source_id) as [n|]; [|discriminate]. cbn [bind].
  destruct (vec_at (sources m) source_id) as [src|]; [|discriminate]. cbn [bind].
  unfold getNextInterval. fields. rewrite Hsel. cbn [bind]. fields.
  rewrite Hfull. cbn [negb].
  unfold Buffer.findRequestToReject in *.
  destruct (Buffer.findRequestToReject_queue (Buffer.buffer (buffer m)))
    as [rejected q'] eqn:E.
  simpl in Hnone. subst rejected. apply findRequestToReject_queue_none in E. subst q'.
  cbn [bind]. fields. intros [= <-]. fields.
  eexists. split; [reflexivity|]. repeat split.
Qed.

(** The event that takes the clock to [max_time] or beyond is handled in
    full, and it is the last one. *)
Lemma last_event_handled max_time max_requests m e rest :
  Structural m ->
  running max_time max_requests m = true ->
  top_pop (calendar m) = Some (e, rest) ->
  (max_time <= Event.time e)%Q ->
  exists m',
    iteration m = Some m'
    /\ current_time m' = Event.time e
    /\ running max_time max_requests m' = false
    /\ forall fuel, run (S fuel) max_time max_requests m = Returned m'.
Proof.
  intros H R P Hge.
  destruct (iteration_ok m e rest H P) as (m' & E & _ & _ & T & _ & _).
  assert (R' : running max_time max_requests m' = false).
  { unfold running. replace (Qltb (current_time m') max_time) with false.
    - now rewrite andb_false_r.
    - symmetry. apply not_true_iff_false. rewrite Qltb_lt, T. lra. }
  exists m'. repeat split; try assumption.
  intros fuel. cbn [run]. rewrite R, E. destruct fuel; cbn [run]; now rewrite R'.
Qed.

Lemma iterate_reachable n : forall m0 m1 m,
  reachable_from m0 m1 -> iterate n m1 = Some m -> reachable_from m0 m.
Proof.
  induction n as [|n IH]; intros m0 m1 m R; cbn [iterate].
  - now intros [= <-].
  - destruct (iteration m1) as [m2|] eqn:E; [|discriminate]. cbn [bind].
    apply IH. econstructor; eassumption.
Qed.

End EngineProofs.

(** ** The concrete calendar and variates *)

Lemma pop_first_least_cons c :
  c <> [] -> exists e rest, pop_first_least c = Some (e, rest).
Proof.
  destruct c as [|e c]; [congruence|]. intros _. simpl.
  destruct (pop_first_least c) as [[e' rest]|]; [|eauto].
  destruct (Qle_bool _ _); eauto.
Qed.

Lemma pop_first_least_perm c : forall e rest,
  pop_first_least c = Some (e, rest) -> Permutation c (e :: rest).
Proof.
  induction c as [|x c IH]; simpl; intros e rest H; [discriminate|].
  destruct (pop_first_least c) as [[e' rest']|] eqn:E.
  - destruct (Qle_bool _ _); inversion H; subst; clear H.
    + reflexivity.
    + rewrite (IH _ _ eq_refl). apply perm_swap.
  - inversion H; subst. destruct c as [|y c]; [reflexivity|].
    destruct (pop_first_least_cons (y :: c)) as (e' & r & E'); congruence.
Qed.

Lemma pop_first_least_least c : forall e rest,
  pop_first_least c = Some (e, rest) ->
  Forall (fun e' => (Event.time e <= Event.time e')%Q) rest.
Proof.
  induction c as [|x c IH]; simpl; intros e rest H; [discriminate|].
  destruct (pop_first_least c) as [[e' rest']|] eqn:E.
  - specialize (IH _ _ eq_refl).
    destruct (Qle_bool _ _) eqn:L; inversion H; subst; clear H.
    + apply Qle_bool_iff in L.
      apply (Permutation_Forall (x := e' :: rest')).
      * symmetry. now apply pop_first_least_perm.
      * constructor; [exact L|].
        eapply Forall_impl; [|exact IH]. simpl. intros a Ha. lra.
    + assert (Event.time e < Event.time x)%Q.
      { destruct (Qlt_le_dec (Event.time e) (Event.time x)) as [?|Hle]; [assumption|].
        apply Qle_bool_iff in Hle. congruence. }
      constructor; [lra|exact IH].
  - inversion H; subst. constructor.
Qed.

Definition first_least_calendar : Calendar :=
  {| top_pop := pop_first_least;
     top_pop_nil := eq_refl;
     top_pop_cons := pop_first_least_cons;
     top_pop_perm := pop_first_least_perm;
     top_pop_least := pop_first_least_least |}.

Lemma lowest_uniform_ge g a b : (a <= b)%Q -> (a <= lowest_uniform g a b)%Q.
Proof. intros _. unfold lowest_uniform. lra. Qed.

Lemma slow_exponential_ge_0 g l : (0 <= slow_exponential g l)%Q.
Proof. unfold slow_exponential. lra. Qed.

Definition slow_variates : Variates :=
  {| uniform_real := lowest_uniform;
     exponential := slow_exponential;
     uniform_real_ge := lowest_uniform_ge;
     exponential_ge_0 := slow_exponential_ge_0 |}.

(** ** Witnesses and counterexamples for the claims about the engine *)

Section Concrete.

Import SimulationModel.

#[local] Existing Instance first_least_calendar.
#[local] Existing Instance slow_variates.

Lemma capacity_is_int : 0 < 3 <= INT_MAX.
Proof. unfold INT_MAX. lia. Qed.

(** Twelve iterations of the program's own model, with slow devices: the
    buffer is full and seven requests were rejected. *)
Lemma buffer_within_capacity_witness :
  exists m,
    iterate 12 new = Some m
    /\ requests_rejected m = 7
    /\ Buffer.max_size (buffer m) = 3
    /\ Buffer.getSize (buffer m) <= 3
    /\ (forall m', Buffer.isFull (buffer m) = true -> iteration m = Some m' ->
                   Buffer.getSize (buffer m') <= 3).
Proof.
  pose (o := iterate 12 new).
  assert (E : iterate 12 new = o) by reflexivity.
  vm_compute in o. unfold o in E. clear o.
  eexists. split; [exact E|]. split; [reflexivity|].
  apply (buffer_within_capacity 3 2 3 _ capacity_is_int).
  exact (iterate_reachable 12 _ _ _ (reach_init _) E).
Defined.

Lemma conservation_witness :
  (forall m,
      reachable_from new m ->
      requests_generated m
      = requests_served m + requests_rejected m
        + Buffer.getSize (buffer m) + busy (devices m))
  /\ (forall fuel max_time max_requests m,
         run fuel max_time max_requests new = Returned m ->
         requests_generated m
         = requests_served m + requests_rejected m
           + Buffer.getSize (buffer m) + busy (devices m)).
Proof.
  exact (conservation 3 2 3 capacity_is_int).
Defined.

(** The call of [main]: [run(1000.0, 1000)]. *)
Lemma run_stops_witness :
  (exists fuel0 m,
      forall fuel, (fuel0 <= fuel)%nat -> run fuel 1000 1000 new = Returned m)
  /\ (forall fuel m,
         run fuel 1000 1000 new = Returned m ->
         calendar m = [] \/ (1000 <= current_time m)%Q
         \/ 1000 <= requests_served m)
  /\ (1000 = 0 ->
      forall fuel, run fuel 1000 1000 new = Returned new
                   /\ requests_served new = 0).
Proof.
  exact (run_stops 3 2 3 1000 1000 capacity_is_int).
Defined.

(** After twelve iterations the next event is the departure from device
    0 at time 17/2 of a request that arrived and started at 3/2. *)
Lemma sojourn_ge_waiting_witness :
  exists m e rest device finished,
    iterate 12 new = Some m
    /\ top_pop (calendar m) = Some (e, rest)
    /\ Event.type e = Event.DEPARTURE
    /\ vec_at (devices m) (Event.entity_id e) = Some device
    /\ Device.current_request device = Some finished
    /\ let finished_request :=
         Request.set_finish_service_time (Event.time e) finished in
       (0 <= waiting_time finished_request)%Q
       /\ (waiting_time finished_request <= total_time finished_request)%Q
       /\ (Request.arrival_time finished <= Request.start_service_time finished)%Q
       /\ (Request.start_service_time finished <= Event.time e)%Q
       /\ (current_time m <= Event.time e)%Q.
Proof.
  pose (o := iterate 12 new).
  assert (E : iterate 12 new = o) by reflexivity.
  vm_compute in o. unfold o in E. clear o.
  eexists. eexists. eexists. eexists. eexists.
  split; [exact E|].
  assert (P : forall A (x : A), x = x) by reflexivity.
  split; [vm_compute; apply P|].
  split; [reflexivity|]. split; [vm_compute; apply P|]. split; [reflexivity|].
  eapply (sojourn_ge_waiting 3 2 3 _ _ _ _ _ capacity_is_int
            (iterate_reachable 12 _ _ _ (reach_init _) E)).
  - vm_compute. apply P.
  - reflexivity.
  - vm_compute. apply P.
  - reflexivity.
Defined.

(** The claim C9 as stated fails: in [saturated] the buffer reports full
    and has no candidate, and the arriving request is inserted. *)
Lemma arrival_not_admitted_fails :
  ~ (forall source_id m m',
        fst (Buffer.findRequestToReject (buffer m)) = None ->
        Buffer.isFull (buffer m) = true ->
        (exists selector',
            DeviceSelector.getFreeDevice (device_selector m) (devices m)
            = Some (None, selector')) ->
        processArrival source_id m = Some m' ->
        Buffer.buffer (buffer m') = Buffer.buffer (buffer m)).
Proof.
  intros H.
  pose (o := processArrival 0 saturated).
  assert (E : processArrival 0 saturated = o) by reflexivity.
  vm_compute in o. unfold o in E. clear o.
  specialize (H 0 saturated _ eq_refl eq_refl
                (ex_intro _ _ eq_refl) E).
  vm_compute in H. discriminate.
Qed.

Lemma arrival_inserted_without_candidate_witness :
  exists m' request,
    processArrival 0 saturated = Some m'
    /\ Buffer.buffer (buffer m') = Buffer.buffer (buffer saturated) ++ [request]
    /\ Request.source_id request = 0
    /\ Request.arrival_time request = current_time saturated
    /\ requests_rejected m' = requests_rejected saturated.
Proof.
  pose (o := processArrival 0 saturated).
  assert (E : processArrival 0 saturated = o) by reflexivity.
  vm_compute in o. unfold o in E. clear o.
  destruct (arrival_inserted_without_candidate 0 saturated _ eq_refl eq_refl
              (ex_intro _ _ eq_refl) E) as (request & Hr).
  eexists. exists request. split; [exact E|exact Hr].
Defined.

End Concrete.

(** C10. The loop tests the clock before it takes an event: when it is
    still running and the earliest event is at [max_time] or later, that
    event is handled in full and moves the clock to its time; the loop
    then stops, whatever fuel is left. So the final clock can exceed
    [max_time]: with [max_time = 1] the program's model stops at 3/2. *)
Theorem clock_can_pass_max_time :
  (forall (cal : Calendar) (var : Variates) (ns nd : nat) (buffer_size : Z)
          (max_time : Q) (max_requests : Z) (m : SimulationModel.t)
          (e : Event.t) (rest : list Event.t),
      0 < buffer_size <= INT_MAX ->
      SimulationModel.reachable_from (SimulationModel.construct ns nd buffer_size) m ->
      SimulationModel.running max_time max_requests m = true ->
      top_pop (SimulationModel.calendar m) = Some (e, rest) ->
      (max_time <= Event.time e)%Q ->
      exists m',
        SimulationModel.iteration m = Some m'
        /\ SimulationModel.current_time m' = Event.time e
        /\ SimulationModel.running max_time max_requests m' = false
        /\ forall fuel,
            SimulationModel.run (S fuel) max_time max_requests m
            = SimulationModel.Returned m')
  /\ (exists m,
         @SimulationModel.run first_least_calendar slow_variates 1 1 1000
           (@SimulationModel.new slow_variates)
         = SimulationModel.Returned m
         /\ (1 < SimulationModel.current_time m)%Q).
Proof.
  split.
  - intros cal var ns nd buffer_size max_time max_requests m e rest HC R Hrun P Hge.
    destruct (construct_ok ns nd buffer_size HC) as (S0 & _).
    destruct (reachable_ok _ _ R S0) as (Sm & _).
    exact (last_event_handled max_time max_requests m e rest Sm Hrun P Hge).
  - eexists. split; [vm_compute; reflexivity|]. vm_compute. reflexivity.
Qed.

(** The first iteration of the program's model under [max_time = 1]: the
    earliest event is the arrival at 3/2. *)
Lemma clock_can_pass_max_time_witness :
  exists m',
    @SimulationModel.iteration first_least_calendar slow_variates
      (@SimulationModel.new slow_variates) = Some m'
    /\ (1 < SimulationModel.current_time m')%Q
    /\ @SimulationModel.running 1 1000 m' = false.
Proof.
  edestruct (proj1 clock_can_pass_max_time first_least_calendar slow_variates
               3%nat 2%nat 3 1%Q 1000 (@SimulationModel.new slow_variates))
    as (m' & E & T & R & _).
  - unfold INT_MAX. lia.
  - apply SimulationModel.reach_init.
  - reflexivity.
  - vm_compute. reflexivity.
  - vm_compute. discriminate.
  - exists m'. split; [exact E|]. split; [|exact R].
    rewrite T. vm_compute. reflexivity.
Defined.

(** * Further properties of the code *)

(** ** Buffer *)

Lemma scan_worst_none_iff q : forall temp,
  snd (Buffer.scan_worst q temp None (-1)) = None
  <-> Forall (fun r => Request.source_id r <= -1) q.
Proof.
  induction q as [|r q IH]; intros temp; cbn [Buffer.scan_worst].
  - split; [constructor|reflexivity].
  - destruct (-1 <? Request.source_id r) eqn:L.
    + apply Z.ltb_lt in L. split.
      * intros H. exfalso. exact (scan_worst_some _ _ _ _ H).
      * intros H. inversion H; subst. lia.
    + apply Z.ltb_ge in L. rewrite IH. split.
      * intros H. constructor; assumption.
      * intros H. now inversion H.
Qed.

(** [findRequestToReject] takes the candidate it returns out of the
    buffer, as [getNextRequest] does: the other entries stay, and the
    [removeRequest] that follows in [processArrival] has nothing to
    remove. Without a candidate the buffer is unchanged. *)
Theorem findRequestToReject_removes (b : Buffer.t) :
  let res := Buffer.findRequestToReject b in
  let b' := snd res in
  Buffer.max_size b' = Buffer.max_size b
  /\ match fst res with
     | Some r =>
         Permutation (Buffer.buffer b) (r :: Buffer.buffer b')
         /\ (NoDup (map Request.ptr (Buffer.buffer b)) ->
             Buffer.removeRequest r b' = b')
     | None => Buffer.buffer b' = Buffer.buffer b
     end.
Proof.
  unfold Buffer.findRequestToReject.
  destruct (Buffer.findRequestToReject_queue (Buffer.buffer b)) as [r q'] eqn:E.
  simpl. split; [reflexivity|]. destruct r as [r|].
  - pose proof (findRequestToReject_queue_perm _ _ _ E) as P.
    split; [exact P|]. intros N. unfold Buffer.removeRequest. simpl. f_equal.
    apply removeRequest_absent.
    apply (Permutation_map Request.ptr) in P.
    apply (Permutation_NoDup P) in N. simpl in N. now inversion N.
  - now apply findRequestToReject_queue_none in E.
Qed.

(** [findRequestToReject] has no candidate exactly when no request of
    the buffer has a source id of 0 or more (the scan starts from -1);
    the empty buffer is the case the program can meet. *)
Theorem findRequestToReject_none_iff (b : Buffer.t) :
  fst (Buffer.findRequestToReject b) = None
  <-> Forall (fun r => Request.source_id r <= -1) (Buffer.buffer b).
Proof.
  unfold Buffer.findRequestToReject, Buffer.findRequestToReject_queue.
  destruct (Buffer.buffer b) as [|x q] eqn:E.
  - simpl. split; [constructor|reflexivity].
  - rewrite <- (scan_worst_none_iff (x :: q) []).
    destruct (Buffer.scan_worst (x :: q) [] None (-1)) as [temp worst].
    simpl. reflexivity.
Qed.

(** [removeRequest] deletes every entry with the address of the request
    and keeps the other entries in their order. *)
Theorem removeRequest_keeps_order (request : Request.t) (b : Buffer.t) :
  Buffer.removeRequest request b
  = Buffer.mk
      (filter (fun req => negb (Nat.eqb (Request.ptr req) (Request.ptr request)))
              (Buffer.buffer b))
      (Buffer.max_size b).
Proof.
  unfold Buffer.removeRequest, Buffer.removeRequest_queue.
  now rewrite refill_app, remove_scan_spec.
Qed.

(** Adding a request whose address is not in the buffer and removing it
    again gives the buffer back. *)
Theorem removeRequest_addRequest (request : Request.t) (b : Buffer.t) :
  ~ In (Request.ptr request) (map Request.ptr (Buffer.buffer b)) ->
  Buffer.removeRequest request (Buffer.addRequest request b) = b.
Proof.
  intros Hfresh. unfold Buffer.removeRequest, Buffer.removeRequest_queue, Buffer.addRequest.
  rewrite refill_app, remove_scan_spec. cbn [Buffer.buffer Buffer.max_size app].
  rewrite filter_app. cbn [filter]. rewrite Nat.eqb_refl. cbn [negb].
  rewrite app_nil_r. destruct b as [q C]. cbn [Buffer.buffer Buffer.max_size] in *.
  f_equal. induction q as [|x q IH]; [reflexivity|]. cbn [filter].
  destruct (Nat.eqb_spec (Request.ptr x) (Request.ptr request)) as [e|n]; cbn [negb].
  - exfalso. apply Hfresh. now left.
  - f_equal. apply IH. intros Hin. apply Hfresh. now right.
Qed.

Lemma removeRequest_addRequest_witness :
  Buffer.removeRequest (request_of_source 5 1)
    (Buffer.addRequest (request_of_source 5 1)
       (Buffer.mk [request_of_source 0 2; request_of_source 3 0] 3))
  = Buffer.mk [request_of_source 0 2; request_of_source 3 0] 3.
Proof.
  apply (removeRequest_addRequest (request_of_source 5 1)
           (Buffer.mk [request_of_source 0 2; request_of_source 3 0] 3)).
  simpl. intros [H|[H|[]]]; discriminate.
Defined.

Lemma find_first_split (p : Request.t -> bool) l1 r l2 :
  Forall (fun x => p x = false) l1 -> p r = true ->
  find p (l1 ++ r :: l2) = Some r /\ remove_first p (l1 ++ r :: l2) = l1 ++ l2.
Proof.
  intros H Hr. induction H as [|x l1 Hx _ [IH1 IH2]]; simpl.
  - now rewrite Hr.
  - rewrite Hx. split; [exact IH1|now rewrite IH2].
Qed.

(** While the marker names a source, [getNextRequest] hands out the
    requests of that source first in, first out: it returns the first
    request of the source in the queue and leaves the other entries in
    their order. *)
Theorem getNextRequest_packet_fifo (b : Buffer.t) (marker : Z)
        (l1 l2 : list Request.t) (r : Request.t) :
  marker <> -1 ->
  Buffer.buffer b = l1 ++ r :: l2 ->
  Request.source_id r = marker ->
  Forall (fun x => Request.source_id x <> marker) l1 ->
  Buffer.getNextRequest b marker
  = (Some r, Buffer.mk (l1 ++ l2) (Buffer.max_size b), marker).
Proof.
  intros Hm Hq Hr Hl1. unfold Buffer.getNextRequest, Buffer.getNextRequest_queue.
  rewrite Hq.
  destruct (find_first_split (from_source marker) l1 r l2) as [F R].
  { eapply Forall_impl; [|exact Hl1]. intros x Hx. now apply Z.eqb_neq. }
  { now apply Z.eqb_eq. }
  destruct (l1 ++ r :: l2) as [|y q] eqn:E; [now destruct l1|].
  replace (marker =? -1) with false by (symmetry; now apply Z.eqb_neq).
  cbn [negb]. rewrite scan_packet_spec, refill_app, !app_nil_l, F, R. reflexivity.
Qed.

Lemma getNextRequest_packet_fifo_witness :
  Buffer.getNextRequest
    (Buffer.mk [request_of_source 0 0; request_of_source 1 2;
                request_of_source 2 1; request_of_source 3 2] 4) 2
  = (Some (request_of_source 1 2),
     Buffer.mk [request_of_source 0 0; request_of_source 2 1;
                request_of_source 3 2] 4, 2).
Proof.
  apply (getNextRequest_packet_fifo
           (Buffer.mk [request_of_source 0 0; request_of_source 1 2;
                       request_of_source 2 1; request_of_source 3 2] 4)
           2 [request_of_source 0 0]
           [request_of_source 2 1; request_of_source 3 2]
           (request_of_source 1 2)).
  - discriminate.
  - reflexivity.
  - reflexivity.
  - repeat constructor. discriminate.
Defined.

(** ** DeviceSelector *)

(** For a selector built for the pool, [getFreeDevice] never returns a
    busy device, returns none exactly when every device is busy, and
    with every device free returns the one just after the cursor. *)
Theorem getFreeDevice_free_or_all_busy (sel : DeviceSelector.t)
        (devices : list Device.t) :
  DeviceSelector.num_devices sel = Z.of_nat (length devices) ->
  -1 <= DeviceSelector.last_used sel < Z.max 0 (DeviceSelector.num_devices sel) ->
  exists res sel',
    DeviceSelector.getFreeDevice sel devices = Some (res, sel')
    /\ (forall idx, res = Some idx ->
          exists d, vec_at devices idx = Some d /\ Device.isFree d = true)
    /\ (res = None <-> Forall (fun d => Device.isFree d = false) devices)
    /\ (devices <> [] -> Forall (fun d => Device.isFree d = true) devices ->
        res = Some ((DeviceSelector.last_used sel + 1) mod Z.of_nat (length devices))).
Proof.
  intros Hn Hc.
  destruct (getFreeDevice_cases sel devices Hn Hc)
    as [(idx & d & E & Hr & Ed & Hf)|[E Hbusy]].
  - exists (Some idx), (DeviceSelector.mk idx (DeviceSelector.num_devices sel)).
    split; [exact E|]. split; [|split].
    + intros i [= <-]. exists d. rewrite vec_at_nth by lia. now split.
    + split; [discriminate|]. intros Hall. rewrite Forall_forall in Hall.
      apply nth_error_In in Ed. apply Hall in Ed. congruence.
    + intros Hne Hall. rewrite (getFreeDevice_selectFree sel devices Hn Hc) in E.
      unfold selectFree_spec, rotated_order in E.
      destruct devices as [|d0 ds]; [congruence|].
      cbn [length seq map find] in E.
      assert (Hfree : is_free_at (d0 :: ds)
                        ((DeviceSelector.last_used sel + 1 + Z.of_nat 0)
                           mod Z.of_nat (S (length ds))) = true).
      { unfold is_free_at.
        match goal with
        | |- match ?t with _ => _ end = true => destruct t as [x|] eqn:Ex
        end.
        - rewrite Forall_forall in Hall. exact (Hall x (nth_error_In _ _ Ex)).
        - apply nth_error_None in Ex.
          assert (0 <= (DeviceSelector.last_used sel + 1 + Z.of_nat 0)
                         mod Z.of_nat (S (length ds)) < Z.of_nat (S (length ds)))
            by (apply Z.mod_pos_bound; lia).
          cbn [length] in Ex. lia. }
      rewrite Hfree in E. cbn [fst snd] in E. injection E as E _.
      rewrite <- E. cbn [length]. f_equal. f_equal. lia.
  - exists None, sel. split; [exact E|]. split; [discriminate|]. split.
    + split; [intros _; exact Hbusy|reflexivity].
    + intros Hne Hall. destruct devices as [|d0 ds]; [congruence|].
      inversion Hall; subst. inversion Hbusy; subst. congruence.
Qed.

Lemma getFreeDevice_free_or_all_busy_witness :
  let devices := [Device.mk (1 # 2) 0 (Some (request_of_source 0 0));
                  Device.mk (1 # 3) 1 (Some (request_of_source 1 1))] in
  exists res sel',
    DeviceSelector.getFreeDevice (DeviceSelector.mk 1 2) devices = Some (res, sel')
    /\ res = None.
Proof.
  intros devices.
  destruct (getFreeDevice_free_or_all_busy (DeviceSelector.mk 1 2) devices)
    as (res & sel' & E & _ & [_ Hnone] & _).
  - reflexivity.
  - simpl. lia.
  - exists res, sel'. split; [exact E|]. apply Hnone. repeat constructor.
Defined.

(** ** The engine: the shapes of a step *)

Lemma count_app {A} (p : A -> bool) l l' :
  count p (l ++ l') = (count p l + count p l')%nat.
Proof. unfold count. now rewrite filter_app, length_app. Qed.

Lemma count_perm {A} (p : A -> bool) l l' :
  Permutation l l' -> count p l = count p l'.
Proof.
  unfold count. induction 1; simpl; try (destruct (p x)); try (destruct (p y));
    simpl; congruence.
Qed.

Lemma count_push (p : Event.t -> bool) e c :
  count p (push e c) = (count p c + if p e then 1 else 0)%nat.
Proof.
  unfold push. rewrite count_app. unfold count at 2. simpl. now destruct (p e).
Qed.

Lemma sum_Z_update (f : Z -> Z) l : forall n x,
  nth_error l n = Some x -> sum_Z (update_nth n f l) = sum_Z l - x + f x.
Proof.
  induction l as [|y l IH]; intros [|n] x E; simpl in *; try discriminate.
  - inversion E; subst. lia.
  - rewrite (IH _ _ E). lia.
Qed.

Lemma update_nth_Forall2 {A B} (P : A -> B -> Prop) (f : A -> A) (g : B -> B) l1 l2 :
  Forall2 P l1 l2 ->
  forall n, (forall x y, P x y -> P (f x) (g y)) ->
  Forall2 P (update_nth n f l1) (update_nth n g l2).
Proof.
  induction 1 as [|x y l1 l2 Hxy H IH]; intros [|n] Hfg; simpl;
    constructor; auto.
Qed.

Section EngineShapes.

Context {cal : Calendar} {var : Variates}.
Import SimulationModel.

Ltac fields :=
  unfold num_sources, num_devices in *;
  cbn [set_calendar set_devices set_buffer set_device_selector set_generator
       set_heap set_current_time set_current_serving_source
       set_requests_generated set_requests_served set_requests_rejected
       set_source_requests set_source_rejections set_source_total_time
       set_source_waiting_time set_device_busy_time
       calendar sources devices buffer device_selector generator heap
       current_time current_serving_source requests_generated
       requests_served requests_rejected source_requests source_rejections
       source_total_time source_waiting_time device_busy_time
       Buffer.buffer Buffer.max_size Buffer.addRequest Buffer.removeRequest
       DeviceSelector.last_used DeviceSelector.num_devices] in *.

(** An arrival takes one of three ways; the fourth branch of the code, a
    full buffer without a candidate, is never taken in a state of the
    loop. *)
Lemma processArrival_shape m s :
  Structural m -> 0 <= s < num_sources m ->
  exists m', processArrival s m = Some m' /\ arrival_shape s m m'.
Proof.
  intros H Hs.
  pose proof H as [[Hn Hc] Hids (V1 & V2 & V3 & V4 & V5) Hsrc Hcal Hbuf Hptr Hdev [Hmax Hcap]].
  unfold processArrival. fields.
  rewrite vec_update_Some by lia. cbn [bind]. fields.
  destruct (vec_at_Some (update_nth (Z.to_nat s) Z.succ (source_requests m)) s)
    as [n En]; [rewrite update_nth_length; lia|].
  rewrite En. cbn [bind].
  destruct (vec_at_Some (sources m) s) as [src Esrc]; [lia|].
  rewrite Esrc. cbn [bind]. unfold getNextInterval. fields.
  destruct (getFreeDevice_cases (device_selector m) (devices m) Hn Hc)
    as [(idx & d & E & Hr & Ed & Hf)|[E Hbusy]]; rewrite E; cbn [bind]; fields.
  - unfold dispatch. fields. rewrite vec_at_nth, Ed by lia. cbn [bind].
    unfold getServiceTime. fields. rewrite vec_update_Some by lia. cbn [bind].
    eexists. split; [|apply (arrives_on_device s m n src idx d); try assumption; lia].
    unfold started, arrival_base. fields. reflexivity.
  - destruct (Buffer.isFull (buffer m)) eqn:Full; cbn [negb].
    + assert (Hfull := Full). unfold Buffer.isFull, to_size_t in Hfull.
      rewrite Z.mod_small in Hfull by lia. apply Z.leb_le in Hfull.
      assert (Hne : Buffer.buffer (buffer m) <> []).
      { intros E0. rewrite E0 in Hfull. simpl in Hfull. lia. }
      assert (Hpos : Forall (fun r => 0 <= Request.source_id r) (Buffer.buffer (buffer m))).
      { eapply Forall_impl; [|exact Hbuf]. intros r (Hr & _). lia. }
      destruct (findRequestToReject_queue_spec _ Hne Hpos) as (rej & q' & Ef & Hin & _).
      pose proof (findRequestToReject_queue_perm _ _ _ Ef) as P.
      rewrite Forall_forall in Hbuf. destruct (Hbuf _ Hin) as (Hrs & _).
      assert (N : NoDup (map Request.ptr (rej :: q'))).
      { eapply Permutation_NoDup; [|exact Hptr]. now apply Permutation_map. }
      assert (R : Buffer.removeRequest_queue rej q' = q').
      { apply removeRequest_absent. simpl in N. now inversion N. }
      unfold Buffer.findRequestToReject. rewrite Ef. fields.
      rewrite vec_update_Some by lia. cbn [bind].
      unfold Buffer.removeRequest. fields. rewrite R.
      eexists. split; [|exact (arrives_and_evicts s m n src rej q' En Esrc Hbusy Full Ef)].
      unfold inserted, evicted, arrival_base. fields. reflexivity.
    + eexists. split; [|exact (arrives_in_buffer s m n src En Esrc Hbusy Full)].
      unfold inserted, arrival_base. fields. reflexivity.
Qed.

Lemma serve_next_shape m :
  Structural m ->
  (exists i d, nth_error (devices m) i = Some d /\ Device.isFree d = true) ->
  exists m', serve_next m = Some m' /\ serve_shape m m'.
Proof.
  intros H (i & d0 & Ei & Hfree0).
  pose proof H as [[Hn Hc] Hids (V1 & V2 & V3 & V4 & V5) Hsrc Hcal Hbuf Hptr Hdev Hcap].
  unfold serve_next, Buffer.isEmpty.
  destruct (Buffer.buffer (buffer m)) as [|x q] eqn:Eq; cbn [negb].
  { exists m. split; [reflexivity|]. now constructor. }
  unfold Buffer.getNextRequest. rewrite Eq.
  destruct (Buffer.getNextRequest_queue (x :: q) (current_serving_source m))
    as [[next q'] marker'] eqn:E.
  fields. destruct next as [next|].
  - pose proof (getNextRequest_queue_perm _ _ _ _ _ E) as P.
    assert (N : NoDup (map Request.ptr (next :: q'))).
    { eapply Permutation_NoDup; [|exact Hptr]. now apply Permutation_map. }
    assert (R : Buffer.removeRequest_queue next q' = q').
    { apply removeRequest_absent. simpl in N. now inversion N. }
    unfold Buffer.removeRequest. fields. rewrite R.
    destruct (getFreeDevice_cases (device_selector m) (devices m) Hn Hc)
      as [(idx & d & Eg & Hr & Ed & Hf)|[Eg Hbusy]]; rewrite Eg; cbn [bind].
    + unfold dispatch. fields. rewrite vec_at_nth, Ed by lia. cbn [bind].
      unfold getServiceTime. fields. rewrite vec_update_Some by lia. cbn [bind].
      eexists. split; [reflexivity|].
      apply (serves_next m next q' marker' idx d); try assumption; try lia.
      now rewrite Eq.
    + exfalso. rewrite Forall_forall in Hbusy.
      apply nth_error_In in Ei. apply Hbusy in Ei. congruence.
  - pose proof (getNextRequest_queue_none _ _ _ _ E) as ->.
    eexists. split; [reflexivity|].
    rewrite <- Eq in *. apply serves_none; [rewrite Eq; discriminate|exact E].
Qed.

Lemma settled_ok m dv device :
  Structural m -> 0 <= dv < num_devices m ->
  nth_error (devices m) (Z.to_nat dv) = Some device ->
  Structural (settled dv device m)
  /\ (exists d', nth_error (devices (settled dv device m)) (Z.to_nat dv) = Some d'
                 /\ Device.isFree d' = true)
  /\ (m' <- match Device.current_request device with
            | Some finished => account dv finished (released dv m)
            | None => Some (released dv m)
            end ;; serve_next m') = serve_next (settled dv device m).
Proof.
  intros H Hd Ed.
  destruct (release_ok m dv device H Ed) as (S1 & _ & _ & _ & d' & Ed' & Hfree).
  fold (released dv m) in S1, Ed'.
  assert (Hdev : device_ok (current_time m) (num_sources m) device).
  { pose proof (st_devices m H) as Hall. rewrite Forall_forall in Hall.
    apply Hall. eapply nth_error_In; eassumption. }
  unfold device_ok in Hdev. unfold settled.
  destruct (Device.current_request device) as [finished|].
  - destruct (account_ok (released dv m) dv finished S1)
      as (m2 & E2 & S2 & _ & _ & _ & D2);
      try (unfold released; fields; rewrite ?update_nth_length; lia).
    assert (Em : m2 = accounted dv finished (released dv m)).
    { pose proof (st_vectors _ S1) as (V1 & V2 & V3 & V4 & V5).
      unfold account in E2. revert E2. fields.
      cbn [Request.set_finish_service_time Request.source_id].
      rewrite !vec_update_Some
        by (unfold released in *; fields; rewrite ?update_nth_length in *; lia).
      cbn [bind]. now intros [= <-]. }
    subst m2. rewrite E2. cbn [bind].
    split; [exact S2|]. split; [|reflexivity]. rewrite D2. eauto.
  - split; [exact S1|]. split; [eauto|reflexivity].
Qed.

Lemma iteration_shape m e rest :
  Structural m -> top_pop (calendar m) = Some (e, rest) ->
  exists m',
    iteration m = Some m'
    /\ Structural (at_time e rest m)
    /\ event_ok (current_time m) (num_sources m) (num_devices m) e
    /\ match Event.type e with
       | Event.ARRIVAL => arrival_shape (Event.entity_id e) (at_time e rest m) m'
       | Event.DEPARTURE =>
           exists device,
             nth_error (devices m) (Z.to_nat (Event.entity_id e)) = Some device
             /\ Structural (settled (Event.entity_id e) device (at_time e rest m))
             /\ serve_shape (settled (Event.entity_id e) device (at_time e rest m)) m'
       end.
Proof.
  intros H E. unfold iteration. rewrite E. cbn [bind].
  destruct (advance_clock m e rest H E) as [S1 Hev]. fold (at_time e rest m) in *.
  pose proof Hev as [Hnow Hid].
  destruct (Event.type e).
  - destruct (processArrival_shape (at_time e rest m) (Event.entity_id e) S1)
      as (m' & Em & Sh); [exact Hid|].
    exists m'. split; [exact Em|]. split; [exact S1|]. split; [exact Hev|exact Sh].
  - destruct (vec_at_Some (devices m) (Event.entity_id e)) as [device Ed]; [exact Hid|].
    rewrite vec_at_nth in Ed by lia.
    destruct (settled_ok (at_time e rest m) (Event.entity_id e) device S1 Hid Ed)
      as (S2 & Hfree & Eq).
    destruct (serve_next_shape _ S2) as (m' & Em & Sh).
    { destruct Hfree as (d' & Ed' & Hf). eauto. }
    exists m'. split.
    + unfold processDeparture. change (devices (at_time e rest m)) with (devices m).
      rewrite vec_at_nth, Ed by lia. cbn [bind].
      unfold Device.finishService at 1.
      rewrite vec_update_Some by exact Hid. cbn [bind].
      fold (released (Event.entity_id e) (at_time e rest m)).
      rewrite <- Em, <- Eq. unfold bind.
      destruct (Device.current_request device); reflexivity.
    + split; [exact S1|]. split; [exact Hev|]. exists device.
      split; [exact Ed|]. split; [exact S2|exact Sh].
Qed.

End EngineShapes.

(** ** The engine: the loop keeps its books *)

Lemma nth_update_succ l n i a :
  nth_error (update_nth n Z.succ l) i = Some a ->
  exists a0, nth_error l i = Some a0
             /\ a = a0 + (if Nat.eqb n i then 1 else 0).
Proof.
  rewrite update_nth_nth_error. destruct (Nat.eqb n i).
  - destruct (nth_error l i) as [a0|]; [|discriminate].
    simpl. intros [= <-]. exists a0. split; [reflexivity|lia].
  - intros E. exists a. split; [exact E|lia].
Qed.

Lemma eqb_index s i : 0 <= s -> (s =? Z.of_nat i) = Nat.eqb (Z.to_nat s) i.
Proof.
  intros Hs. destruct (Nat.eqb_spec (Z.to_nat s) i) as [<-|n].
  - apply Z.eqb_eq. lia.
  - apply Z.eqb_neq. lia.
Qed.

Lemma scan_best_source q : forall temp best bs temp' m bs',
  (forall b, best = Some b -> bs = Request.source_id b) ->
  Buffer.scan_best q temp best bs = (temp', Some m, bs') ->
  bs' = Request.source_id m.
Proof.
  induction q as [|r q IH]; intros temp best bs temp' m bs' Hb; cbn [Buffer.scan_best].
  - intros [= <- -> <-]. now apply Hb.
  - destruct (Request.source_id r <? bs).
    + apply IH. now intros b [= <-].
    + apply IH. exact Hb.
Qed.

(** The marker [getNextRequest] leaves is the source of the request it
    returns, and "none" when it returns nothing. *)
Lemma getNextRequest_queue_marker q marker res q' marker' :
  Buffer.getNextRequest_queue q marker = (res, q', marker') ->
  marker' = match res with Some r => Request.source_id r | None => -1 end.
Proof.
  assert (B : forall q m res q' m',
             (m = -1) ->
             Buffer.select_best q m = (res, q', m') ->
             m' = match res with Some r => Request.source_id r | None => -1 end).
  { clear. intros q m res q' m' Hm. unfold Buffer.select_best.
    destruct q as [|x q]; [now intros [= <- <- <-]|].
    destruct (Buffer.scan_best (x :: q) [] None INT_MAX) as [[temp best] bs] eqn:E.
    destruct best as [b|]; intros [= <- <- <-].
    - eapply scan_best_source; [|exact E]. discriminate.
    - exact Hm. }
  unfold Buffer.getNextRequest_queue. destruct q as [|x q]; [now intros [= <- <- <-]|].
  destruct (marker =? -1) eqn:M; cbn [negb].
  - apply B. now apply Z.eqb_eq.
  - rewrite scan_packet_spec, refill_app, !app_nil_l.
    destruct (find (from_source marker) (x :: q)) as [f|] eqn:F.
    + intros [= <- <- <-]. apply find_some in F as [_ F]. apply Z.eqb_eq in F. now symmetry.
    + apply B. reflexivity.
Qed.

(** Whatever the buffer and the marker, the marker [getNextRequest]
    leaves is the source of the request it returns, and "none" (-1) when
    it returns nothing. *)
Theorem getNextRequest_marker (b : Buffer.t) (marker : Z) :
  let res := Buffer.getNextRequest b marker in
  snd res = match fst (fst res) with
            | Some r => Request.source_id r
            | None => -1
            end.
Proof.
  unfold Buffer.getNextRequest.
  destruct (Buffer.getNextRequest_queue (Buffer.buffer b) marker) as [[r q'] m'] eqn:E.
  simpl. exact (getNextRequest_queue_marker _ _ _ _ _ E).
Qed.

Section EngineBooks.

Context {cal : Calendar} {var : Variates}.
Import SimulationModel.

Ltac fields :=
  unfold num_sources, num_devices in *;
  cbn [set_calendar set_devices set_buffer set_device_selector set_generator
       set_heap set_current_time set_current_serving_source
       set_requests_generated set_requests_served set_requests_rejected
       set_source_requests set_source_rejections set_source_total_time
       set_source_waiting_time set_device_busy_time
       calendar sources devices buffer device_selector generator heap
       current_time current_serving_source requests_generated
       requests_served requests_rejected source_requests source_rejections
       source_total_time source_waiting_time device_busy_time
       Buffer.buffer Buffer.max_size Buffer.addRequest Buffer.removeRequest
       DeviceSelector.last_used DeviceSelector.num_devices] in *.

Lemma busy_time_bound_later now now' d x :
  (now <= now')%Q -> (x <= busy_time_bound now d)%Q -> (x <= busy_time_bound now' d)%Q.
Proof.
  unfold busy_time_bound. destruct (Device.current_request d); intros; lra.
Qed.

(** Starting a service on a free device keeps the departures and the
    busy times in order. *)
Lemma started_departures devices0 c idx d r now e :
  (forall i d', nth_error devices0 i = Some d' -> Device.device_id d' = Z.of_nat i) ->
  0 <= idx -> nth_error devices0 (Z.to_nat idx) = Some d -> Device.isFree d = true ->
  Event.type e = Event.DEPARTURE -> Event.entity_id e = Device.getId d ->
  (forall i d', nth_error devices0 i = Some d' ->
     count (departure_of (Z.of_nat i)) c = if Device.isFree d' then 0%nat else 1%nat) ->
  forall i d',
    nth_error (update_nth (Z.to_nat idx) (Device.startService r now) devices0) i = Some d' ->
    count (departure_of (Z.of_nat i)) (push e c)
    = if Device.isFree d' then 0%nat else 1%nat.
Proof.
  intros Hids Hidx Ed Hfree Ht Hid Hinv i d'.
  pose proof (Hids _ _ Ed) as Hd. unfold Device.getId in Hid.
  rewrite update_nth_nth_error, count_push. unfold departure_of at 2. rewrite Ht, Hid, Hd.
  destruct (Nat.eqb_spec (Z.to_nat idx) i) as [<-|n].
  - rewrite Ed. simpl. intros [= <-]. rewrite (Hinv _ _ Ed), Hfree.
    rewrite Z.eqb_refl. reflexivity.
  - intros E. rewrite (Hinv _ _ E).
    replace (Z.of_nat (Z.to_nat idx) =? Z.of_nat i) with false
      by (symmetry; apply Z.eqb_neq; lia).
    lia.
Qed.

Lemma started_busy_time devices0 (times : list Q) idx d r now :
  nth_error devices0 (Z.to_nat idx) = Some d -> Device.isFree d = true ->
  (forall i d' x, nth_error devices0 i = Some d' -> nth_error times i = Some x ->
     (0 <= x)%Q /\ (x <= busy_time_bound now d')%Q) ->
  forall i d' x,
    nth_error (update_nth (Z.to_nat idx) (Device.startService r now) devices0) i = Some d' ->
    nth_error times i = Some x ->
    (0 <= x)%Q /\ (x <= busy_time_bound now d')%Q.
Proof.
  intros Ed Hfree Hinv i d' x. rewrite update_nth_nth_error.
  destruct (Nat.eqb_spec (Z.to_nat idx) i) as [<-|n].
  - rewrite Ed. simpl. intros [= <-] Ex. destruct (Hinv _ _ _ Ed Ex) as [H0 Hb].
    split; [exact H0|]. unfold busy_time_bound, Device.isFree in *. simpl.
    destruct (Device.current_request d); [discriminate|exact Hb].
  - intros E Ex. exact (Hinv _ _ _ E Ex).
Qed.

Lemma ledger_serve m m' :
  Structural m -> Ledger m -> serve_shape m m' -> Ledger m'.
Proof.
  intros H L Sh. destruct Sh as [Hq|marker' Hq E|next q' marker' idx d E Hidx Ed Hfree].
  - exact L.
  - apply getNextRequest_queue_marker in E. subst marker'.
    destruct L. constructor; unfold taken; fields; try assumption. now left.
  - pose proof (getNextRequest_queue_marker _ _ _ _ _ E) as ->.
    pose proof (getNextRequest_queue_perm _ _ _ _ _ E) as P.
    pose proof (st_buffer m H) as Hbuf. apply (Permutation_Forall P) in Hbuf.
    inversion Hbuf as [|? ? (Hs & _) _]; subst.
    destruct L. constructor; unfold started, taken; fields; try assumption.
    + intros i Hi. rewrite count_push. unfold arrival_of at 2. simpl.
      rewrite lg_arrivals0 by exact Hi. lia.
    + apply (started_departures _ _ idx d); try assumption; try reflexivity.
      exact (st_device_ids m H).
    + intros i a b Ea Eb. destruct (lg_per_source0 i a b Ea Eb) as [H0 Hle].
      split; [exact H0|].
      rewrite (count_perm _ _ _ P) in Hle. unfold count in *. simpl in Hle.
      destruct (from_source (Z.of_nat i) next); simpl in Hle; lia.
    + apply (started_busy_time _ _ idx d); assumption.
    + right. exact Hs.
Qed.

Lemma count_pop {A} (p : A -> bool) c e rest :
  Permutation c (e :: rest) ->
  count p c = ((if p e then 1 else 0) + count p rest)%nat.
Proof.
  intros P. rewrite (count_perm _ _ _ P). unfold count. simpl.
  now destruct (p e).
Qed.

(** The head of a departure: the device was busy, its request is
    accounted for and the device is free. *)
Lemma ledger_settled m e rest device :
  Structural m -> Ledger m ->
  top_pop (calendar m) = Some (e, rest) ->
  Event.type e = Event.DEPARTURE ->
  nth_error (devices m) (Z.to_nat (Event.entity_id e)) = Some device ->
  Ledger (settled (Event.entity_id e) device (at_time e rest m))
  /\ Device.isFree device = false.
Proof.
  intros H L E Ht Ed.
  destruct (advance_clock m e rest H E) as [_ [Hnow Hid]]. rewrite Ht in Hid.
  pose proof (top_pop_perm _ _ _ E) as P.
  set (dv := Event.entity_id e) in *.
  assert (Hdv : Z.of_nat (Z.to_nat dv) = dv) by lia.
  assert (CD : forall i, count (departure_of i) (calendar m)
                         = ((if (dv =? i)%Z then 1 else 0)
                            + count (departure_of i) rest)%nat).
  { intros i. rewrite (count_pop _ _ _ _ P). unfold departure_of at 1. now rewrite Ht. }
  assert (CA : forall i, count (arrival_of i) rest = count (arrival_of i) (calendar m)).
  { intros i. rewrite (count_pop _ _ _ _ P). unfold arrival_of at 2. now rewrite Ht. }
  assert (Hbusy : Device.isFree device = false).
  { pose proof (lg_departures m L _ _ Ed) as Hc. rewrite Hdv, CD, Z.eqb_refl in Hc.
    destruct (Device.isFree device); [discriminate|reflexivity]. }
  split; [|exact Hbusy].
  pose proof (st_devices m H) as Hdev. rewrite Forall_forall in Hdev.
  pose proof (Hdev _ (nth_error_In _ _ Ed)) as Hok. unfold device_ok in Hok.
  unfold settled. unfold Device.isFree in Hbusy.
  destruct (Device.current_request device) as [f|] eqn:Ef; [|discriminate].
  destruct Hok as (Hsrc & Harr & Hstart).
  destruct L. constructor; unfold accounted, released, at_time; fields;
    try assumption.
  - intros i Hi. rewrite CA. now apply lg_arrivals0.
  - intros i d'. rewrite update_nth_nth_error.
    destruct (Nat.eqb_spec (Z.to_nat dv) i) as [<-|n].
    + rewrite Ed. simpl. intros [= <-]. simpl.
      pose proof (lg_departures0 _ _ Ed) as Hc.
      rewrite Hdv, CD, Z.eqb_refl in Hc. unfold Device.isFree in Hc.
      rewrite Ef in Hc. rewrite Hdv. lia.
    + intros Ei. pose proof (lg_departures0 _ _ Ei) as Hc. rewrite CD in Hc.
      replace (dv =? Z.of_nat i) with false in Hc by (symmetry; apply Z.eqb_neq; lia).
      exact Hc.
  - apply update_nth_Forall2; [exact lg_times0|].
    intros x y [Hy Hxy]. unfold waiting_time, total_time. simpl. split; lra.
  - intros i d' x'. rewrite !update_nth_nth_error.
    destruct (Nat.eqb_spec (Z.to_nat dv) i) as [<-|n].
    + rewrite Ed. simpl. intros [= <-].
      destruct (nth_error (device_busy_time m) (Z.to_nat dv)) as [x|] eqn:Ex;
        [|discriminate].
      simpl. intros [= <-].
      destruct (lg_busy_time0 _ _ _ Ed Ex) as [H0 Hb].
      unfold busy_time_bound in *. rewrite Ef in Hb. simpl. split; lra.
    + intros Ei Ex. destruct (lg_busy_time0 _ _ _ Ei Ex) as [H0 Hb].
      split; [exact H0|]. now apply (busy_time_bound_later (current_time m)).
  - lra.
  - lia.
Qed.

Lemma ledger_arrival m e rest m' :
  Structural m -> Ledger m ->
  top_pop (calendar m) = Some (e, rest) ->
  Event.type e = Event.ARRIVAL ->
  arrival_shape (Event.entity_id e) (at_time e rest m) m' ->
  Ledger m'.
Proof.
  intros H L E Ht Sh.
  destruct (advance_clock m e rest H E) as [_ [Hnow Hid]]. rewrite Ht in Hid.
  pose proof (top_pop_perm _ _ _ E) as P.
  pose proof (st_vectors m H) as (V1 & V2 & V3 & V4 & V5).
  set (s := Event.entity_id e) in *.
  assert (GA : forall t i, 0 <= i < num_sources m ->
                 count (arrival_of i) (push (Event.mk t Event.ARRIVAL s None) rest)
                 = 1%nat).
  { intros t i Hi. rewrite count_push. unfold arrival_of at 2. simpl.
    pose proof (lg_arrivals m L i Hi) as Hc.
    rewrite (count_pop _ _ _ _ P) in Hc. unfold arrival_of at 1 in Hc.
    rewrite Ht in Hc. fold s in Hc. lia. }
  assert (GD : forall t i d, nth_error (devices m) i = Some d ->
                 count (departure_of (Z.of_nat i))
                       (push (Event.mk t Event.ARRIVAL s None) rest)
                 = if Device.isFree d then 0%nat else 1%nat).
  { intros t i d Ei. rewrite count_push. unfold departure_of at 2. simpl.
    rewrite <- (lg_departures m L i d Ei), (count_pop _ _ _ _ P).
    unfold departure_of at 2. rewrite Ht. lia. }
  assert (GG : sum_Z (update_nth (Z.to_nat s) Z.succ (source_requests m))
               = requests_generated m + 1).
  { destruct (nth_error (source_requests m) (Z.to_nat s)) as [x|] eqn:Ex.
    - rewrite (sum_Z_update _ _ _ _ Ex), (lg_generated m L). lia.
    - apply nth_error_None in Ex. unfold num_sources in Hid. lia. }
  assert (GP : forall i a b,
             nth_error (update_nth (Z.to_nat s) Z.succ (source_requests m)) i = Some a ->
             nth_error (source_rejections m) i = Some b ->
             0 <= b
             /\ b + Z.of_nat (count (from_source (Z.of_nat i)) (Buffer.buffer (buffer m)))
                + (if Nat.eqb (Z.to_nat s) i then 1 else 0) <= a).
  { intros i a b Ea Eb. apply nth_update_succ in Ea as (a0 & Ea & ->).
    destruct (lg_per_source m L i a0 b Ea Eb). split; lia. }
  assert (GB : forall i d x,
             nth_error (devices m) i = Some d ->
             nth_error (device_busy_time m) i = Some x ->
             (0 <= x)%Q /\ (x <= busy_time_bound (Event.time e) d)%Q).
  { intros i d x Ei Ex. destruct (lg_busy_time m L i d x Ei Ex) as [H0 Hb].
    split; [exact H0|]. now apply (busy_time_bound_later (current_time m)). }
  assert (GC : (0 <= Event.time e)%Q) by (pose proof (lg_clock m L); lra).
  assert (GS : forall i n t, from_source (Z.of_nat i) (Request.new (heap m) s n t)
                             = Nat.eqb (Z.to_nat s) i).
  { intros i n t. unfold from_source. simpl. apply eqb_index. lia. }
  destruct Sh as [n src idx d En Esrc Hidx Ed Hfree
                 |n src En Esrc Hbusy Hfull
                 |n src rej q' En Esrc Hbusy Hfull Ef];
    unfold at_time in *; fields.
  - destruct L. constructor; unfold started, arrival_base; fields; try assumption.
    + intros i Hi. rewrite count_push. unfold arrival_of at 2. simpl.
      rewrite GA by exact Hi. lia.
    + apply (started_departures _ _ idx d); try assumption; try reflexivity.
      * exact (st_device_ids m H).
      * apply GD.
    + intros i a b Ea Eb. destruct (GP i a b Ea Eb) as [H0 Hle].
      split; [exact H0|]. destruct (Nat.eqb _ _); lia.
    + apply (started_busy_time _ _ idx d); assumption.
  - destruct L. constructor; unfold inserted, arrival_base; fields; try assumption.
    + apply GA.
    + apply GD.
    + intros i a b Ea Eb. destruct (GP i a b Ea Eb) as [H0 Hle].
      split; [exact H0|]. rewrite count_app. unfold count at 2. cbn [filter].
      rewrite GS. destruct (Nat.eqb _ _); simpl; lia.
  - pose proof (findRequestToReject_queue_perm _ _ _ Ef) as Pq.
    pose proof (st_buffer m H) as Hbuf. apply (Permutation_Forall Pq) in Hbuf.
    inversion Hbuf as [|? ? (Hrs & _) _]; subst.
    destruct L. constructor; unfold inserted, evicted, arrival_base; fields;
      try assumption.
    + apply GA.
    + apply GD.
    + destruct (nth_error (source_rejections m) (Z.to_nat (Request.source_id rej)))
        as [x|] eqn:Ex.
      * rewrite (sum_Z_update _ _ _ _ Ex), lg_rejected0. lia.
      * apply nth_error_None in Ex. lia.
    + intros i a b Ea Eb. apply nth_update_succ in Eb as (b0 & Eb & ->).
      destruct (GP i a b0 Ea Eb) as [H0 Hle].
      rewrite (count_pop _ _ _ _ Pq) in Hle. unfold from_source at 1 in Hle.
      rewrite eqb_index in Hle by lia.
      rewrite count_app. unfold count at 2. cbn [filter]. rewrite GS.
      destruct (Nat.eqb (Z.to_nat (Request.source_id rej)) i),
               (Nat.eqb (Z.to_nat s) i); simpl; simpl in Hle; lia.
Qed.

(** One iteration keeps the books. *)
Lemma ledger_step m m' :
  Structural m -> Ledger m -> iteration m = Some m' -> Ledger m'.
Proof.
  intros H L E.
  destruct (top_pop (calendar m)) as [[e rest]|] eqn:P;
    [|unfold iteration in E; rewrite P in E; discriminate].
  destruct (iteration_shape m e rest H P) as (m'' & E' & _ & _ & Sh).
  assert (m'' = m') by congruence. subst m''.
  destruct (Event.type e) eqn:Ht.
  - exact (ledger_arrival m e rest m' H L P Ht Sh).
  - destruct Sh as (device & Ed & S2 & Sh).
    destruct (ledger_settled m e rest device H L P Ht Ed) as [L2 _].
    exact (ledger_serve _ _ S2 L2 Sh).
Qed.

(** The last loop of the constructor only adds arrivals, one for each
    source. *)
Lemma first_arrivals_eq srcs : forall m,
  exists c g,
    first_arrivals srcs m = set_generator g (set_calendar (calendar m ++ c) m)
    /\ (forall i, count (arrival_of i) c
                  = count (fun s => Source.source_id s =? i) srcs)
    /\ (forall i, count (departure_of i) c = 0%nat).
Proof.
  induction srcs as [|s srcs IH]; intros m; cbn [first_arrivals].
  - exists [], (generator m). split; [|split; reflexivity].
    destruct m. cbn. now rewrite app_nil_r.
  - unfold getNextInterval.
    match goal with
    | |- context [first_arrivals srcs ?m1] => destruct (IH m1) as (c & g & -> & Ca & Cd)
    end.
    fields. eexists (_ :: c), g. split; [|split].
    + unfold push. rewrite <- app_assoc. reflexivity.
    + intros i. unfold count in *. cbn [filter]. unfold arrival_of at 1.
      cbn [Event.type Event.entity_id]. unfold Source.getId.
      destruct (Source.source_id s =? i); cbn [length]; now rewrite Ca.
    + intros i. unfold count in *. cbn [filter]. unfold departure_of at 1.
      cbn [Event.type]. apply Cd.
Qed.

Lemma count_seq_index i : 0 <= i -> forall n,
  count (fun k => Z.of_nat k =? i) (seq 0 n) = if i <? Z.of_nat n then 1%nat else 0%nat.
Proof.
  intros Hi. induction n as [|n IH].
  { destruct (Z.ltb_spec i (Z.of_nat 0)); [simpl in *; lia|reflexivity]. }
  rewrite seq_S, count_app, IH. unfold count at 1. cbn [filter plus].
  destruct (Z.eqb_spec (Z.of_nat n) i) as [e|ne];
    destruct (Z.ltb_spec i (Z.of_nat n)), (Z.ltb_spec i (Z.of_nat (S n)));
    cbn [length]; lia.
Qed.

Lemma nth_error_repeat {A} (x y : A) n i : nth_error (repeat x n) i = Some y -> y = x.
Proof.
  intros E. apply nth_error_In in E. now apply repeat_spec in E.
Qed.

Lemma sum_Z_repeat n : sum_Z (repeat 0 n) = 0.
Proof. induction n as [|n IH]; simpl; lia. Qed.

(** The constructed model has its books in order. *)
Lemma construct_ledger ns nd buffer_size : Ledger (construct ns nd buffer_size).
Proof.
  unfold construct.
  match goal with
  | |- context [first_arrivals ?srcs ?m0] =>
      destruct (first_arrivals_eq srcs m0) as (c & g & -> & Ca & Cd)
  end.
  assert (Hfree : forall i d, nth_error (make_devices nd) i = Some d ->
                  Device.current_request d = None).
  { intros i d E. now apply make_devices_nth in E. }
  constructor; fields.
  - intros i Hi. rewrite Ca. unfold make_sources in *.
    rewrite length_map, length_seq in Hi. unfold count.
    rewrite <- (length_map (fun s => s)).
    assert (G : forall l, length (filter (fun s => Source.source_id s =? i)
                 (map (fun k => Source.mk ((3 # 2) + inject_Z (Z.of_nat k) * (1 # 2))
                                  ((5 # 2) + inject_Z (Z.of_nat k) * (1 # 2))
                                  (Z.of_nat k)) l))
               = count (fun k => Z.of_nat k =? i) l).
    { unfold count. induction l as [|k l IH]; [reflexivity|]. cbn [map filter].
      cbn [Source.source_id]. destruct (Z.of_nat k =? i); cbn [length]; now rewrite IH. }
    rewrite length_map, G, count_seq_index by lia.
    now replace (i <? Z.of_nat ns) with true by (symmetry; apply Z.ltb_lt; lia).
  - intros i d E. rewrite Cd. unfold Device.isFree. now rewrite (Hfree _ _ E).
  - apply sum_Z_repeat.
  - apply sum_Z_repeat.
  - intros i a b Ea Eb. apply nth_error_repeat in Ea, Eb. subst. simpl. lia.
  - clear. induction ns as [|n IH]; simpl; constructor; [split; lra|exact IH].
  - intros i d x E Ex. apply nth_error_repeat in Ex. subst x.
    unfold busy_time_bound. rewrite (Hfree _ _ E). split; lra.
  - now left.
  - lra.
  - lia.
Qed.

Lemma reachable_ledger m0 m :
  reachable_from m0 m -> Structural m0 -> Ledger m0 -> Ledger m.
Proof.
  induction 1 as [|m m' R IH E]; intros S0 L0; [exact L0|].
  destruct (reachable_ok _ _ R S0) as (Sm & _).
  exact (ledger_step m m' Sm (IH S0 L0) E).
Qed.

Lemma settled_frame dv device m :
  devices (settled dv device m)
  = update_nth (Z.to_nat dv) (fun d => snd (Device.finishService d)) (devices m)
  /\ buffer (settled dv device m) = buffer m
  /\ sources (settled dv device m) = sources m
  /\ calendar (settled dv device m) = calendar m
  /\ requests_served (settled dv device m)
     = requests_served m
       + match Device.current_request device with Some _ => 1 | None => 0 end
  /\ requests_generated (settled dv device m) = requests_generated m
  /\ requests_rejected (settled dv device m) = requests_rejected m
  /\ current_serving_source (settled dv device m) = current_serving_source m
  /\ current_time (settled dv device m) = current_time m.
Proof.
  unfold settled. destruct (Device.current_request device);
    unfold accounted, released; fields; repeat split; lia.
Qed.

(** An iteration changes neither the sources nor the number of devices. *)
Lemma iteration_frame m m' :
  Structural m -> iteration m = Some m' ->
  sources m' = sources m /\ length (devices m') = length (devices m).
Proof.
  intros H E.
  destruct (top_pop (calendar m)) as [[e rest]|] eqn:P;
    [|unfold iteration in E; rewrite P in E; discriminate].
  destruct (iteration_shape m e rest H P) as (m'' & E' & _ & _ & Sh).
  assert (m'' = m') by congruence. subst m''.
  destruct (Event.type e).
  - destruct Sh; unfold started, inserted, evicted, arrival_base, at_time; fields;
      rewrite ?update_nth_length; auto.
  - destruct Sh as (device & Ed & _ & Sh).
    destruct (settled_frame (Event.entity_id e) device (at_time e rest m))
      as (Fd & _ & Fs & _).
    destruct Sh; unfold started, taken; fields;
      rewrite ?Fd, ?Fs, ?update_nth_length; unfold at_time; fields;
      rewrite ?update_nth_length; auto.
Qed.

(** What holds in every state the loop reaches from the constructed
    model. *)
Lemma reachable_books ns nd buffer_size m :
  0 < buffer_size <= INT_MAX ->
  reachable_from (construct ns nd buffer_size) m ->
  Structural m /\ Ledger m
  /\ num_sources m = Z.of_nat ns /\ num_devices m = Z.of_nat nd.
Proof.
  intros HC R.
  destruct (construct_ok ns nd buffer_size HC) as (S0 & _).
  destruct (reachable_ok _ _ R S0) as (Sm & _).
  split; [exact Sm|]. split; [exact (reachable_ledger _ _ R S0 (construct_ledger _ _ _))|].
  clear Sm. induction R as [|m m' R IH E].
  - unfold construct.
    match goal with
    | |- context [first_arrivals ?srcs ?m0] =>
        destruct (first_arrivals_eq srcs m0) as (c & g & -> & _)
    end.
    fields. unfold make_sources, make_devices.
    now rewrite !length_map, !length_seq.
  - destruct (reachable_ok _ _ R S0) as (Sm & _).
    destruct (iteration_frame m m' Sm E) as [Fs Fd].
    unfold num_sources, num_devices in *. now rewrite Fs, Fd.
Qed.

Lemma Forall_nth_error {A} (P : A -> Prop) l :
  (forall i x, nth_error l i = Some x -> P x) -> Forall P l.
Proof.
  intros H. apply Forall_forall. intros x Hx.
  apply In_nth_error in Hx as [i Hi]. eauto.
Qed.

Lemma getNextRequest_queue_some q marker :
  q <> [] -> Forall (fun r => Request.source_id r < INT_MAX) q ->
  fst (fst (Buffer.getNextRequest_queue q marker)) <> None.
Proof.
  intros Hq H. destruct (getNextRequest_queue_selected q marker H) as [q' ->].
  cbn [fst]. unfold selectNext_spec. destruct q as [|x q]; [congruence|].
  destruct (if marker =? -1 then None else find _ (x :: q)); [discriminate|].
  destruct (first_smallest_cons x q) as [m ->]. discriminate.
Qed.

(** An iteration keeps the devices busy while requests wait. *)
Lemma work_step m m' :
  Structural m -> num_sources m <= INT_MAX ->
  work_conserving m -> iteration m = Some m' -> work_conserving m'.
Proof.
  intros H Hns W E.
  destruct (top_pop (calendar m)) as [[e rest]|] eqn:P;
    [|unfold iteration in E; rewrite P in E; discriminate].
  destruct (iteration_shape m e rest H P) as (m'' & E' & _ & _ & Sh).
  assert (m'' = m') by congruence. subst m''. unfold work_conserving in *.
  destruct (Event.type e).
  - destruct Sh as [n src idx d En Esrc Hidx Ed Hfree
                   |n src En Esrc Hbusy Hfull
                   |n src rej q' En Esrc Hbusy Hfull Ef];
      unfold started, inserted, evicted, arrival_base, at_time in *; fields.
    + intros Hq. apply W in Hq. rewrite Forall_forall in Hq.
      apply nth_error_In in Ed. apply Hq in Ed. congruence.
    + intros _. exact Hbusy.
    + intros _. exact Hbusy.
  - destruct Sh as (device & Ed & S2 & Sh).
    destruct (settled_frame (Event.entity_id e) device (at_time e rest m))
      as (Fd & Fb & Fs & _).
    set (m2 := settled (Event.entity_id e) device (at_time e rest m)) in *.
    destruct Sh as [Hq|marker' Hq Eq|next q' marker' idx d Eq Hidx Edx Hfree].
    + intros Hne. contradiction.
    + exfalso. apply (getNextRequest_queue_some _ (current_serving_source m2) Hq).
      * pose proof (st_buffer m2 S2) as Hbuf.
        eapply Forall_impl; [|exact Hbuf]. intros r (Hr & _).
        unfold num_sources in *. rewrite Fs in Hr. unfold at_time in Hr. fields. lia.
      * now rewrite Eq.
    + intros _. unfold started, taken. fields.
      pose proof (getNextRequest_queue_perm _ _ _ _ _ Eq) as Pq.
      assert (Hall : Forall (fun d => Device.isFree d = false) (devices m)).
      { apply W. rewrite Fb in Pq. unfold at_time in Pq. fields.
        intros E0. rewrite E0 in Pq. now apply Permutation_nil in Pq. }
      rewrite Forall_forall in Hall.
      rewrite Fd in Edx |- *. unfold at_time in Edx |- *. fields.
      assert (Hdv : Z.to_nat idx = Z.to_nat (Event.entity_id e)).
      { rewrite update_nth_nth_error in Edx.
        destruct (Nat.eqb_spec (Z.to_nat (Event.entity_id e)) (Z.to_nat idx)) as [->|n];
          [reflexivity|].
        apply nth_error_In in Edx. apply Hall in Edx. congruence. }
      apply Forall_nth_error. intros i x. rewrite !update_nth_nth_error, Hdv.
      destruct (Nat.eqb (Z.to_nat (Event.entity_id e)) i).
      * destruct (nth_error (devices m) i); [|discriminate]. simpl.
        now intros [= <-].
      * intros Ei. apply nth_error_In in Ei. now apply Hall.
Qed.

Lemma reachable_work ns nd buffer_size m :
  0 < buffer_size <= INT_MAX -> Z.of_nat ns <= INT_MAX ->
  reachable_from (construct ns nd buffer_size) m -> work_conserving m.
Proof.
  intros HC Hns R. induction R as [|m m' R IH E].
  - unfold work_conserving, construct.
    match goal with
    | |- context [first_arrivals ?srcs ?m0] =>
        destruct (first_arrivals_eq srcs m0) as (c & g & -> & _)
    end.
    fields. congruence.
  - destruct (reachable_books ns nd buffer_size m HC R) as (Sm & _ & Fs & _).
    apply (work_step m m' Sm); [lia|exact IH|exact E].
Qed.

(** *** Properties of the engine *)


(** Every source has exactly one arrival pending, in every state of the
    loop. So with at least one source the calendar is never empty, and
    [run] returns only with the clock at [max_time] or later or with
    [max_requests] requests served. *)
Theorem one_arrival_per_source (ns nd : nat) (buffer_size : Z) :
  0 < buffer_size <= INT_MAX ->
  (forall m i,
      reachable_from (construct ns nd buffer_size) m ->
      0 <= i < Z.of_nat ns -> count (arrival_of i) (calendar m) = 1%nat)
  /\ (forall m,
         reachable_from (construct ns nd buffer_size) m ->
         (0 < ns)%nat -> calendar m <> [])
  /\ (forall fuel max_time max_requests m,
         (0 < ns)%nat ->
         run fuel max_time max_requests (construct ns nd buffer_size) = Returned m ->
         (max_time <= current_time m)%Q \/ max_requests <= requests_served m).
Proof.
  intros HC.
  assert (A : forall m i, reachable_from (construct ns nd buffer_size) m ->
              0 <= i < Z.of_nat ns -> count (arrival_of i) (calendar m) = 1%nat).
  { intros m i R Hi. destruct (reachable_books ns nd buffer_size m HC R) as (_ & L & Fs & _).
    apply (lg_arrivals m L). now rewrite Fs. }
  assert (B : forall m, reachable_from (construct ns nd buffer_size) m ->
              (0 < ns)%nat -> calendar m <> []).
  { intros m R Hns E. specialize (A m 0 R). rewrite E in A. simpl in A.
    assert (0%nat = 1%nat) by (apply A; lia). discriminate. }
  split; [exact A|]. split; [exact B|].
  intros fuel max_time max_requests m Hns R.
  destruct (run_stopped _ _ _ _ _ R) as [E|H]; [|exact H].
  exfalso. exact (B m (run_reachable _ _ _ _ _ R) Hns E).
Qed.

(** A device is busy exactly when one departure for it is pending; a
    free device has none. *)
Theorem departure_pending_iff_busy (ns nd : nat) (buffer_size : Z) (m : t)
        (i : nat) (d : Device.t) :
  0 < buffer_size <= INT_MAX ->
  reachable_from (construct ns nd buffer_size) m ->
  nth_error (devices m) i = Some d ->
  count (departure_of (Z.of_nat i)) (calendar m)
  = if Device.isFree d then 0%nat else 1%nat.
Proof.
  intros HC R E. destruct (reachable_books ns nd buffer_size m HC R) as (_ & L & _).
  exact (lg_departures m L i d E).
Qed.

(** The per-source counters add up to the totals, and no source has
    more rejections than requests. *)
Theorem per_source_counters (ns nd : nat) (buffer_size : Z) (m : t) :
  0 < buffer_size <= INT_MAX ->
  reachable_from (construct ns nd buffer_size) m ->
  sum_Z (source_requests m) = requests_generated m
  /\ sum_Z (source_rejections m) = requests_rejected m
  /\ forall i requests rejections,
       vec_at (source_requests m) i = Some requests ->
       vec_at (source_rejections m) i = Some rejections ->
       0 <= rejections <= requests.
Proof.
  intros HC R. destruct (reachable_books ns nd buffer_size m HC R) as (_ & L & _).
  split; [exact (lg_generated m L)|]. split; [exact (lg_rejected m L)|].
  intros i a b Ea Eb. unfold vec_at in Ea, Eb. destruct (i <? 0); [discriminate|].
  destruct (lg_per_source m L _ a b Ea Eb). lia.
Qed.

Lemma Forall2_nth_error {A B} (P : A -> B -> Prop) l1 l2 :
  Forall2 P l1 l2 ->
  forall i x y, nth_error l1 i = Some x -> nth_error l2 i = Some y -> P x y.
Proof.
  induction 1 as [|a b l1 l2 Hab H IH]; intros [|i] x y; simpl; try discriminate.
  - now intros [= <-] [= <-].
  - apply IH.
Qed.

(** For every source the accumulated waiting time is not negative and
    not more than the accumulated total time. *)
Theorem accumulated_times (ns nd : nat) (buffer_size : Z) (m : t)
        (i : Z) (total waiting : Q) :
  0 < buffer_size <= INT_MAX ->
  reachable_from (construct ns nd buffer_size) m ->
  vec_at (source_total_time m) i = Some total ->
  vec_at (source_waiting_time m) i = Some waiting ->
  (0 <= waiting)%Q /\ (waiting <= total)%Q.
Proof.
  intros HC R Et Ew. destruct (reachable_books ns nd buffer_size m HC R) as (_ & L & _).
  unfold vec_at in Et, Ew. destruct (i <? 0); [discriminate|].
  exact (Forall2_nth_error _ _ _ (lg_times m L) _ _ _ Et Ew).
Qed.

(** The marker is "none" or the id of a source. *)
Theorem marker_names_a_source (ns nd : nat) (buffer_size : Z) (m : t) :
  0 < buffer_size <= INT_MAX ->
  reachable_from (construct ns nd buffer_size) m ->
  current_serving_source m = -1 \/ 0 <= current_serving_source m < Z.of_nat ns.
Proof.
  intros HC R. destruct (reachable_books ns nd buffer_size m HC R) as (_ & L & Fs & _).
  rewrite <- Fs. exact (lg_marker m L).
Qed.

(** No device idles while a request waits in the buffer. *)
Theorem no_idle_device_while_waiting (ns nd : nat) (buffer_size : Z) (m : t) :
  0 < buffer_size <= INT_MAX -> Z.of_nat ns <= INT_MAX ->
  reachable_from (construct ns nd buffer_size) m ->
  Buffer.isEmpty (buffer m) = false ->
  Forall (fun d => Device.isFree d = false) (devices m).
Proof.
  intros HC Hns R Hne. apply (reachable_work ns nd buffer_size m HC Hns R).
  unfold Buffer.isEmpty in Hne. now destruct (Buffer.buffer (buffer m)).
Qed.

Lemma ratio_bounds (w t s : Q) :
  (0 < s)%Q -> (0 <= w)%Q -> (w <= t)%Q -> (0 <= w / s)%Q /\ (w / s <= t / s)%Q.
Proof.
  intros Hs Hw Hwt. split.
  - apply Qle_shift_div_l; [exact Hs|]. lra.
  - apply Qle_shift_div_r; [exact Hs|].
    assert (E : (t / s * s == t)%Q) by (field; lra). rewrite E. exact Hwt.
Qed.

(** The figures [printResults] computes for a source are defined in
    every state of the loop: the rejection probability lies between 0
    and 1, and the mean waiting time between 0 and the mean total time. *)
Theorem source_figures (ns nd : nat) (buffer_size : Z) (m : t) (i : Z) :
  0 < buffer_size <= INT_MAX ->
  reachable_from (construct ns nd buffer_size) m ->
  0 <= i < Z.of_nat ns ->
  exists p total waiting,
    reject_prob m i = Some p
    /\ avg_total_time m i = Some total
    /\ avg_waiting_time m i = Some waiting
    /\ (0 <= p)%Q /\ (p <= 1)%Q
    /\ (0 <= waiting)%Q /\ (waiting <= total)%Q.
Proof.
  intros HC R Hi.
  destruct (reachable_books ns nd buffer_size m HC R) as (Sm & L & Fs & _).
  pose proof (st_vectors m Sm) as (V1 & V2 & V3 & V4 & _).
  unfold num_sources in Fs.
  destruct (vec_at_Some (source_requests m) i) as [a Ea]; [lia|].
  destruct (vec_at_Some (source_rejections m) i) as [b Eb]; [lia|].
  destruct (vec_at_Some (source_total_time m) i) as [tt Et]; [lia|].
  destruct (vec_at_Some (source_waiting_time m) i) as [w Ew]; [lia|].
  unfold reject_prob, avg_total_time, avg_waiting_time, served_requests.
  rewrite Ea, Eb, Et, Ew. cbn [bind].
  do 3 eexists. split; [reflexivity|]. split; [reflexivity|]. split; [reflexivity|].
  rewrite vec_at_nth in Ea, Eb by lia. rewrite vec_at_nth in Et, Ew by lia.
  destruct (lg_per_source m L _ a b Ea Eb) as [Hb Hab].
  destruct (Forall2_nth_error _ _ _ (lg_times m L) _ _ _ Et Ew) as [Hw Hwt].
  assert (Hba : b <= a) by lia.
  rewrite Zle_Qle in Hb, Hba. change (inject_Z 0) with 0%Q in Hb.
  split; [|split; [|split]].
  - destruct (Z.ltb_spec 0 a) as [Ha|Ha]; [|lra].
    rewrite Zlt_Qlt in Ha. change (inject_Z 0) with 0%Q in Ha.
    apply Qle_shift_div_l; [exact Ha|]. lra.
  - destruct (Z.ltb_spec 0 a) as [Ha|Ha]; [|lra].
    rewrite Zlt_Qlt in Ha. change (inject_Z 0) with 0%Q in Ha.
    apply Qle_shift_div_r; [exact Ha|]. lra.
  - destruct (Z.ltb_spec 0 (a - b)) as [Hs|Hs]; [|lra].
    rewrite Zlt_Qlt in Hs. change (inject_Z 0) with 0%Q in Hs.
    exact (proj1 (ratio_bounds w tt _ Hs Hw Hwt)).
  - destruct (Z.ltb_spec 0 (a - b)) as [Hs|Hs]; [|lra].
    rewrite Zlt_Qlt in Hs. change (inject_Z 0) with 0%Q in Hs.
    exact (proj2 (ratio_bounds w tt _ Hs Hw Hwt)).
Qed.

(** The utilization [printResults] computes for a device is defined and
    lies between 0 and 1: the busy time of a device never exceeds the
    clock. *)
Theorem device_utilization (ns nd : nat) (buffer_size : Z) (m : t) (i : Z) :
  0 < buffer_size <= INT_MAX ->
  reachable_from (construct ns nd buffer_size) m ->
  0 <= i < Z.of_nat nd ->
  exists busy_time u,
    vec_at (device_busy_time m) i = Some busy_time
    /\ utilization m i = Some u
    /\ (0 <= busy_time)%Q /\ (busy_time <= current_time m)%Q
    /\ (0 <= u)%Q /\ (u <= 1)%Q.
Proof.
  intros HC R Hi.
  destruct (reachable_books ns nd buffer_size m HC R) as (Sm & L & _ & Fd).
  pose proof (st_vectors m Sm) as (_ & _ & _ & _ & V5).
  unfold num_devices in Fd.
  destruct (vec_at_Some (device_busy_time m) i) as [x Ex]; [lia|].
  destruct (vec_at_Some (devices m) i) as [d Ed]; [lia|].
  unfold utilization. rewrite Ex. cbn [bind].
  exists x. eexists. split; [reflexivity|]. split; [reflexivity|].
  rewrite vec_at_nth in Ex by lia. rewrite vec_at_nth in Ed by lia.
  destruct (lg_busy_time m L _ _ _ Ed Ex) as [H0 Hb].
  assert (Hx : (x <= current_time m)%Q).
  { pose proof (st_devices m Sm) as Hdev. rewrite Forall_forall in Hdev.
    pose proof (Hdev _ (nth_error_In _ _ Ed)) as Hok.
    unfold device_ok in Hok. unfold busy_time_bound in Hb.
    destruct (Device.current_request d); [|exact Hb].
    destruct Hok as (_ & _ & Hs). lra. }
  split; [exact H0|]. split; [exact Hx|].
  destruct (Qltb 0 (current_time m)) eqn:Hnow; [|split; lra].
  apply Qltb_lt in Hnow. split.
  - apply Qle_shift_div_l; [exact Hnow|]. lra.
  - apply Qle_shift_div_r; [exact Hnow|]. lra.
Qed.

(** An arrival that finds a device free goes into service at once: the
    buffer is untouched, nothing is rejected, and the request starts at
    the time it arrived. *)
Theorem arrival_served_at_once (ns nd : nat) (buffer_size : Z) (m : t)
        (e : Event.t) (rest : list Event.t) :
  0 < buffer_size <= INT_MAX ->
  reachable_from (construct ns nd buffer_size) m ->
  top_pop (calendar m) = Some (e, rest) ->
  Event.type e = Event.ARRIVAL ->
  (exists d, In d (devices m) /\ Device.isFree d = true) ->
  exists m' idx d' r,
    iteration m = Some m'
    /\ buffer m' = buffer m
    /\ requests_rejected m' = requests_rejected m
    /\ vec_at (devices m') idx = Some d'
    /\ Device.current_request d' = Some r
    /\ Request.source_id r = Event.entity_id e
    /\ Request.arrival_time r = Event.time e
    /\ Request.start_service_time r = Event.time e.
Proof.
  intros HC R P Ht (d0 & Hin & Hfree0).
  destruct (reachable_books ns nd buffer_size m HC R) as (Sm & _).
  destruct (iteration_shape m e rest Sm P) as (m' & E & _ & _ & Sh).
  rewrite Ht in Sh.
  destruct Sh as [n src idx d En Esrc Hidx Ed Hfree
                 |n src En Esrc Hbusy Hfull
                 |n src rej q' En Esrc Hbusy Hfull Ef];
    unfold at_time in *; fields.
  - exists (started idx d (Request.new (heap m) (Event.entity_id e) n (Event.time e))
              (arrival_base (Event.entity_id e)
                 (uniform_real (generator m) (Source.min_int src) (Source.max_int src))
                 (DeviceSelector.mk idx (DeviceSelector.num_devices (device_selector m)))
                 (set_current_time (Event.time e) (set_calendar rest m)))),
      idx.
    do 2 eexists. split; [exact E|]. unfold started, arrival_base. fields.
    split; [reflexivity|]. split; [reflexivity|]. split.
    + rewrite vec_at_nth by lia. rewrite update_nth_nth_error, Nat.eqb_refl, Ed.
      reflexivity.
    + repeat split.
  - exfalso. rewrite Forall_forall in Hbusy. apply Hbusy in Hin. congruence.
  - exfalso. rewrite Forall_forall in Hbusy. apply Hbusy in Hin. congruence.
Qed.

(** An arrival that finds every device busy always enters the buffer,
    at the back. When the buffer is full a request of the largest
    source among those already waiting is rejected to make room; the
    newcomer itself is never the one rejected. *)
Theorem arrival_with_all_busy (ns nd : nat) (buffer_size : Z) (m : t)
        (e : Event.t) (rest : list Event.t) :
  0 < buffer_size <= INT_MAX ->
  reachable_from (construct ns nd buffer_size) m ->
  top_pop (calendar m) = Some (e, rest) ->
  Event.type e = Event.ARRIVAL ->
  Forall (fun d => Device.isFree d = false) (devices m) ->
  exists m' request,
    iteration m = Some m'
    /\ devices m' = devices m
    /\ Request.source_id request = Event.entity_id e
    /\ Request.arrival_time request = Event.time e
    /\ if Buffer.isFull (buffer m)
       then exists rejected q',
           Permutation (Buffer.buffer (buffer m)) (rejected :: q')
           /\ Forall (fun x => Request.source_id x <= Request.source_id rejected)
                     (Buffer.buffer (buffer m))
           /\ Buffer.buffer (buffer m') = q' ++ [request]
           /\ requests_rejected m' = requests_rejected m + 1
       else Buffer.buffer (buffer m') = Buffer.buffer (buffer m) ++ [request]
            /\ requests_rejected m' = requests_rejected m.
Proof.
  intros HC R P Ht Hall.
  destruct (reachable_books ns nd buffer_size m HC R) as (Sm & _).
  destruct (iteration_shape m e rest Sm P) as (m' & E & _ & _ & Sh).
  rewrite Ht in Sh.
  destruct Sh as [n src idx d En Esrc Hidx Ed Hfree
                 |n src En Esrc Hbusy Hfull
                 |n src rej q' En Esrc Hbusy Hfull Ef];
    unfold at_time in *; fields.
  - exfalso. rewrite Forall_forall in Hall.
    apply nth_error_In in Ed. apply Hall in Ed. congruence.
  - rewrite Hfull. eexists.
    exists (Request.new (heap m) (Event.entity_id e) n (Event.time e)).
    split; [exact E|]. unfold inserted, arrival_base. fields. repeat split.
  - rewrite Hfull. eexists.
    exists (Request.new (heap m) (Event.entity_id e) n (Event.time e)).
    split; [exact E|]. unfold inserted, evicted, arrival_base. fields.
    split; [reflexivity|]. split; [reflexivity|]. split; [reflexivity|].
    exists rej, q'. split; [exact (findRequestToReject_queue_perm _ _ _ Ef)|].
    split; [|split; reflexivity].
    assert (Hne : Buffer.buffer (buffer m) <> []).
    { intros E0. rewrite E0 in Ef. discriminate. }
    assert (Hpos : Forall (fun r => 0 <= Request.source_id r) (Buffer.buffer (buffer m))).
    { eapply Forall_impl; [|exact (st_buffer m Sm)]. intros r (Hr & _). lia. }
    destruct (findRequestToReject_queue_spec _ Hne Hpos) as (r & q'' & Ef' & _ & Hmax).
    rewrite Ef in Ef'. injection Ef' as <- _. exact Hmax.
Qed.

(** A departure always finds a request on its device and serves exactly
    one. With an empty buffer the device stays free. Otherwise the
    request [getNextRequest] selects leaves the buffer and starts
    service at that time on a free device, so that as many devices are
    busy as before. *)
Theorem departure_serves_one (ns nd : nat) (buffer_size : Z) (m m' : t)
        (e : Event.t) (rest : list Event.t) :
  0 < buffer_size <= INT_MAX -> Z.of_nat ns <= INT_MAX ->
  reachable_from (construct ns nd buffer_size) m ->
  top_pop (calendar m) = Some (e, rest) ->
  Event.type e = Event.DEPARTURE ->
  iteration m = Some m' ->
  requests_served m' = requests_served m + 1
  /\ requests_generated m' = requests_generated m
  /\ requests_rejected m' = requests_rejected m
  /\ match fst (fst (Buffer.getNextRequest (buffer m) (current_serving_source m))) with
     | None =>
         Buffer.buffer (buffer m) = [] /\ Buffer.buffer (buffer m') = []
         /\ busy (devices m') = busy (devices m) - 1
     | Some next =>
         Permutation (Buffer.buffer (buffer m)) (next :: Buffer.buffer (buffer m'))
         /\ busy (devices m') = busy (devices m)
         /\ current_serving_source m' = Request.source_id next
         /\ exists idx d',
             vec_at (devices m') idx = Some d'
             /\ Device.current_request d'
                = Some (Request.set_start_service_time (Event.time e) next)
     end.
Proof.
  intros HC Hns R P Ht E.
  destruct (reachable_books ns nd buffer_size m HC R) as (Sm & L & Fs & _).
  destruct (construct_ok ns nd buffer_size HC) as (S0 & _).
  destruct (reachable_ok _ _ R S0) as (_ & Bm & _).
  destruct (reachable_ok _ _ (reach_step _ _ _ R E) S0) as (_ & Bm' & _).
  rewrite <- Bm in Bm'. unfold balance in Bm'.
  destruct (iteration_shape m e rest Sm P) as (m'' & E' & _ & _ & Sh).
  assert (m'' = m') by congruence. subst m''. rewrite Ht in Sh.
  destruct Sh as (device & Ed & S2 & Sh).
  destruct (ledger_settled m e rest device Sm L P Ht Ed) as [_ Hbusy].
  destruct (settled_frame (Event.entity_id e) device (at_time e rest m))
    as (Fd & Fb & _ & _ & Fserved & Fgen & Frej & Fmark & Ftime).
  unfold Device.isFree in Hbusy.
  destruct (Device.current_request device); [|discriminate].
  set (m2 := settled (Event.entity_id e) device (at_time e rest m)) in *.
  unfold at_time in Fb, Fserved, Fgen, Frej, Fmark, Ftime. fields.
  unfold Buffer.getNextRequest.
  destruct Sh as [Hq|marker' Hq Eq|next q' marker' idx d Eq Hidx Edx Hfree].
  - rewrite Fb in Hq. rewrite Hq in *. cbn [Buffer.getNextRequest_queue fst].
    rewrite Fserved, Fgen, Frej. repeat split; try reflexivity.
    + now rewrite Fb.
    + rewrite Fb, Hq, Fserved, Fgen, Frej in Bm'. simpl in Bm'. lia.
  - exfalso. apply (getNextRequest_queue_some _ (current_serving_source m2) Hq).
    + eapply Forall_impl; [|exact (st_buffer m2 S2)]. intros r (Hr & _).
      pose proof (st_buffer m Sm) as Hb. unfold num_sources in *.
      assert (sources m2 = sources m) as Hsrc
        by (destruct (settled_frame (Event.entity_id e) device (at_time e rest m))
              as (_ & _ & Hx & _); exact Hx).
      rewrite Hsrc in Hr. lia.
    + now rewrite Eq.
  - rewrite Fb, Fmark in Eq. rewrite Eq. cbn [fst].
    pose proof (getNextRequest_queue_perm _ _ _ _ _ Eq) as Pq.
    pose proof (getNextRequest_queue_marker _ _ _ _ _ Eq) as Hm.
    unfold started, taken in *. fields.
    rewrite Fserved, Fgen, Frej in *.
    split; [reflexivity|]. split; [reflexivity|]. split; [reflexivity|].
    split; [exact Pq|]. split.
    + rewrite (Permutation_length Pq) in Bm'. cbn [length] in Bm'. lia.
    + split; [exact Hm|]. exists idx. eexists. split.
      * rewrite vec_at_nth by lia.
        rewrite update_nth_nth_error, Nat.eqb_refl, Edx. reflexivity.
      * unfold Device.startService. simpl. now rewrite Ftime.
Qed.

End EngineBooks.

(** ** Witnesses for the properties of the engine *)

Section ConcreteBooks.

Import SimulationModel.

#[local] Existing Instance first_least_calendar.
#[local] Existing Instance slow_variates.

Ltac load n :=
  let o := fresh "o" in
  pose (o := iterate n new);
  assert (E : iterate n new = o) by reflexivity;
  vm_compute in o; unfold o in E; clear o.

Lemma source_count_is_int : Z.of_nat 3 <= INT_MAX.
Proof. unfold INT_MAX. simpl. lia. Qed.


Lemma one_arrival_per_source_witness :
  (forall m i,
      reachable_from new m ->
      0 <= i < Z.of_nat 3 -> count (arrival_of i) (calendar m) = 1%nat)
  /\ (forall m, reachable_from new m -> (0 < 3)%nat -> calendar m <> [])
  /\ (forall fuel max_time max_requests m,
         (0 < 3)%nat ->
         run fuel max_time max_requests new = Returned m ->
         (max_time <= current_time m)%Q \/ max_requests <= requests_served m).
Proof.
  exact (one_arrival_per_source 3 2 3 capacity_is_int).
Defined.

Lemma departure_pending_iff_busy_witness :
  exists m d,
    iterate 12 new = Some m
    /\ nth_error (devices m) 1 = Some d
    /\ Device.isFree d = false
    /\ count (departure_of (Z.of_nat 1)) (calendar m)
       = if Device.isFree d then 0%nat else 1%nat.
Proof.
  load 12%nat. eexists. eexists. split; [exact E|].
  split; [reflexivity|]. split; [reflexivity|].
  apply (departure_pending_iff_busy 3 2 3 _ 1%nat _ capacity_is_int
           (iterate_reachable 12 _ _ _ (reach_init _) E)).
  reflexivity.
Defined.

Lemma per_source_counters_witness :
  exists m,
    iterate 12 new = Some m
    /\ requests_generated m = 12
    /\ sum_Z (source_requests m) = requests_generated m
    /\ sum_Z (source_rejections m) = requests_rejected m
    /\ forall i requests rejections,
         vec_at (source_requests m) i = Some requests ->
         vec_at (source_rejections m) i = Some rejections ->
         0 <= rejections <= requests.
Proof.
  load 12%nat. eexists. split; [exact E|]. split; [reflexivity|].
  exact (per_source_counters 3 2 3 _ capacity_is_int
           (iterate_reachable 12 _ _ _ (reach_init _) E)).
Defined.

Lemma accumulated_times_witness :
  exists m total waiting,
    iterate 14 new = Some m
    /\ vec_at (source_total_time m) 0 = Some total
    /\ vec_at (source_waiting_time m) 0 = Some waiting
    /\ (0 < total)%Q
    /\ (0 <= waiting)%Q /\ (waiting <= total)%Q.
Proof.
  load 14%nat. do 3 eexists. split; [exact E|].
  split; [reflexivity|]. split; [reflexivity|]. split; [reflexivity|].
  apply (accumulated_times 3 2 3 _ 0 _ _ capacity_is_int
           (iterate_reachable 14 _ _ _ (reach_init _) E)); reflexivity.
Defined.

Lemma marker_names_a_source_witness :
  exists m,
    iterate 14 new = Some m
    /\ current_serving_source m = 0
    /\ (current_serving_source m = -1
        \/ 0 <= current_serving_source m < Z.of_nat 3).
Proof.
  load 14%nat. eexists. split; [exact E|]. split; [reflexivity|].
  exact (marker_names_a_source 3 2 3 _ capacity_is_int
           (iterate_reachable 14 _ _ _ (reach_init _) E)).
Defined.

Lemma no_idle_device_while_waiting_witness :
  exists m,
    iterate 12 new = Some m
    /\ Buffer.getSize (buffer m) = 3
    /\ Forall (fun d => Device.isFree d = false) (devices m).
Proof.
  load 12%nat. eexists. split; [exact E|]. split; [reflexivity|].
  apply (no_idle_device_while_waiting 3 2 3 _ capacity_is_int source_count_is_int
           (iterate_reachable 12 _ _ _ (reach_init _) E)).
  reflexivity.
Defined.

Lemma source_figures_witness :
  exists m p total waiting,
    iterate 14 new = Some m
    /\ reject_prob m 2 = Some p
    /\ avg_total_time m 2 = Some total
    /\ avg_waiting_time m 2 = Some waiting
    /\ (0 <= p)%Q /\ (p <= 1)%Q
    /\ (0 <= waiting)%Q /\ (waiting <= total)%Q.
Proof.
  load 14%nat.
  destruct (source_figures 3 2 3 _ 2 capacity_is_int
              (iterate_reachable 14 _ _ _ (reach_init _) E))
    as (p & total & waiting & H); [simpl; lia|].
  eexists. exists p, total, waiting. split; [exact E|exact H].
Defined.

Lemma device_utilization_witness :
  exists m busy_time u,
    iterate 14 new = Some m
    /\ vec_at (device_busy_time m) 0 = Some busy_time
    /\ utilization m 0 = Some u
    /\ (0 <= busy_time)%Q /\ (busy_time <= current_time m)%Q
    /\ (0 <= u)%Q /\ (u <= 1)%Q.
Proof.
  load 14%nat.
  destruct (device_utilization 3 2 3 _ 0 capacity_is_int
              (iterate_reachable 14 _ _ _ (reach_init _) E))
    as (x & u & H); [simpl; lia|].
  eexists. exists x, u. split; [exact E|exact H].
Defined.

(** The first event of the program's model: the arrival of source 0 at
    3/2 finds both devices free. *)
Lemma arrival_served_at_once_witness :
  exists m' idx d' r,
    iteration new = Some m'
    /\ buffer m' = buffer new
    /\ requests_rejected m' = requests_rejected new
    /\ vec_at (devices m') idx = Some d'
    /\ Device.current_request d' = Some r
    /\ Request.source_id r = 0
    /\ Request.arrival_time r = (6 # 4)%Q
    /\ Request.start_service_time r = (6 # 4)%Q.
Proof.
  edestruct (arrival_served_at_once 3 2 3 new) as (m' & idx & d' & r & H).
  - exact capacity_is_int.
  - apply reach_init.
  - vm_compute. reflexivity.
  - reflexivity.
  - eexists. split; [left; reflexivity|reflexivity].
  - exists m', idx, d', r. exact H.
Defined.

(** After five iterations both devices are busy and the buffer holds
    the sources 2, 0, 1: the arrival of source 0 evicts the request of
    source 2. *)
Lemma arrival_with_all_busy_witness :
  exists m m' request rejected q',
    iterate 5 new = Some m
    /\ iteration m = Some m'
    /\ Request.source_id request = 0
    /\ Request.source_id rejected = 2
    /\ Permutation (Buffer.buffer (buffer m)) (rejected :: q')
    /\ Buffer.buffer (buffer m') = q' ++ [request]
    /\ requests_rejected m' = requests_rejected m + 1.
Proof.
  load 5%nat.
  edestruct (arrival_with_all_busy 3 2 3) as (m' & request & Em & _ & Hs & _ & H).
  - exact capacity_is_int.
  - exact (iterate_reachable 5 _ _ _ (reach_init _) E).
  - vm_compute. reflexivity.
  - reflexivity.
  - repeat constructor.
  - cbv beta iota delta [Buffer.isFull buffer Buffer.buffer Buffer.max_size
                         to_size_t length] in H.
    change (Z.leb (3 mod 2 ^ 64) (Z.of_nat 3)) with true in H. cbv iota in H.
    destruct H as (rejected & q' & Pq & Hmax & Hb & Hr).
    eexists. exists m', request, rejected, q'.
    split; [exact E|]. split; [exact Em|]. split; [exact Hs|].
    split; [|split; [exact Pq|split; [exact Hb|exact Hr]]].
    assert (Hin : In rejected (Buffer.buffer (buffer
                    (match iterate 5 new with Some x => x | None => new end)))).
    { rewrite E. apply (Permutation_in _ (Permutation_sym Pq)). now left. }
    rewrite E in Hin. cbn [buffer Buffer.buffer] in Hin, Hmax.
    clear - Hin Hmax. inversion Hmax as [|? ? H2 _]; subst.
    cbn [Request.source_id] in H2.
    destruct Hin as [<-|[<-|[<-|[]]]]; cbn [Request.source_id] in *;
      try reflexivity; lia.
Defined.

(** The thirteenth event of the run is the departure from device 0: the
    request of source 0 that waited moves into service. *)
Lemma departure_serves_one_witness :
  exists m m' next,
    iterate 12 new = Some m
    /\ iteration m = Some m'
    /\ requests_served m' = requests_served m + 1
    /\ fst (fst (Buffer.getNextRequest (buffer m) (current_serving_source m)))
       = Some next
    /\ Request.source_id next = 0
    /\ current_serving_source m' = 0
    /\ busy (devices m') = busy (devices m).
Proof.
  load 12%nat.
  pose (o' := iterate 13 new).
  assert (E' : iterate 13 new = o') by reflexivity.
  vm_compute in o'. unfold o' in E'. clear o'.
  match type of E with _ = Some ?x => set (m := x) in * end.
  match type of E' with _ = Some ?x => set (m' := x) in * end.
  assert (Ei : iteration m = Some m') by (vm_compute; reflexivity).
  pose proof (departure_serves_one 3 2 3 m m' _ _ capacity_is_int source_count_is_int
                (iterate_reachable 12 _ _ _ (reach_init _) E)
                (eq_refl : top_pop (calendar m) = Some _) eq_refl Ei)
    as (Hs & _ & _ & H).
  assert (En : exists next,
             fst (fst (Buffer.getNextRequest (buffer m) (current_serving_source m)))
             = Some next /\ Request.source_id next = 0).
  { eexists. split; vm_compute; reflexivity. }
  destruct En as (next & En & Hn). rewrite En in H.
  destruct H as (_ & Hb & Hm & _).
  exists m, m', next.
  split; [exact E|]. split; [exact Ei|]. split; [exact Hs|]. split; [exact En|].
  split; [exact Hn|]. split; [now rewrite Hm|exact Hb].
Defined.

End ConcreteBooks.
